(** * AudiDeck driver: the frame ring buffer

    A shallow embedding of the single-producer/single-consumer ring buffer
    of the AudiDeck virtual audio driver, in its three incarnations:

    - the C interface of [AudioRingBuffer.c] (struct [AudioRingBuffer] and
      the free functions [AudioRingBuffer_Create], [_Reset], [_Write], ...),
    - the C++ class [AudioRingBuffer] of [AudioRingBuffer.hpp]
      (module [Cpp] below),
    - the class [RingBuffer] private to [AudiDeckDriver.cpp]
      (module [Driver] below),

    and of the plug-in functions of [AudiDeckDriver.cpp] that use the last
    one (module [Plugin] below).

    Conventions of the embedding.

    - [uint32_t] and [uint64_t] values are integers of [Z]; every
      arithmetic operation of the source is followed by the reduction it
      has in C ([u32], [u64]).  [size_t] is 64 bits wide (the driver is a
      macOS LP64 plug-in), [sizeof(float)] is 4.
    - The code never computes with a sample: it copies samples and it
      produces the all-zero bit pattern ([calloc], [memset], [0.0f]).
      The embedding is therefore parametric in the type [sample] of
      samples, with one distinguished value [silence] for the all-zero
      sample.
    - A C array is a [list sample]; an access outside of it is undefined
      behaviour in C and is the failure [None] of the embedding.
    - A pointer argument is a [pointer]: [NULL] or [Ptr v], where [v] is
      the current value of the object pointed to.  A function that writes
      through a pointer returns the new value of the object.
    - The atomics are read and written by one thread at a time in this
      development: [atomic_load] and [atomic_store] are a plain read and a
      plain write of the field, fences do nothing. *)

From Stdlib Require Import ZArith Lia List Bool.
From stdpp Require Import base option list strings.

Local Open Scope Z_scope.

(** ** Machine integers *)

Definition u32 (z : Z) : Z := z mod 2 ^ 32.
Definition u64 (z : Z) : Z := z mod 2 ^ 64.
Definition usize (z : Z) : Z := u64 z.

Definition sizeof_float : Z := 4.

(** [sizeof(AudioRingBuffer)]: one pointer, two [uint32_t], two 64-bit
    atomics. *)
Definition sizeof_AudioRingBuffer : Z := 32.

(** ** Pointers, arrays, loops *)

Inductive pointer (A : Type) : Type :=
| NULL : pointer A
| Ptr : A -> pointer A.

Arguments NULL {A}.
Arguments Ptr {A} _.

(** [for_loop n i body s] runs [body i], [body (i+1)], ..., [body (i+n-1)]
    in this order: [for (k = i; k < i + n; k++) body]. *)
Fixpoint for_loop {S : Type} (n : nat) (i : Z) (body : Z -> S -> option S)
  (s : S) : option S :=
  match n with
  | O => Some s
  | S n' =>
      match body i s with
      | Some s' => for_loop n' (i + 1) body s'
      | None => None
      end
  end.

Section Memory.
Context {sample : Type}.
Variable silence : sample.

(** [a[i]] as an rvalue. *)
Definition load (a : list sample) (i : Z) : option sample :=
  if 0 <=? i then a !! Z.to_nat i else None.

(** [a[i] = v]. *)
Definition store (a : list sample) (i : Z) (v : sample)
  : option (list sample) :=
  if (0 <=? i) && (i <? Z.of_nat (length a))
  then Some (<[Z.to_nat i := v]> a)
  else None.

(** [memset(a + off, 0, nbytes)] on an array of [float].  Every byte
    count of this program is a product by [sizeof(float)] reduced modulo
    [2^64], hence a multiple of 4: whole samples are cleared. *)
Definition memset_zero (a : list sample) (off nbytes : Z)
  : option (list sample) :=
  let n := nbytes / sizeof_float in
  if (0 <=? off) && (off + n <=? Z.of_nat (length a))
  then Some (take (Z.to_nat off) a
             ++ replicate (Z.to_nat n) silence
             ++ drop (Z.to_nat (off + n)) a)
  else None.

(** [calloc(n, size)] of an array of [float]: [alloc] tells whether the
    allocator grants a request of that many bytes; a request whose byte
    count overflows [size_t] is refused. *)
Definition calloc (alloc : Z -> bool) (n size : Z) : pointer (list sample) :=
  if (n * size <? 2 ^ 64) && alloc (n * size)
  then Ptr (replicate (Z.to_nat n) silence)
  else NULL.
End Memory.

(** The nested copy loop that write, read and peek share, with the two
    offsets of a frame as functions of the loop counter: frame [i] goes
    from the offset [soff i] of [src] to the offset [doff i] of [dst],
    sample by sample. *)
Definition copy_frames {sample : Type} (src : list sample)
  (soff doff : Z -> Z) (n N : Z) (dst : list sample) : option (list sample) :=
  for_loop (Z.to_nat n) 0 (fun i dst =>
      for_loop (Z.to_nat N) 0 (fun ch dst =>
          v ← load src (usize (soff i + ch));
          store dst (usize (doff i + ch)) v) dst)
    dst.

(** The rounding loop of the two power-of-two constructors:
    [while (powerOf2Size < bufferSizeFrames) powerOf2Size <<= 1;] on
    [uint32_t].  [None]: the loop is still running when the fuel is
    spent. *)
Fixpoint round_up_loop (fuel : nat) (powerOf2Size bufferSizeFrames : Z)
  : option Z :=
  if powerOf2Size <? bufferSizeFrames then
    match fuel with
    | O => None
    | S fuel' =>
        round_up_loop fuel' (u32 (Z.shiftl powerOf2Size 1)) bufferSizeFrames
    end
  else Some powerOf2Size.

(** ** AudioRingBuffer.h / AudioRingBuffer.c *)

Record AudioRingBuffer {sample : Type} : Type := mkAudioRingBuffer {
  buffer : list sample;     (* float* buffer *)
  bufferSize : Z;           (* uint32_t, frames *)
  channelCount : Z;         (* uint32_t *)
  writeIndex : Z;           (* atomic_uint_fast64_t, frames *)
  readIndex : Z             (* atomic_uint_fast64_t, frames *)
}.
Arguments AudioRingBuffer : clear implicits.
Arguments mkAudioRingBuffer {sample} _ _ _ _ _.

(** The field [buffer], under a name that the parameter [buffer] of the
    functions does not hide. *)
Abbreviation buffer_ := buffer.

Section C_interface.
Context {sample : Type}.
Variable silence : sample.

Abbreviation ring := (AudioRingBuffer sample).

(** [None]: the rounding loop did not end within [fuel] iterations.
    [Some NULL]: an allocation failed. *)
Definition AudioRingBuffer_Create (alloc : Z -> bool) (fuel : nat)
  (bufferSizeFrames channelCount : Z) : option (pointer ring) :=
  if negb (alloc sizeof_AudioRingBuffer) then Some NULL
  else
    match round_up_loop fuel 1 bufferSizeFrames with
    | None => None
    | Some powerOf2Size =>
        let totalSamples := usize (powerOf2Size * channelCount) in
        match calloc silence alloc totalSamples sizeof_float with
        | NULL => Some NULL
        | Ptr mem =>
            Some (Ptr (mkAudioRingBuffer mem powerOf2Size channelCount 0 0))
        end
    end.

Definition AudioRingBuffer_Reset (buffer : pointer ring)
  : option (pointer ring) :=
  match buffer with
  | NULL => Some NULL
  | Ptr b =>
      let totalSamples := usize (bufferSize b * channelCount b) in
      mem ← memset_zero silence (buffer_ b) 0
              (usize (totalSamples * sizeof_float));
      Some (Ptr (mkAudioRingBuffer mem (bufferSize b) (channelCount b) 0 0))
  end.

Definition AudioRingBuffer_GetAvailableFrames (buffer : pointer ring) : Z :=
  match buffer with
  | NULL => 0
  | Ptr b =>
      let writeIdx := writeIndex b in
      let readIdx := readIndex b in
      u32 (u64 (writeIdx - readIdx))
  end.

Definition AudioRingBuffer_GetFreeFrames (buffer : pointer ring) : Z :=
  match buffer with
  | NULL => 0
  | Ptr b => u32 (bufferSize b - AudioRingBuffer_GetAvailableFrames buffer)
  end.

(** The result is the new value of [*buffer] and the returned count. *)
Definition AudioRingBuffer_Write (buffer : pointer ring)
  (data : pointer (list sample)) (frameCount : Z)
  : option (pointer ring * Z) :=
  match buffer, data with
  | Ptr b, Ptr src =>
      if frameCount =? 0 then Some (buffer, 0)
      else
        let freeFrames := AudioRingBuffer_GetFreeFrames buffer in
        let framesToWrite :=
          if frameCount <? freeFrames then frameCount else freeFrames in
        if framesToWrite =? 0 then Some (buffer, 0)
        else
          let writeIdx := writeIndex b in
          let bufferMask := u32 (bufferSize b - 1) in
          let channelCount := channelCount b in
          mem ← for_loop (Z.to_nat framesToWrite) 0 (fun i mem =>
              let bufferPos := u32 (Z.land (u64 (writeIdx + i)) bufferMask) in
              let bufferOffset := usize (bufferPos * channelCount) in
              let dataOffset := usize (i * channelCount) in
              for_loop (Z.to_nat channelCount) 0 (fun ch mem =>
                  v ← load src (usize (dataOffset + ch));
                  store mem (usize (bufferOffset + ch)) v) mem)
            (buffer_ b);
          Some (Ptr (mkAudioRingBuffer mem (bufferSize b) channelCount
                       (u64 (writeIdx + framesToWrite)) (readIndex b)),
                framesToWrite)
  | _, _ => Some (buffer, 0)
  end.

(** The result is the new value of [*buffer], the new contents of the
    array [data] and the returned count. *)
Definition AudioRingBuffer_Read (buffer : pointer ring)
  (data : pointer (list sample)) (frameCount : Z)
  : option (pointer ring * pointer (list sample) * Z) :=
  match buffer, data with
  | Ptr b, Ptr dst =>
      if frameCount =? 0 then Some (buffer, data, 0)
      else
        let availableFrames := AudioRingBuffer_GetAvailableFrames buffer in
        let framesToRead :=
          if frameCount <? availableFrames then frameCount
          else availableFrames in
        if framesToRead =? 0 then
          dst' ← memset_zero silence dst 0
                   (usize (usize (frameCount * channelCount b)
                           * sizeof_float));
          Some (buffer, Ptr dst', 0)
        else
          let readIdx := readIndex b in
          let bufferMask := u32 (bufferSize b - 1) in
          let channelCount := channelCount b in
          dst1 ← for_loop (Z.to_nat framesToRead) 0 (fun i dst =>
              let bufferPos := u32 (Z.land (u64 (readIdx + i)) bufferMask) in
              let bufferOffset := usize (bufferPos * channelCount) in
              let dataOffset := usize (i * channelCount) in
              for_loop (Z.to_nat channelCount) 0 (fun ch dst =>
                  v ← load (buffer_ b) (usize (bufferOffset + ch));
                  store dst (usize (dataOffset + ch)) v) dst)
            dst;
          let b' := mkAudioRingBuffer (buffer_ b) (bufferSize b)
                      channelCount (writeIndex b)
                      (u64 (readIdx + framesToRead)) in
          dst2 ← (if framesToRead <? frameCount then
                    let remainingOffset :=
                      usize (framesToRead * channelCount) in
                    let remainingSamples :=
                      usize (u32 (frameCount - framesToRead)
                             * channelCount) in
                    memset_zero silence dst1 remainingOffset
                      (usize (remainingSamples * sizeof_float))
                  else Some dst1);
          Some (Ptr b', Ptr dst2, framesToRead)
  | _, _ => Some (buffer, data, 0)
  end.

(** The result is the value of [*buffer] after the call, the new
    contents of the array [data] and the returned count. *)
Definition AudioRingBuffer_Peek (buffer : pointer ring)
  (data : pointer (list sample)) (frameCount : Z)
  : option (pointer ring * pointer (list sample) * Z) :=
  match buffer, data with
  | Ptr b, Ptr dst =>
      if frameCount =? 0 then Some (buffer, data, 0)
      else
        let availableFrames := AudioRingBuffer_GetAvailableFrames buffer in
        let framesToPeek :=
          if frameCount <? availableFrames then frameCount
          else availableFrames in
        if framesToPeek =? 0 then Some (buffer, data, 0)
        else
          let readIdx := readIndex b in
          let bufferMask := u32 (bufferSize b - 1) in
          let channelCount := channelCount b in
          dst1 ← for_loop (Z.to_nat framesToPeek) 0 (fun i dst =>
              let bufferPos := u32 (Z.land (u64 (readIdx + i)) bufferMask) in
              let bufferOffset := usize (bufferPos * channelCount) in
              let dataOffset := usize (i * channelCount) in
              for_loop (Z.to_nat channelCount) 0 (fun ch dst =>
                  v ← load (buffer_ b) (usize (bufferOffset + ch));
                  store dst (usize (dataOffset + ch)) v) dst)
            dst;
          Some (buffer, Ptr dst1, framesToPeek)
  | _, _ => Some (buffer, data, 0)
  end.

(** The result is the new value of [*buffer]. *)
Definition AudioRingBuffer_Skip (buffer : pointer ring) (frameCount : Z)
  : pointer ring :=
  match buffer with
  | NULL => NULL
  | Ptr b =>
      if frameCount =? 0 then buffer
      else
        let availableFrames := AudioRingBuffer_GetAvailableFrames buffer in
        let framesToSkip :=
          if frameCount <? availableFrames then frameCount
          else availableFrames in
        if 0 <? framesToSkip then
          let readIdx := readIndex b in
          Ptr (mkAudioRingBuffer (buffer_ b) (bufferSize b)
                 (channelCount b) (writeIndex b)
                 (u64 (readIdx + framesToSkip)))
        else buffer
  end.
End C_interface.

(** ** AudioRingBuffer.hpp *)

Module Cpp.

Record AudioRingBuffer {sample : Type} : Type := mkAudioRingBuffer {
  mBuffer : list sample;    (* std::unique_ptr<float[]> *)
  mBufferSize : Z;          (* uint32_t *)
  mBufferMask : Z;          (* uint32_t *)
  mChannelCount : Z;        (* uint32_t *)
  mWriteIndex : Z;          (* std::atomic<uint64_t> *)
  mReadIndex : Z            (* std::atomic<uint64_t> *)
}.
Arguments AudioRingBuffer : clear implicits.
Arguments mkAudioRingBuffer {sample} _ _ _ _ _ _.

Section Class.
Context {sample : Type}.
Variable silence : sample.

Abbreviation ring := (AudioRingBuffer sample).

(** The constructor.  [None]: the rounding loop did not end within
    [fuel] iterations (or the [memset] left the array, which it cannot
    after the allocation it follows).  [Some NULL]:
    [std::make_unique] threw, no object exists. *)
Definition new (alloc : Z -> bool) (fuel : nat)
  (bufferSizeFrames channelCount : Z) : option (pointer ring) :=
  match round_up_loop fuel 1 bufferSizeFrames with
  | None => None
  | Some size =>
      match calloc silence alloc (usize (size * channelCount))
              sizeof_float with
      | NULL => Some NULL
      | Ptr mem =>
          match memset_zero silence mem 0
                  (usize (usize (size * channelCount) * sizeof_float))
          with
          | None => None
          | Some mem' =>
              Some (Ptr (mkAudioRingBuffer mem' size (u32 (size - 1))
                           channelCount 0 0))
          end
      end
  end.

Definition reset (this : ring) : option ring :=
  mem ← memset_zero silence (mBuffer this) 0
          (usize (usize (mBufferSize this * mChannelCount this)
                  * sizeof_float));
  Some (mkAudioRingBuffer mem (mBufferSize this) (mBufferMask this)
          (mChannelCount this) 0 0).

Definition availableFrames (this : ring) : Z :=
  let write := mWriteIndex this in
  let read := mReadIndex this in
  u32 (u64 (write - read)).

Definition freeFrames (this : ring) : Z :=
  u32 (mBufferSize this - availableFrames this).

Definition write (this : ring) (data : list sample) (frameCount : Z)
  : option (ring * Z) :=
  let free := freeFrames this in
  let toWrite := if frameCount <? free then frameCount else free in
  if toWrite =? 0 then Some (this, 0)
  else
    let writeIdx := mWriteIndex this in
    mem ← for_loop (Z.to_nat toWrite) 0 (fun i mem =>
        let bufferPos :=
          u32 (Z.land (u64 (writeIdx + i)) (mBufferMask this)) in
        let bufferOffset := usize (bufferPos * mChannelCount this) in
        let dataOffset := usize (i * mChannelCount this) in
        for_loop (Z.to_nat (mChannelCount this)) 0 (fun ch mem =>
            v ← load data (usize (dataOffset + ch));
            store mem (usize (bufferOffset + ch)) v) mem)
      (mBuffer this);
    Some (mkAudioRingBuffer mem (mBufferSize this) (mBufferMask this)
            (mChannelCount this) (u64 (writeIdx + toWrite))
            (mReadIndex this),
          toWrite).

Definition read (this : ring) (data : list sample) (frameCount : Z)
  : option (ring * list sample * Z) :=
  let available := availableFrames this in
  let toRead := if frameCount <? available then frameCount else available in
  if toRead =? 0 then
    data' ← memset_zero silence data 0
              (usize (usize (frameCount * mChannelCount this)
                      * sizeof_float));
    Some (this, data', 0)
  else
    let readIdx := mReadIndex this in
    data1 ← for_loop (Z.to_nat toRead) 0 (fun i dst =>
        let bufferPos :=
          u32 (Z.land (u64 (readIdx + i)) (mBufferMask this)) in
        let bufferOffset := usize (bufferPos * mChannelCount this) in
        let dataOffset := usize (i * mChannelCount this) in
        for_loop (Z.to_nat (mChannelCount this)) 0 (fun ch dst =>
            v ← load (mBuffer this) (usize (bufferOffset + ch));
            store dst (usize (dataOffset + ch)) v) dst)
      data;
    let this' := mkAudioRingBuffer (mBuffer this) (mBufferSize this)
                   (mBufferMask this) (mChannelCount this)
                   (mWriteIndex this) (u64 (readIdx + toRead)) in
    data2 ← (if toRead <? frameCount then
               let offset := usize (toRead * mChannelCount this) in
               let remaining :=
                 usize (u32 (frameCount - toRead)
                        * mChannelCount this) in
               memset_zero silence data1 offset
                 (usize (remaining * sizeof_float))
             else Some data1);
    Some (this', data2, toRead).
End Class.

End Cpp.

(** ** The class RingBuffer of AudiDeckDriver.cpp *)

Module Driver.

Record RingBuffer {sample : Type} : Type := mkRingBuffer {
  mBuffer : list sample;    (* float* *)
  mFrames : Z;              (* uint32_t *)
  mChannels : Z;            (* uint32_t *)
  mWritePos : Z;            (* std::atomic<uint64_t> *)
  mReadPos : Z              (* std::atomic<uint64_t> *)
}.
Arguments RingBuffer : clear implicits.
Arguments mkRingBuffer {sample} _ _ _ _ _.

Definition kDevice_ChannelCount : Z := 2.
Definition kDevice_RingBufferSize : Z := 48000 * 2.

Section Class.
Context {sample : Type}.
Variable silence : sample.

(** The constructor: [mBuffer = new float[frames * channels]()], the
    product taken in [uint32_t].  [NULL]: [new] threw, no object
    exists.  The capacity is the request itself; the methods of this
    class address the store with [% mFrames]. *)
Definition new (alloc : Z -> bool) (frames channels : Z)
  : pointer (RingBuffer sample) :=
  match calloc silence alloc (u32 (frames * channels)) sizeof_float with
  | NULL => NULL
  | Ptr mem => Ptr (mkRingBuffer mem frames channels 0 0)
  end.

(** [x % m] on unsigned integers; a zero divisor is undefined
    behaviour, the failure [None]. *)
Definition umod (x m : Z) : option Z :=
  if m =? 0 then None else Some (x mod m).

(** [std::min(a, b)]: [b] if [b < a], else [a]. *)
Definition std_min (a b : Z) : Z := if b <? a then b else a.

Definition reset (this : RingBuffer sample)
  : option (RingBuffer sample) :=
  mem ← memset_zero silence (mBuffer this) 0
          (usize (u32 (mFrames this * mChannels this) * sizeof_float));
  Some (mkRingBuffer mem (mFrames this) (mChannels this) 0 0).

(** The result is the object after the call and the returned count. *)
Definition write (this : RingBuffer sample) (data : list sample)
  (frames : Z) : option (RingBuffer sample * Z) :=
  let wp := mWritePos this in
  let rp := mReadPos this in
  let available := u32 (mFrames this - u32 (u64 (wp - rp))) in
  let toWrite := std_min frames available in
  mem ← for_loop (Z.to_nat toWrite) 0 (fun i mem =>
      idx ← umod (u64 (wp + i)) (mFrames this);
      let idx := u32 idx in
      for_loop (Z.to_nat (mChannels this)) 0 (fun c mem =>
          v ← load data (u32 (u32 (i * mChannels this) + c));
          store mem (u32 (u32 (idx * mChannels this) + c)) v) mem)
    (mBuffer this);
  Some (mkRingBuffer mem (mFrames this) (mChannels this)
          (u64 (wp + toWrite)) rp,
        toWrite).

(** The result is the object after the call, the new contents of the
    array [data] and the returned count. *)
Definition read (this : RingBuffer sample) (data : list sample)
  (frames : Z) : option (RingBuffer sample * list sample * Z) :=
  let wp := mWritePos this in
  let rp := mReadPos this in
  let available := u32 (u64 (wp - rp)) in
  let toRead := std_min frames available in
  data1 ← for_loop (Z.to_nat toRead) 0 (fun i dst =>
      idx ← umod (u64 (rp + i)) (mFrames this);
      let idx := u32 idx in
      for_loop (Z.to_nat (mChannels this)) 0 (fun c dst =>
          v ← load (mBuffer this) (u32 (u32 (idx * mChannels this) + c));
          store dst (u32 (u32 (i * mChannels this) + c)) v) dst)
    data;
  (* Fill rest with silence *)
  data2 ← for_loop (Z.to_nat (frames - toRead)) toRead (fun i dst =>
      for_loop (Z.to_nat (mChannels this)) 0 (fun c dst =>
          store dst (u32 (u32 (i * mChannels this) + c)) silence) dst)
    data1;
  Some (mkRingBuffer (mBuffer this) (mFrames this) (mChannels this)
          wp (u64 (rp + toRead)),
        data2, toRead).
End Class.

End Driver.

(** ** Buffer states and the queue they hold *)

(** [n] is a power of two (in particular [1 <= n]). *)
Definition is_pow2 (n : Z) : Prop := n = 2 ^ Z.log2 n.

(** [c] is the smallest power of two greater than or equal to [req]. *)
Definition smallest_pow2_ge (req c : Z) : Prop :=
  is_pow2 c /\ req <= c /\ forall p, is_pow2 p -> req <= p -> c <= p.

Section States.
Context {sample : Type}.
Variable silence : sample.

Abbreviation ring := (AudioRingBuffer sample).

(** The states of a live buffer: what [AudioRingBuffer_Create] sets up
    and every operation keeps.  The distance between the cursors is
    taken in 64-bit arithmetic, as the code takes it. *)
Record wf (b : ring) : Prop := mk_wf {
  wf_size : is_pow2 (bufferSize b) /\ bufferSize b <= 2 ^ 31;
  wf_channels : 0 <= channelCount b < 2 ^ 32;
  wf_length : Z.of_nat (length (buffer b)) = bufferSize b * channelCount b;
  wf_bytes : bufferSize b * channelCount b * sizeof_float < 2 ^ 64;
  wf_write : 0 <= writeIndex b < 2 ^ 64;
  wf_read : 0 <= readIndex b < 2 ^ 64;
  wf_avail : u64 (writeIndex b - readIndex b) <= bufferSize b
}.

(** The cursor invariant of the data model, on the values of the two
    cursors. *)
Definition cursor_inv (b : ring) : Prop :=
  readIndex b <= writeIndex b /\ writeIndex b - readIndex b <= bufferSize b.

(** An array argument with room for [frames] frames of [N] samples; an
    array of [float] does not exceed the address space. *)
Definition valid_array (a : list sample) (frames N : Z) : Prop :=
  frames * N <= Z.of_nat (length a)
  /\ Z.of_nat (length a) * sizeof_float < 2 ^ 64.

(** Frame [i] of an interleaved array of [N]-channel frames: the samples
    at the indices [i*N], ..., [i*N + N-1]. *)
Definition frame_of (N : Z) (a : list sample) (i : Z) : list sample :=
  take (Z.to_nat N) (drop (Z.to_nat (i * N)) a).

(** The first [n] frames of an interleaved array. *)
Definition frames_of (N : Z) (a : list sample) (n : Z)
  : list (list sample) :=
  frame_of N a <$> seqZ 0 n.

(** The [j]-th frame after the read cursor. *)
Definition frame_at (b : ring) (j : Z) : list sample :=
  frame_of (channelCount b) (buffer b)
    ((readIndex b + j) mod bufferSize b).

(** The frames written and not yet read, oldest first. *)
Definition queued (b : ring) : list (list sample) :=
  frame_at b <$> seqZ 0 (AudioRingBuffer_GetAvailableFrames (Ptr b)).

(** *** The queue of the design, in the words of the specification

    A bounded queue of frames.  [write] appends the first
    [min(frameCount, free)] frames of the caller's data and drops the
    rest; [read] removes the [min(frameCount, available)] oldest frames,
    hands them out in order and fills the rest of the request with
    silence. *)
Definition fifo_write (capacity N : Z) (q : list (list sample))
  (data : list sample) (frameCount : Z) : list (list sample) * Z :=
  let toWrite := Z.min frameCount (capacity - Z.of_nat (length q)) in
  (q ++ frames_of N data toWrite, toWrite).

Definition fifo_read (N : Z) (q : list (list sample))
  (data : list sample) (frameCount : Z)
  : list (list sample) * list sample * Z :=
  let toRead := Z.min frameCount (Z.of_nat (length q)) in
  (drop (Z.to_nat toRead) q,
   concat (take (Z.to_nat toRead) q)
     ++ replicate (Z.to_nat ((frameCount - toRead) * N)) silence
     ++ drop (Z.to_nat (frameCount * N)) data,
   toRead).

(** *** Sequences of calls *)

(** A call of the writer or of the reader, with its array argument as it
    is before the call. *)
Inductive call : Type :=
| CallWrite (data : list sample) (frameCount : Z)
| CallRead (data : list sample) (frameCount : Z).

(** What the caller sees of a call: the count returned and, for a read,
    the array after the call. *)
Inductive seen : Type :=
| SeenWrite (count : Z)
| SeenRead (data : list sample) (count : Z).

Definition call_ok (N : Z) (c : call) : Prop :=
  match c with
  | CallWrite data frameCount | CallRead data frameCount =>
      0 <= frameCount < 2 ^ 32 /\ valid_array data frameCount N
  end.

(** The calls run on the code, one after the other, on one thread. *)
Fixpoint run (buffer : pointer ring) (cs : list call)
  : option (pointer ring * list seen) :=
  match cs with
  | [] => Some (buffer, [])
  | CallWrite data frameCount :: cs' =>
      '(buffer', n) ← AudioRingBuffer_Write buffer (Ptr data) frameCount;
      '(buffer'', obs) ← run buffer' cs';
      Some (buffer'', SeenWrite n :: obs)
  | CallRead data frameCount :: cs' =>
      r ← AudioRingBuffer_Read silence buffer (Ptr data) frameCount;
      match r with
      | (buffer', Ptr data', n) =>
          '(buffer'', obs) ← run buffer' cs';
          Some (buffer'', SeenRead data' n :: obs)
      | (_, NULL, _) => None
      end
  end.

(** The same calls on the queue of the design. *)
Fixpoint fifo_run (capacity N : Z) (q : list (list sample))
  (cs : list call) : list (list sample) * list seen :=
  match cs with
  | [] => (q, [])
  | CallWrite data frameCount :: cs' =>
      let '(q', n) := fifo_write capacity N q data frameCount in
      let '(q'', obs) := fifo_run capacity N q' cs' in
      (q'', SeenWrite n :: obs)
  | CallRead data frameCount :: cs' =>
      let '(q', data', n) := fifo_read N q data frameCount in
      let '(q'', obs) := fifo_run capacity N q' cs' in
      (q'', SeenRead data' n :: obs)
  end.

(** *** Reachable states

    [reachable N W b]: [b] is the state of a buffer made by
    [AudioRingBuffer_Create] for [N] channels, after some sequence of
    reset, write, read, peek and skip; [W] frames in all were accepted
    by its writes. *)
Inductive reachable (N : Z) : Z -> ring -> Prop :=
| reach_create alloc fuel bufferSizeFrames b :
    0 <= bufferSizeFrames < 2 ^ 32 ->
    0 <= N < 2 ^ 32 ->
    AudioRingBuffer_Create silence alloc fuel bufferSizeFrames N
      = Some (Ptr b) ->
    reachable N 0 b
| reach_reset W b b' :
    reachable N W b ->
    AudioRingBuffer_Reset silence (Ptr b) = Some (Ptr b') ->
    reachable N W b'
| reach_write W b data frameCount b' n :
    reachable N W b ->
    0 <= frameCount < 2 ^ 32 ->
    AudioRingBuffer_Write (Ptr b) data frameCount = Some (Ptr b', n) ->
    reachable N (W + n) b'
| reach_read W b data frameCount b' data' n :
    reachable N W b ->
    0 <= frameCount < 2 ^ 32 ->
    AudioRingBuffer_Read silence (Ptr b) data frameCount
      = Some (Ptr b', data', n) ->
    reachable N W b'
| reach_peek W b data frameCount b' data' n :
    reachable N W b ->
    0 <= frameCount < 2 ^ 32 ->
    AudioRingBuffer_Peek (Ptr b) data frameCount
      = Some (Ptr b', data', n) ->
    reachable N W b'
| reach_skip W b frameCount b' :
    reachable N W b ->
    0 <= frameCount < 2 ^ 32 ->
    AudioRingBuffer_Skip (Ptr b) frameCount = Ptr b' ->
    reachable N W b'.
End States.

(** ** The C++ class seen through the C interface *)

Module CppView.
Section View.
Context {sample : Type}.

(** The C struct with the fields of the object. *)
Definition to_c (this : Cpp.AudioRingBuffer sample)
  : AudioRingBuffer sample :=
  mkAudioRingBuffer (Cpp.mBuffer this) (Cpp.mBufferSize this)
    (Cpp.mChannelCount this) (Cpp.mWriteIndex this)
    (Cpp.mReadIndex this).

(** The states of a live object: those of the C struct, and the mask
    the constructor computed. *)
Definition wf (this : Cpp.AudioRingBuffer sample) : Prop :=
  wf (to_c this)
  /\ Cpp.mBufferMask this = u32 (Cpp.mBufferSize this - 1).

(** The object with the fields of a C struct and a given mask. *)
Definition of_c (mask : Z) (b : AudioRingBuffer sample)
  : Cpp.AudioRingBuffer sample :=
  Cpp.mkAudioRingBuffer (buffer b) (bufferSize b) mask (channelCount b)
    (writeIndex b) (readIndex b).

(** The object with the fields of a C struct and the mask of the
    constructor, [size - 1]. *)
Definition object (b : AudioRingBuffer sample)
  : Cpp.AudioRingBuffer sample :=
  of_c (u32 (bufferSize b - 1)) b.
End View.
End CppView.

(** ** The scenario of the specification

    Samples are integers here, silence is 0; frame [i] is [[i; -i]].  The
    arrays handed to the reads are filled with 7 beforehand. *)

(** An allocator that grants every request. *)
Definition grant_all (bytes : Z) : bool := true.

Module Scenario.

Definition frame (i : Z) : list Z := [i; - i].

(** The frames [first], ..., [first + n - 1], interleaved. *)
Definition frames (first n : Z) : list Z := concat (frame <$> seqZ first n).

Definition capacity_of (p : pointer (AudioRingBuffer Z)) : Z :=
  match p with
  | NULL => 0
  | Ptr b => bufferSize b
  end.

Definition array_of (p : pointer (list Z)) : list Z :=
  match p with
  | NULL => []
  | Ptr a => a
  end.

Record observed : Type := mkObserved {
  capacity : Z;             (* realized capacity *)
  written_1 : Z;            (* write of 128 frames: count *)
  read_1 : Z;               (* read of 64 frames: count *)
  data_1 : list Z;          (* read of 64 frames: array *)
  available_1 : Z;          (* availableFrames() after it *)
  free_1 : Z;               (* freeFrames() after it *)
  written_2 : Z;            (* write of 80 frames: count *)
  read_2 : Z;               (* read of 100 frames: count *)
  data_2 : list Z;          (* read of 100 frames: array *)
  available_2 : Z           (* availableFrames() after it *)
}.

Definition scenario : option observed :=
  b0 ← AudioRingBuffer_Create 0 grant_all 31 100 2;
  '(b1, w1) ← AudioRingBuffer_Write b0 (Ptr (frames 0 128)) 128;
  '(b2, d2, r2) ← AudioRingBuffer_Read 0 b1 (Ptr (replicate 128 7)) 64;
  '(b3, w3) ← AudioRingBuffer_Write b2 (Ptr (frames 128 80)) 80;
  '(b4, d4, r4) ← AudioRingBuffer_Read 0 b3 (Ptr (replicate 200 7)) 100;
  Some (mkObserved (capacity_of b0) w1 r2 (array_of d2)
          (AudioRingBuffer_GetAvailableFrames b2)
          (AudioRingBuffer_GetFreeFrames b2)
          w3 r4 (array_of d4)
          (AudioRingBuffer_GetAvailableFrames b4)).

End Scenario.

(** ** A small buffer

    Four frames of two channels, integer samples; the frames [[1; -1]] and
    [[2; -2]] are queued. *)

Module Instance.

Definition b0 : AudioRingBuffer Z :=
  mkAudioRingBuffer [1; -1; 2; -2; 0; 0; 0; 0] 4 2 2 0.

(** An array of three frames to read into. *)
Definition out0 : list Z := [7; 7; 7; 7; 7; 7].

(** Three frames to write. *)
Definition data0 : list Z := [3; -3; 4; -4; 5; -5].

End Instance.

(** ** The driver's buffer as a queue *)

Module DriverView.
Section View.
Context {sample : Type}.
Variable silence : sample.

(** The states of a live object of the class [RingBuffer]: any
    capacity of at least one frame whose sample count fits 32 bits,
    and cursors that have not wrapped. *)
Record wf (this : Driver.RingBuffer sample) : Prop := mk_wf {
  wf_frames : 1 <= Driver.mFrames this < 2 ^ 32;
  wf_channels : 0 <= Driver.mChannels this;
  wf_samples : Driver.mFrames this * Driver.mChannels this < 2 ^ 32;
  wf_length :
    Z.of_nat (length (Driver.mBuffer this))
    = Driver.mFrames this * Driver.mChannels this;
  wf_read : 0 <= Driver.mReadPos this <= Driver.mWritePos this;
  wf_write : Driver.mWritePos this < 2 ^ 64;
  wf_avail :
    Driver.mWritePos this - Driver.mReadPos this <= Driver.mFrames this
}.

(** The frames written and not yet read. *)
Definition available (this : Driver.RingBuffer sample) : Z :=
  Driver.mWritePos this - Driver.mReadPos this.

(** The [j]-th frame after the read cursor. *)
Definition frame_at (this : Driver.RingBuffer sample) (j : Z)
  : list sample :=
  frame_of (Driver.mChannels this) (Driver.mBuffer this)
    ((Driver.mReadPos this + j) mod Driver.mFrames this).

(** The frames written and not yet read, oldest first. *)
Definition queued (this : Driver.RingBuffer sample)
  : list (list sample) :=
  frame_at this <$> seqZ 0 (available this).

(** An array argument of a method: an array with room for [frames]
    frames, of a sample count that fits the 32-bit index of the
    method. *)
Definition valid_array (a : list sample) (frames N : Z) : Prop :=
  valid_array a frames N /\ frames * N < 2 ^ 32.

Definition call_ok (N : Z) (c : call) : Prop :=
  match c with
  | CallWrite data frames | CallRead data frames =>
      0 <= frames < 2 ^ 32 /\ valid_array data frames N
  end.


(** The calls run on the methods of the class, one after the other. *)
Fixpoint run (this : Driver.RingBuffer sample) (cs : list call)
  : option (Driver.RingBuffer sample * list seen) :=
  match cs with
  | [] => Some (this, [])
  | CallWrite data frames :: cs' =>
      '(this', n) ← Driver.write this data frames;
      '(this'', obs) ← run this' cs';
      Some (this'', SeenWrite n :: obs)
  | CallRead data frames :: cs' =>
      '(this', data', n) ← Driver.read silence this data frames;
      '(this'', obs) ← run this' cs';
      Some (this'', SeenRead data' n :: obs)
  end.
End View.
End DriverView.

(** ** AudiDeckDriver.cpp: the plug-in

    The constants of the CoreAudio headers (property selectors, class
    identifiers, scopes, format flags, operation identifiers) are not part
    of the sources: they are the fields of the class [CoreAudio], and the
    functions below are defined for every value of them.  The arithmetic
    on [Float32] and [Float64] values is not interpreted either: the
    operations that the code applies are the fields of the class
    [Floats]. *)

Class CoreAudio : Type := {
  (* AudioObject *)
  kAudioObjectPropertyBaseClass : Z;
  kAudioObjectPropertyClass : Z;
  kAudioObjectPropertyOwner : Z;
  kAudioObjectPropertyName : Z;
  kAudioObjectPropertyManufacturer : Z;
  kAudioObjectPropertyOwnedObjects : Z;
  kAudioObjectPropertyControlList : Z;
  (* AudioPlugIn *)
  kAudioPlugInPropertyDeviceList : Z;
  kAudioPlugInPropertyTranslateUIDToDevice : Z;
  kAudioPlugInPropertyResourceBundle : Z;
  (* AudioDevice *)
  kAudioDevicePropertyDeviceUID : Z;
  kAudioDevicePropertyModelUID : Z;
  kAudioDevicePropertyTransportType : Z;
  kAudioDevicePropertyRelatedDevices : Z;
  kAudioDevicePropertyClockDomain : Z;
  kAudioDevicePropertyDeviceIsAlive : Z;
  kAudioDevicePropertyDeviceIsRunning : Z;
  kAudioDevicePropertyDeviceCanBeDefaultDevice : Z;
  kAudioDevicePropertyDeviceCanBeDefaultSystemDevice : Z;
  kAudioDevicePropertyLatency : Z;
  kAudioDevicePropertyStreams : Z;
  kAudioDevicePropertySafetyOffset : Z;
  kAudioDevicePropertyNominalSampleRate : Z;
  kAudioDevicePropertyAvailableNominalSampleRates : Z;
  kAudioDevicePropertyIsHidden : Z;
  kAudioDevicePropertyZeroTimeStampPeriod : Z;
  (* AudioStream *)
  kAudioStreamPropertyIsActive : Z;
  kAudioStreamPropertyDirection : Z;
  kAudioStreamPropertyTerminalType : Z;
  kAudioStreamPropertyStartingChannel : Z;
  kAudioStreamPropertyLatency : Z;
  kAudioStreamPropertyVirtualFormat : Z;
  kAudioStreamPropertyPhysicalFormat : Z;
  kAudioStreamPropertyAvailableVirtualFormats : Z;
  kAudioStreamPropertyAvailablePhysicalFormats : Z;
  (* AudioControl *)
  kAudioControlPropertyScope : Z;
  kAudioControlPropertyElement : Z;
  kAudioLevelControlPropertyScalarValue : Z;
  kAudioLevelControlPropertyDecibelValue : Z;
  kAudioLevelControlPropertyDecibelRange : Z;
  kAudioBooleanControlPropertyValue : Z;
  (* values *)
  kAudioObjectUnknown : Z;
  kAudioObjectClassID : Z;
  kAudioPlugInClassID : Z;
  kAudioDeviceClassID : Z;
  kAudioStreamClassID : Z;
  kAudioControlClassID : Z;
  kAudioVolumeControlClassID : Z;
  kAudioMuteControlClassID : Z;
  kAudioDeviceTransportTypeVirtual : Z;
  kAudioObjectPropertyScopeOutput : Z;
  kAudioObjectPropertyElementMain : Z;
  kAudioStreamTerminalTypeSpeaker : Z;
  kAudioStreamTerminalTypeMicrophone : Z;
  kAudioFormatLinearPCM : Z;
  kAudioFormatFlagIsFloat : Z;
  kAudioFormatFlagsNativeEndian : Z;
  kAudioFormatFlagIsPacked : Z;
  (* IO operations *)
  kAudioServerPlugInIOOperationReadInput : Z;
  kAudioServerPlugInIOOperationWriteMix : Z
}.

Class Floats (float32 float64 : Type) : Type := {
  f32_one : float32;                         (* 1.0f *)
  f32_minus_96 : float32;                    (* -96.0f *)
  f32_neq : float32 -> float32 -> bool;      (* a != b *)
  f32_gt_zero : float32 -> bool;             (* a > 0 *)
  f32_mul : float32 -> float32 -> float32;   (* a * b *)
  f32_20_log10 : float32 -> float32;         (* 20.0f * log10f(a) *)
  f64_48000 : float64;                       (* 48000.0 *)
  f64_minus_96 : float64;                    (* -96.0 *)
  f64_zero : float64                         (* 0.0 *)
}.

Module Plugin.

Definition kDevice_Name : string := "AudiDeck Virtual Output".
Definition kDevice_Manufacturer : string := "AudiDeck".
Definition kDevice_UID : string := "AudiDeck_VirtualDevice".
Definition kDevice_ModelUID : string := "AudiDeck_Model".
Definition kDevice_BufferSize : Z := 512.

(* Object IDs *)
Definition kObjectID_PlugIn : Z := 1.
Definition kObjectID_Device : Z := 2.
Definition kObjectID_Stream_Output : Z := 3.
Definition kObjectID_Stream_Input : Z := 4.
Definition kObjectID_Volume_Master : Z := 5.
Definition kObjectID_Mute_Master : Z := 6.

(** The four status codes that the plug-in returns. *)
Inductive OSStatus : Type :=
| kAudioHardwareNoError
| kAudioHardwareUnknownPropertyError
| kAudioHardwareBadObjectError
| kAudioHardwareUnsupportedOperationError.

(** The sizes of the CoreAudio types (LP64). *)
Definition sizeof_AudioClassID : Z := 4.
Definition sizeof_AudioObjectID : Z := 4.
Definition sizeof_UInt32 : Z := 4.
Definition sizeof_Float32 : Z := 4.
Definition sizeof_Float64 : Z := 8.
Definition sizeof_CFStringRef : Z := 8.
Definition sizeof_AudioValueRange : Z := 16.
Definition sizeof_AudioStreamBasicDescription : Z := 40.
Definition sizeof_AudioStreamRangedDescription : Z := 56.

Record AudioObjectPropertyAddress : Type := mkAddress {
  mSelector : Z;
  mScope : Z;
  mElement : Z
}.

(** [switch (x) { case l1: case l2: ... a; ... default: d }]: the value
    of the first group of labels that holds [x]. *)
Fixpoint switch {A : Type} (x : Z) (cases : list (list Z * A))
  (default : A) : A :=
  match cases with
  | [] => default
  | (labels, a) :: rest =>
      if existsb (Z.eqb x) labels then a else switch x rest default
  end.

(** [*p] on a smart pointer: a null pointer is the failure [None]. *)
Definition deref {A : Type} (p : pointer A) : option A :=
  match p with
  | NULL => None
  | Ptr a => Some a
  end.

Section State.
Context {sample float64 : Type}.

Record PlugInState : Type := mkPlugInState {
  host : Z;                 (* AudioServerPlugInHostRef *)
  sampleRate : float64;     (* Float64 *)
  isRunning : bool;         (* std::atomic<bool> *)
  clientCount : Z;          (* std::atomic<UInt32> *)
  anchorHostTime : Z;       (* UInt64 *)
  timestampCounter : Z;     (* std::atomic<UInt64> *)
  volume : sample;          (* std::atomic<Float32> *)
  muted : bool;             (* std::atomic<bool> *)
  ringBuffer : pointer (Driver.RingBuffer sample)
                            (* std::unique_ptr<RingBuffer> *)
}.

(** The fields of [AudioStreamBasicDescription] that the plug-in
    writes. *)
Record AudioStreamBasicDescription : Type := mkDescription {
  mSampleRate : float64;
  mFormatID : Z;
  mFormatFlags : Z;
  mBytesPerPacket : Z;
  mFramesPerPacket : Z;
  mBytesPerFrame : Z;
  mChannelsPerFrame : Z;
  mBitsPerChannel : Z
}.

(** What a property query writes to [outData], by the type it is
    written at. *)
Inductive PropertyData : Type :=
| UInt32 (v : Z)                   (* also AudioClassID, AudioObjectID *)
| UInt32s (vs : list Z)            (* AudioObjectID[] *)
| CFString (s : string)            (* CFSTR(s) *)
| Float32 (v : sample)
| Float64 (v : float64)
| AudioValueRange (mMinimum mMaximum : float64)
| BasicDescription (desc : AudioStreamBasicDescription)
| RangedDescription (mFormat : AudioStreamBasicDescription)
    (mMinimum mMaximum : float64). (* mSampleRateRange *)
End State.
Arguments PlugInState : clear implicits.
Arguments AudioStreamBasicDescription : clear implicits.
Arguments PropertyData : clear implicits.

Section Functions.
Context {sample float64 : Type}.
Variable silence : sample.
Context {HA : CoreAudio} {HF : Floats sample float64}.

Abbreviation state := (PlugInState sample float64).
Abbreviation data := (PropertyData sample float64).

(** *** Property queries *)

Definition Plugin_HasProperty (objectID : Z)
  (address : AudioObjectPropertyAddress) : bool :=
  switch objectID
    [ ([kObjectID_PlugIn],
       switch (mSelector address)
         [ ([ kAudioObjectPropertyBaseClass;
              kAudioObjectPropertyClass;
              kAudioObjectPropertyOwner;
              kAudioObjectPropertyManufacturer;
              kAudioObjectPropertyOwnedObjects;
              kAudioPlugInPropertyDeviceList;
              kAudioPlugInPropertyTranslateUIDToDevice;
              kAudioPlugInPropertyResourceBundle ], true) ] false);
      ([kObjectID_Device],
       switch (mSelector address)
         [ ([ kAudioObjectPropertyBaseClass;
              kAudioObjectPropertyClass;
              kAudioObjectPropertyOwner;
              kAudioObjectPropertyName;
              kAudioObjectPropertyManufacturer;
              kAudioObjectPropertyOwnedObjects;
              kAudioDevicePropertyDeviceUID;
              kAudioDevicePropertyModelUID;
              kAudioDevicePropertyTransportType;
              kAudioDevicePropertyRelatedDevices;
              kAudioDevicePropertyClockDomain;
              kAudioDevicePropertyDeviceIsAlive;
              kAudioDevicePropertyDeviceIsRunning;
              kAudioDevicePropertyDeviceCanBeDefaultDevice;
              kAudioDevicePropertyDeviceCanBeDefaultSystemDevice;
              kAudioDevicePropertyLatency;
              kAudioDevicePropertyStreams;
              kAudioObjectPropertyControlList;
              kAudioDevicePropertySafetyOffset;
              kAudioDevicePropertyNominalSampleRate;
              kAudioDevicePropertyAvailableNominalSampleRates;
              kAudioDevicePropertyIsHidden;
              kAudioDevicePropertyZeroTimeStampPeriod ], true) ] false);
      ([kObjectID_Stream_Output; kObjectID_Stream_Input],
       switch (mSelector address)
         [ ([ kAudioObjectPropertyBaseClass;
              kAudioObjectPropertyClass;
              kAudioObjectPropertyOwner;
              kAudioStreamPropertyIsActive;
              kAudioStreamPropertyDirection;
              kAudioStreamPropertyTerminalType;
              kAudioStreamPropertyStartingChannel;
              kAudioStreamPropertyLatency;
              kAudioStreamPropertyVirtualFormat;
              kAudioStreamPropertyPhysicalFormat;
              kAudioStreamPropertyAvailableVirtualFormats;
              kAudioStreamPropertyAvailablePhysicalFormats ], true) ]
         false);
      ([kObjectID_Volume_Master],
       switch (mSelector address)
         [ ([ kAudioObjectPropertyBaseClass;
              kAudioObjectPropertyClass;
              kAudioObjectPropertyOwner;
              kAudioControlPropertyScope;
              kAudioControlPropertyElement;
              kAudioLevelControlPropertyScalarValue;
              kAudioLevelControlPropertyDecibelValue;
              kAudioLevelControlPropertyDecibelRange ], true) ] false);
      ([kObjectID_Mute_Master],
       switch (mSelector address)
         [ ([ kAudioObjectPropertyBaseClass;
              kAudioObjectPropertyClass;
              kAudioObjectPropertyOwner;
              kAudioControlPropertyScope;
              kAudioControlPropertyElement;
              kAudioBooleanControlPropertyValue ], true) ] false) ]
    false.

(** The result is [*outSettable] and the status. *)
Definition Plugin_IsPropertySettable (objectID : Z)
  (address : AudioObjectPropertyAddress) : bool * OSStatus :=
  (switch objectID
     [ ([kObjectID_Device],
        if mSelector address =? kAudioDevicePropertyNominalSampleRate
        then true else false);
       ([kObjectID_Volume_Master],
        if (mSelector address =? kAudioLevelControlPropertyScalarValue)
           || (mSelector address
               =? kAudioLevelControlPropertyDecibelValue)
        then true else false);
       ([kObjectID_Mute_Master],
        if mSelector address =? kAudioBooleanControlPropertyValue
        then true else false) ]
     false,
   kAudioHardwareNoError).

(** The result is [*outSize] and the status. *)
Definition Plugin_GetPropertyDataSize (objectID : Z)
  (address : AudioObjectPropertyAddress) : Z * OSStatus :=
  let outSize :=
    switch objectID
      [ ([kObjectID_PlugIn],
         switch (mSelector address)
           [ ([ kAudioObjectPropertyBaseClass;
                kAudioObjectPropertyClass;
                kAudioObjectPropertyOwner ], sizeof_AudioClassID);
             ([ kAudioObjectPropertyManufacturer;
                kAudioPlugInPropertyResourceBundle ],
              sizeof_CFStringRef);
             ([ kAudioObjectPropertyOwnedObjects;
                kAudioPlugInPropertyDeviceList;
                kAudioPlugInPropertyTranslateUIDToDevice ],
              sizeof_AudioObjectID) ] 0);
        ([kObjectID_Device],
         switch (mSelector address)
           [ ([ kAudioObjectPropertyBaseClass;
                kAudioObjectPropertyClass;
                kAudioObjectPropertyOwner ], sizeof_AudioClassID);
             ([ kAudioObjectPropertyName;
                kAudioObjectPropertyManufacturer;
                kAudioDevicePropertyDeviceUID;
                kAudioDevicePropertyModelUID ], sizeof_CFStringRef);
             ([ kAudioDevicePropertyTransportType;
                kAudioDevicePropertyClockDomain;
                kAudioDevicePropertyLatency;
                kAudioDevicePropertySafetyOffset;
                kAudioDevicePropertyZeroTimeStampPeriod;
                kAudioDevicePropertyDeviceIsAlive;
                kAudioDevicePropertyDeviceIsRunning;
                kAudioDevicePropertyDeviceCanBeDefaultDevice;
                kAudioDevicePropertyDeviceCanBeDefaultSystemDevice;
                kAudioDevicePropertyIsHidden ], sizeof_UInt32);
             ([kAudioObjectPropertyOwnedObjects],
              sizeof_AudioObjectID * 4);
             ([kAudioDevicePropertyRelatedDevices],
              sizeof_AudioObjectID);
             ([kAudioDevicePropertyStreams], sizeof_AudioObjectID);
             ([kAudioObjectPropertyControlList],
              sizeof_AudioObjectID * 2);
             ([kAudioDevicePropertyNominalSampleRate], sizeof_Float64);
             ([kAudioDevicePropertyAvailableNominalSampleRates],
              sizeof_AudioValueRange * 1) ] 0);
        ([kObjectID_Stream_Output; kObjectID_Stream_Input],
         switch (mSelector address)
           [ ([ kAudioObjectPropertyBaseClass;
                kAudioObjectPropertyClass;
                kAudioObjectPropertyOwner ], sizeof_AudioClassID);
             ([ kAudioStreamPropertyIsActive;
                kAudioStreamPropertyDirection;
                kAudioStreamPropertyTerminalType;
                kAudioStreamPropertyStartingChannel;
                kAudioStreamPropertyLatency ], sizeof_UInt32);
             ([ kAudioStreamPropertyVirtualFormat;
                kAudioStreamPropertyPhysicalFormat ],
              sizeof_AudioStreamBasicDescription);
             ([ kAudioStreamPropertyAvailableVirtualFormats;
                kAudioStreamPropertyAvailablePhysicalFormats ],
              sizeof_AudioStreamRangedDescription) ] 0);
        ([kObjectID_Volume_Master],
         switch (mSelector address)
           [ ([ kAudioObjectPropertyBaseClass;
                kAudioObjectPropertyClass;
                kAudioObjectPropertyOwner ], sizeof_AudioClassID);
             ([ kAudioControlPropertyScope;
                kAudioControlPropertyElement ], sizeof_UInt32);
             ([ kAudioLevelControlPropertyScalarValue;
                kAudioLevelControlPropertyDecibelValue ],
              sizeof_Float32);
             ([kAudioLevelControlPropertyDecibelRange],
              sizeof_AudioValueRange) ] 0);
        ([kObjectID_Mute_Master],
         switch (mSelector address)
           [ ([ kAudioObjectPropertyBaseClass;
                kAudioObjectPropertyClass;
                kAudioObjectPropertyOwner ], sizeof_AudioClassID);
             ([ kAudioControlPropertyScope;
                kAudioControlPropertyElement;
                kAudioBooleanControlPropertyValue ], sizeof_UInt32) ]
           0) ]
      0 in
  (outSize,
   if 0 <? outSize then kAudioHardwareNoError
   else kAudioHardwareUnknownPropertyError).

(** The stream format of the device. *)
Definition stream_format (gState : state)
  : AudioStreamBasicDescription float64 :=
  mkDescription (sampleRate gState) kAudioFormatLinearPCM
    (Z.lor (Z.lor kAudioFormatFlagIsFloat kAudioFormatFlagsNativeEndian)
       kAudioFormatFlagIsPacked)
    (Driver.kDevice_ChannelCount * sizeof_Float32) 1
    (Driver.kDevice_ChannelCount * sizeof_Float32)
    Driver.kDevice_ChannelCount 32.

(** The result is what is written to [outData] and [*outSize], if
    anything is, and the status. *)
Definition Plugin_GetPropertyData (gState : state) (objectID : Z)
  (address : AudioObjectPropertyAddress)
  : option (data * Z) * OSStatus :=
  let found (v : data) (size : Z) :=
    (Some (v, size), kAudioHardwareNoError) in
  let unknown : option (data * Z) * OSStatus :=
    (None, kAudioHardwareUnknownPropertyError) in
  switch objectID
    [ ([kObjectID_PlugIn],
       switch (mSelector address)
         [ ([kAudioObjectPropertyBaseClass],
            found (UInt32 kAudioObjectClassID) sizeof_AudioClassID);
           ([kAudioObjectPropertyClass],
            found (UInt32 kAudioPlugInClassID) sizeof_AudioClassID);
           ([kAudioObjectPropertyOwner],
            found (UInt32 kAudioObjectUnknown) sizeof_AudioObjectID);
           ([kAudioObjectPropertyManufacturer],
            found (CFString kDevice_Manufacturer) sizeof_CFStringRef);
           ([ kAudioObjectPropertyOwnedObjects;
              kAudioPlugInPropertyDeviceList ],
            found (UInt32 kObjectID_Device) sizeof_AudioObjectID);
           ([kAudioPlugInPropertyTranslateUIDToDevice],
            found (UInt32 kObjectID_Device) sizeof_AudioObjectID);
           ([kAudioPlugInPropertyResourceBundle],
            found (CFString EmptyString) sizeof_CFStringRef) ]
         unknown);
      ([kObjectID_Device],
       switch (mSelector address)
         [ ([kAudioObjectPropertyBaseClass],
            found (UInt32 kAudioObjectClassID) sizeof_AudioClassID);
           ([kAudioObjectPropertyClass],
            found (UInt32 kAudioDeviceClassID) sizeof_AudioClassID);
           ([kAudioObjectPropertyOwner],
            found (UInt32 kObjectID_PlugIn) sizeof_AudioObjectID);
           ([kAudioObjectPropertyName],
            found (CFString kDevice_Name) sizeof_CFStringRef);
           ([kAudioObjectPropertyManufacturer],
            found (CFString kDevice_Manufacturer) sizeof_CFStringRef);
           ([kAudioDevicePropertyDeviceUID],
            found (CFString kDevice_UID) sizeof_CFStringRef);
           ([kAudioDevicePropertyModelUID],
            found (CFString kDevice_ModelUID) sizeof_CFStringRef);
           ([kAudioDevicePropertyTransportType],
            found (UInt32 kAudioDeviceTransportTypeVirtual)
              sizeof_UInt32);
           ([kAudioDevicePropertyRelatedDevices],
            found (UInt32 kObjectID_Device) sizeof_AudioObjectID);
           ([kAudioDevicePropertyClockDomain],
            found (UInt32 0) sizeof_UInt32);
           ([kAudioDevicePropertyDeviceIsAlive],
            found (UInt32 1) sizeof_UInt32);
           ([kAudioDevicePropertyDeviceIsRunning],
            found (UInt32 (if isRunning gState then 1 else 0))
              sizeof_UInt32);
           ([ kAudioDevicePropertyDeviceCanBeDefaultDevice;
              kAudioDevicePropertyDeviceCanBeDefaultSystemDevice ],
            found (UInt32 1) sizeof_UInt32);
           ([ kAudioDevicePropertyLatency;
              kAudioDevicePropertySafetyOffset ],
            found (UInt32 0) sizeof_UInt32);
           ([kAudioDevicePropertyZeroTimeStampPeriod],
            found (UInt32 kDevice_BufferSize) sizeof_UInt32);
           ([kAudioDevicePropertyIsHidden],
            found (UInt32 0) sizeof_UInt32);
           ([kAudioObjectPropertyOwnedObjects],
            found (UInt32s [ kObjectID_Stream_Output;
                             kObjectID_Stream_Input;
                             kObjectID_Volume_Master;
                             kObjectID_Mute_Master ])
              (sizeof_AudioObjectID * 4));
           ([kAudioDevicePropertyStreams],
            found (UInt32
                     (if mScope address
                         =? kAudioObjectPropertyScopeOutput
                      then kObjectID_Stream_Output
                      else kObjectID_Stream_Input))
              sizeof_AudioObjectID);
           ([kAudioObjectPropertyControlList],
            found (UInt32s [ kObjectID_Volume_Master;
                             kObjectID_Mute_Master ])
              (sizeof_AudioObjectID * 2));
           ([kAudioDevicePropertyNominalSampleRate],
            found (Float64 (sampleRate gState)) sizeof_Float64);
           ([kAudioDevicePropertyAvailableNominalSampleRates],
            found (AudioValueRange f64_48000 f64_48000)
              sizeof_AudioValueRange) ]
         unknown);
      ([kObjectID_Stream_Output; kObjectID_Stream_Input],
       let isOutput := objectID =? kObjectID_Stream_Output in
       switch (mSelector address)
         [ ([kAudioObjectPropertyBaseClass],
            found (UInt32 kAudioObjectClassID) sizeof_AudioClassID);
           ([kAudioObjectPropertyClass],
            found (UInt32 kAudioStreamClassID) sizeof_AudioClassID);
           ([kAudioObjectPropertyOwner],
            found (UInt32 kObjectID_Device) sizeof_AudioObjectID);
           ([kAudioStreamPropertyIsActive],
            found (UInt32 1) sizeof_UInt32);
           ([kAudioStreamPropertyDirection],
            found (UInt32 (if isOutput then 0 else 1)) sizeof_UInt32);
           ([kAudioStreamPropertyTerminalType],
            found (UInt32 (if isOutput
                           then kAudioStreamTerminalTypeSpeaker
                           else kAudioStreamTerminalTypeMicrophone))
              sizeof_UInt32);
           ([kAudioStreamPropertyStartingChannel],
            found (UInt32 1) sizeof_UInt32);
           ([kAudioStreamPropertyLatency],
            found (UInt32 0) sizeof_UInt32);
           ([ kAudioStreamPropertyVirtualFormat;
              kAudioStreamPropertyPhysicalFormat ],
            found (BasicDescription (stream_format gState))
              sizeof_AudioStreamBasicDescription);
           ([ kAudioStreamPropertyAvailableVirtualFormats;
              kAudioStreamPropertyAvailablePhysicalFormats ],
            found (RangedDescription (stream_format gState)
                     (sampleRate gState) (sampleRate gState))
              sizeof_AudioStreamRangedDescription) ]
         unknown);
      ([kObjectID_Volume_Master],
       switch (mSelector address)
         [ ([kAudioObjectPropertyBaseClass],
            found (UInt32 kAudioControlClassID) sizeof_AudioClassID);
           ([kAudioObjectPropertyClass],
            found (UInt32 kAudioVolumeControlClassID)
              sizeof_AudioClassID);
           ([kAudioObjectPropertyOwner],
            found (UInt32 kObjectID_Device) sizeof_AudioObjectID);
           ([kAudioControlPropertyScope],
            found (UInt32 kAudioObjectPropertyScopeOutput)
              sizeof_UInt32);
           ([kAudioControlPropertyElement],
            found (UInt32 kAudioObjectPropertyElementMain)
              sizeof_UInt32);
           ([kAudioLevelControlPropertyScalarValue],
            found (Float32 (volume gState)) sizeof_Float32);
           ([kAudioLevelControlPropertyDecibelValue],
            let vol := volume gState in
            found (Float32 (if f32_gt_zero vol then f32_20_log10 vol
                            else f32_minus_96))
              sizeof_Float32);
           ([kAudioLevelControlPropertyDecibelRange],
            found (AudioValueRange f64_minus_96 f64_zero)
              sizeof_AudioValueRange) ]
         unknown);
      ([kObjectID_Mute_Master],
       switch (mSelector address)
         [ ([kAudioObjectPropertyBaseClass],
            found (UInt32 kAudioControlClassID) sizeof_AudioClassID);
           ([kAudioObjectPropertyClass],
            found (UInt32 kAudioMuteControlClassID)
              sizeof_AudioClassID);
           ([kAudioObjectPropertyOwner],
            found (UInt32 kObjectID_Device) sizeof_AudioObjectID);
           ([kAudioControlPropertyScope],
            found (UInt32 kAudioObjectPropertyScopeOutput)
              sizeof_UInt32);
           ([kAudioControlPropertyElement],
            found (UInt32 kAudioObjectPropertyElementMain)
              sizeof_UInt32);
           ([kAudioBooleanControlPropertyValue],
            found (UInt32 (if muted gState then 1 else 0))
              sizeof_UInt32) ]
         unknown) ]
    (None, kAudioHardwareBadObjectError).

(** The result is the state after the call and the status.  [None]:
    [data] is read at a type it does not hold, which this embedding
    leaves open. *)
Definition Plugin_SetPropertyData (gState : state) (objectID : Z)
  (address : AudioObjectPropertyAddress) (value : data)
  : option (state * OSStatus) :=
  switch objectID
    [ ([kObjectID_Volume_Master],
       if mSelector address =? kAudioLevelControlPropertyScalarValue
       then
         match value with
         | Float32 v =>
             Some (mkPlugInState (host gState) (sampleRate gState)
                     (isRunning gState) (clientCount gState)
                     (anchorHostTime gState) (timestampCounter gState)
                     v (muted gState) (ringBuffer gState),
                   kAudioHardwareNoError)
         | _ => None
         end
       else Some (gState, kAudioHardwareNoError));
      ([kObjectID_Mute_Master],
       if mSelector address =? kAudioBooleanControlPropertyValue
       then
         match value with
         | UInt32 v =>
             Some (mkPlugInState (host gState) (sampleRate gState)
                     (isRunning gState) (clientCount gState)
                     (anchorHostTime gState) (timestampCounter gState)
                     (volume gState) (negb (v =? 0))
                     (ringBuffer gState),
                   kAudioHardwareNoError)
         | _ => None
         end
       else Some (gState, kAudioHardwareNoError)) ]
    (Some (gState, kAudioHardwareNoError)).

(** *** IO operations *)

(** [now] is what [mach_absolute_time()] returns. *)
Definition Plugin_StartIO (gState : state) (now : Z)
  : option (state * OSStatus) :=
  let old := clientCount gState in
  if old =? 0 then
    rb ← deref (ringBuffer gState);
    rb' ← Driver.reset silence rb;
    Some (mkPlugInState (host gState) (sampleRate gState) true
            (u32 (old + 1)) now 0 (volume gState) (muted gState)
            (Ptr rb'),
          kAudioHardwareNoError)
  else
    Some (mkPlugInState (host gState) (sampleRate gState)
            (isRunning gState) (u32 (old + 1)) (anchorHostTime gState)
            (timestampCounter gState) (volume gState) (muted gState)
            (ringBuffer gState),
          kAudioHardwareNoError).

Definition Plugin_StopIO (gState : state) : state * OSStatus :=
  let old := clientCount gState in
  (mkPlugInState (host gState) (sampleRate gState)
     (if old =? 1 then false else isRunning gState)
     (u32 (old - 1)) (anchorHostTime gState) (timestampCounter gState)
     (volume gState) (muted gState) (ringBuffer gState),
   kAudioHardwareNoError).

(** The result is [*outWillDo], [*outWillDoInPlace] and the status. *)
Definition Plugin_WillDoIO (operationID : Z) : bool * bool * OSStatus :=
  ((operationID =? kAudioServerPlugInIOOperationReadInput)
   || (operationID =? kAudioServerPlugInIOOperationWriteMix),
   true, kAudioHardwareNoError).

(** The result is the state after the call, the new contents of
    [mainBuffer] and the status. *)
Definition Plugin_DoIO (gState : state) (operationID bufferFrames : Z)
  (mainBuffer : list sample)
  : option (state * list sample * OSStatus) :=
  let buffer := mainBuffer in
  if operationID =? kAudioServerPlugInIOOperationWriteMix then
    rb ← deref (ringBuffer gState);
    '(rb', _) ← Driver.write rb buffer bufferFrames;
    Some (mkPlugInState (host gState) (sampleRate gState)
            (isRunning gState) (clientCount gState)
            (anchorHostTime gState) (timestampCounter gState)
            (volume gState) (muted gState) (Ptr rb'),
          buffer, kAudioHardwareNoError)
  else if operationID =? kAudioServerPlugInIOOperationReadInput then
    rb ← deref (ringBuffer gState);
    '(rb', buffer, _) ← Driver.read silence rb buffer bufferFrames;
    buffer ←
      (if muted gState then
         memset_zero silence buffer 0
           (usize (u32 (bufferFrames * Driver.kDevice_ChannelCount)
                   * sizeof_Float32))
       else
         let vol := volume gState in
         if f32_neq vol f32_one then
           for_loop
             (Z.to_nat (u32 (bufferFrames * Driver.kDevice_ChannelCount)))
             0
             (fun i buffer =>
                v ← load buffer i;
                store buffer i (f32_mul v vol))
             buffer
         else Some buffer);
    Some (mkPlugInState (host gState) (sampleRate gState)
            (isRunning gState) (clientCount gState)
            (anchorHostTime gState) (timestampCounter gState)
            (volume gState) (muted gState) (Ptr rb'),
          buffer, kAudioHardwareNoError)
  else Some (gState, buffer, kAudioHardwareNoError).

(** *** Entry point *)

(** [typeMatches] is what [CFEqual(typeUUID,
    kAudioServerPlugInTypeUUID)] returns, [alloc_state] whether
    [new PlugInState()] is granted.  The result is [gState] after the
    call and whether the driver reference is returned, not [nullptr];
    [None]: a [new] threw. *)
Definition AudiDeckDriverCreate (alloc : Z -> bool) (alloc_state : bool)
  (typeMatches : bool) (gState : pointer state)
  : option (pointer state * bool) :=
  if negb typeMatches then Some (gState, false)
  else
    match gState with
    | Ptr _ => Some (gState, true)
    | NULL =>
        if alloc_state then
          match Driver.new silence alloc Driver.kDevice_RingBufferSize
                  Driver.kDevice_ChannelCount with
          | Ptr rb =>
              Some (Ptr (mkPlugInState 0 f64_48000 false 0 0 0 f32_one
                           false (Ptr rb)),
                    true)
          | NULL => None
          end
        else None
    end.
End Functions.

End Plugin.

(** ** The plug-in seen from the host *)

Module PluginView.
Import Plugin.

Section View.
Context {sample float64 : Type}.
Variable silence : sample.
Context {HA : CoreAudio} {HF : Floats sample float64}.

Abbreviation state := (PlugInState sample float64).

(** The state [gState] with another ring buffer, every other field as
    it is. *)
Definition with_ring (gState : state) (rb : Driver.RingBuffer sample)
  : state :=
  mkPlugInState (host gState) (sampleRate gState) (isRunning gState)
    (clientCount gState) (anchorHostTime gState)
    (timestampCounter gState) (volume gState) (muted gState) (Ptr rb).

(** The plug-in after [AudiDeckDriverCreate]: its ring buffer is the
    live object [rb], made for the channel count of the device. *)
Definition live (gState : state) (rb : Driver.RingBuffer sample)
  : Prop :=
  ringBuffer gState = Ptr rb
  /\ DriverView.wf rb
  /\ Driver.mChannels rb = Driver.kDevice_ChannelCount.

(** Mute and volume applied to the samples [raw]. *)
Definition monitor (gState : state) (raw : list sample) : list sample :=
  if muted gState then replicate (length raw) silence
  else if f32_neq (volume gState) f32_one
       then (fun v => f32_mul v (volume gState)) <$> raw
       else raw.

(** The clients counted and the running flag. *)
Definition clients_inv (gState : state) : Prop :=
  0 <= clientCount gState < 2 ^ 32
  /\ isRunning gState = negb (clientCount gState =? 0).

(** Calls of [Plugin_StartIO] and [Plugin_StopIO]. *)
Inductive io_call : Type :=
| StartIO (now : Z)
| StopIO.

Fixpoint run_io (gState : state) (cs : list io_call) : option state :=
  match cs with
  | [] => Some gState
  | StartIO now :: cs' =>
      '(gState', _) ← Plugin_StartIO silence gState now;
      run_io gState' cs'
  | StopIO :: cs' => run_io (Plugin_StopIO gState).1 cs'
  end.

(** The clients left by a sequence of calls, from [count] clients. *)
Fixpoint clients_after (count : Z) (cs : list io_call) : Z :=
  match cs with
  | [] => count
  | StartIO _ :: cs' => clients_after (count + 1) cs'
  | StopIO :: cs' => clients_after (count - 1) cs'
  end.

(** No client stops that has not started, and fewer than [2^32]
    clients at a time. *)
Fixpoint balanced (count : Z) (cs : list io_call) : Prop :=
  match cs with
  | [] => True
  | StartIO _ :: cs' => count + 1 < 2 ^ 32 /\ balanced (count + 1) cs'
  | StopIO :: cs' => 1 <= count /\ balanced (count - 1) cs'
  end.

(** The case labels of the property switches, object by object. *)
Definition plugin_labels : list Z :=
  [ kAudioObjectPropertyBaseClass;
    kAudioObjectPropertyClass;
    kAudioObjectPropertyOwner;
    kAudioObjectPropertyManufacturer;
    kAudioObjectPropertyOwnedObjects;
    kAudioPlugInPropertyDeviceList;
    kAudioPlugInPropertyTranslateUIDToDevice;
    kAudioPlugInPropertyResourceBundle ].

Definition device_labels : list Z :=
  [ kAudioObjectPropertyBaseClass;
    kAudioObjectPropertyClass;
    kAudioObjectPropertyOwner;
    kAudioObjectPropertyName;
    kAudioObjectPropertyManufacturer;
    kAudioObjectPropertyOwnedObjects;
    kAudioDevicePropertyDeviceUID;
    kAudioDevicePropertyModelUID;
    kAudioDevicePropertyTransportType;
    kAudioDevicePropertyRelatedDevices;
    kAudioDevicePropertyClockDomain;
    kAudioDevicePropertyDeviceIsAlive;
    kAudioDevicePropertyDeviceIsRunning;
    kAudioDevicePropertyDeviceCanBeDefaultDevice;
    kAudioDevicePropertyDeviceCanBeDefaultSystemDevice;
    kAudioDevicePropertyLatency;
    kAudioDevicePropertyStreams;
    kAudioObjectPropertyControlList;
    kAudioDevicePropertySafetyOffset;
    kAudioDevicePropertyNominalSampleRate;
    kAudioDevicePropertyAvailableNominalSampleRates;
    kAudioDevicePropertyIsHidden;
    kAudioDevicePropertyZeroTimeStampPeriod ].

Definition stream_labels : list Z :=
  [ kAudioObjectPropertyBaseClass;
    kAudioObjectPropertyClass;
    kAudioObjectPropertyOwner;
    kAudioStreamPropertyIsActive;
    kAudioStreamPropertyDirection;
    kAudioStreamPropertyTerminalType;
    kAudioStreamPropertyStartingChannel;
    kAudioStreamPropertyLatency;
    kAudioStreamPropertyVirtualFormat;
    kAudioStreamPropertyPhysicalFormat;
    kAudioStreamPropertyAvailableVirtualFormats;
    kAudioStreamPropertyAvailablePhysicalFormats ].

Definition volume_labels : list Z :=
  [ kAudioObjectPropertyBaseClass;
    kAudioObjectPropertyClass;
    kAudioObjectPropertyOwner;
    kAudioControlPropertyScope;
    kAudioControlPropertyElement;
    kAudioLevelControlPropertyScalarValue;
    kAudioLevelControlPropertyDecibelValue;
    kAudioLevelControlPropertyDecibelRange ].

Definition mute_labels : list Z :=
  [ kAudioObjectPropertyBaseClass;
    kAudioObjectPropertyClass;
    kAudioObjectPropertyOwner;
    kAudioControlPropertyScope;
    kAudioControlPropertyElement;
    kAudioBooleanControlPropertyValue ].

(** The labels of the inner switch for the object [objectID]. *)
Definition labels_of (objectID : Z) : list Z :=
  switch objectID
    [ ([kObjectID_PlugIn], plugin_labels);
      ([kObjectID_Device], device_labels);
      ([kObjectID_Stream_Output; kObjectID_Stream_Input],
       stream_labels);
      ([kObjectID_Volume_Master], volume_labels);
      ([kObjectID_Mute_Master], mute_labels) ]
    [].

(** Within one switch no two case labels are equal: what the compiler
    demands of the header constants. *)
Definition labels_distinct : Prop :=
  NoDup plugin_labels /\ NoDup device_labels /\ NoDup stream_labels
  /\ NoDup volume_labels /\ NoDup mute_labels.

(** The objects that the object [objectID] reports as its own. *)
Definition owned_objects (gState : state) (objectID scope element : Z)
  : list Z :=
  match
    (Plugin_GetPropertyData gState objectID
       (mkAddress kAudioObjectPropertyOwnedObjects scope element)).1
  with
  | Some (UInt32 v, _) => [v]
  | Some (UInt32s vs, _) => vs
  | _ => []
  end.

(** The objects of the plug-in. *)
Definition is_object (objectID : Z) : bool :=
  (1 <=? objectID) && (objectID <=? 6).
End View.
End PluginView.

(** ** A small plug-in, to run the definitions *)

Module DriverInstance.

(** The code of a string of characters, the first one in the highest
    byte: ['abcd'] in C. *)
Fixpoint fourcc_from (acc : Z) (s : string) : Z :=
  match s with
  | EmptyString => acc
  | String c s' => fourcc_from (acc * 256 + Z.of_N (Ascii.N_of_ascii c)) s'
  end.

Definition fourcc (s : string) : Z := fourcc_from 0 s.

(** An assignment of the header constants, as four-character codes. *)
Definition header : CoreAudio := {|
  kAudioObjectPropertyBaseClass := fourcc "bcls";
  kAudioObjectPropertyClass := fourcc "clas";
  kAudioObjectPropertyOwner := fourcc "stdv";
  kAudioObjectPropertyName := fourcc "lnam";
  kAudioObjectPropertyManufacturer := fourcc "lmak";
  kAudioObjectPropertyOwnedObjects := fourcc "ownd";
  kAudioObjectPropertyControlList := fourcc "ctrl";
  kAudioPlugInPropertyDeviceList := fourcc "dev#";
  kAudioPlugInPropertyTranslateUIDToDevice := fourcc "uidd";
  kAudioPlugInPropertyResourceBundle := fourcc "rsrc";
  kAudioDevicePropertyDeviceUID := fourcc "uid ";
  kAudioDevicePropertyModelUID := fourcc "muid";
  kAudioDevicePropertyTransportType := fourcc "tran";
  kAudioDevicePropertyRelatedDevices := fourcc "akin";
  kAudioDevicePropertyClockDomain := fourcc "clkd";
  kAudioDevicePropertyDeviceIsAlive := fourcc "livn";
  kAudioDevicePropertyDeviceIsRunning := fourcc "goin";
  kAudioDevicePropertyDeviceCanBeDefaultDevice := fourcc "dflt";
  kAudioDevicePropertyDeviceCanBeDefaultSystemDevice := fourcc "sflt";
  kAudioDevicePropertyLatency := fourcc "ltnc";
  kAudioDevicePropertyStreams := fourcc "stm#";
  kAudioDevicePropertySafetyOffset := fourcc "saft";
  kAudioDevicePropertyNominalSampleRate := fourcc "nsrt";
  kAudioDevicePropertyAvailableNominalSampleRates := fourcc "nsr#";
  kAudioDevicePropertyIsHidden := fourcc "hidn";
  kAudioDevicePropertyZeroTimeStampPeriod := fourcc "ring";
  kAudioStreamPropertyIsActive := fourcc "sact";
  kAudioStreamPropertyDirection := fourcc "sdir";
  kAudioStreamPropertyTerminalType := fourcc "term";
  kAudioStreamPropertyStartingChannel := fourcc "schn";
  kAudioStreamPropertyLatency := fourcc "ltnc";
  kAudioStreamPropertyVirtualFormat := fourcc "sfmt";
  kAudioStreamPropertyPhysicalFormat := fourcc "pft ";
  kAudioStreamPropertyAvailableVirtualFormats := fourcc "sfma";
  kAudioStreamPropertyAvailablePhysicalFormats := fourcc "pfta";
  kAudioControlPropertyScope := fourcc "cscp";
  kAudioControlPropertyElement := fourcc "celm";
  kAudioLevelControlPropertyScalarValue := fourcc "lcsv";
  kAudioLevelControlPropertyDecibelValue := fourcc "lcdv";
  kAudioLevelControlPropertyDecibelRange := fourcc "lcdr";
  kAudioBooleanControlPropertyValue := fourcc "bcvl";
  kAudioObjectUnknown := 0;
  kAudioObjectClassID := fourcc "aobj";
  kAudioPlugInClassID := fourcc "aplg";
  kAudioDeviceClassID := fourcc "adev";
  kAudioStreamClassID := fourcc "astr";
  kAudioControlClassID := fourcc "actl";
  kAudioVolumeControlClassID := fourcc "vlme";
  kAudioMuteControlClassID := fourcc "mute";
  kAudioDeviceTransportTypeVirtual := fourcc "virt";
  kAudioObjectPropertyScopeOutput := fourcc "outp";
  kAudioObjectPropertyElementMain := 0;
  kAudioStreamTerminalTypeSpeaker := fourcc "spkr";
  kAudioStreamTerminalTypeMicrophone := fourcc "micr";
  kAudioFormatLinearPCM := fourcc "lpcm";
  kAudioFormatFlagIsFloat := 1;
  kAudioFormatFlagsNativeEndian := 0;
  kAudioFormatFlagIsPacked := 8;
  kAudioServerPlugInIOOperationReadInput := fourcc "read";
  kAudioServerPlugInIOOperationWriteMix := fourcc "rite"
|}.

(** Integers in the place of the floating-point numbers: samples that
    can be compared and multiplied by evaluation. *)
Definition integers : Floats Z Z := {|
  f32_one := 1;
  f32_minus_96 := -96;
  f32_neq := fun a b => negb (a =? b);
  f32_gt_zero := fun a => 0 <? a;
  f32_mul := Z.mul;
  f32_20_log10 := fun a => 20 * Z.log2 a;
  f64_48000 := 48000;
  f64_minus_96 := -96;
  f64_zero := 0
|}.

(** A buffer of the driver for three frames of two channels, with one
    frame written and not yet read. *)
Definition ring0 : Driver.RingBuffer Z :=
  Driver.mkRingBuffer [1; -1; 0; 0; 0; 0] 3 2 1 0.

(** The plug-in at rest with this buffer, its volume at 2. *)
Definition state0 : Plugin.PlugInState Z Z :=
  Plugin.mkPlugInState 0 48000 false 0 0 0 2 false (Ptr ring0).

(** Two frames to write, and an array of two frames to read into. *)
Definition mix0 : list Z := [3; -3; 4; -4].
Definition input0 : list Z := [7; 7; 7; 7].

(** An object of the C++ class for four frames of two channels, with
    two frames written and not yet read. *)
Definition object0 : Cpp.AudioRingBuffer Z :=
  Cpp.mkAudioRingBuffer [1; -1; 2; -2; 0; 0; 0; 0] 4 3 2 2 0.

End DriverInstance.

(** * Proofs *)

(** ** Machine arithmetic *)

Lemma u32_small z : 0 <= z < 2 ^ 32 -> u32 z = z.
Proof. intros H. unfold u32. apply Z.mod_small; lia. Qed.

Lemma u64_small z : 0 <= z < 2 ^ 64 -> u64 z = z.
Proof. intros H. unfold u64. apply Z.mod_small; lia. Qed.

Lemma usize_small z : 0 <= z < 2 ^ 64 -> usize z = z.
Proof. apply u64_small. Qed.

Lemma u64_range z : 0 <= u64 z < 2 ^ 64.
Proof. unfold u64. apply Z.mod_pos_bound. lia. Qed.

Lemma u32_range z : 0 <= u32 z < 2 ^ 32.
Proof. unfold u32. apply Z.mod_pos_bound. lia. Qed.

Lemma is_pow2_pos n : is_pow2 n -> 1 <= n.
Proof.
  unfold is_pow2. intros H.
  pose proof (Z.log2_nonneg n) as Hl.
  assert (0 < 2 ^ Z.log2 n) by (apply Z.pow_pos_nonneg; lia). lia.
Qed.

Lemma is_pow2_pow k : 0 <= k -> is_pow2 (2 ^ k).
Proof. intros H. unfold is_pow2. now rewrite Z.log2_pow2. Qed.

Lemma pow2_divide_2_64 n : is_pow2 n -> n <= 2 ^ 31 -> (n | 2 ^ 64).
Proof.
  intros Hp Hle. pose proof (is_pow2_pos n Hp) as Hpos.
  unfold is_pow2 in Hp. set (k := Z.log2 n) in *.
  assert (0 <= k) by apply Z.log2_nonneg.
  assert (k <= 31).
  { destruct (Z.le_gt_cases k 31) as [|Hgt]; [done|].
    assert (2 ^ 32 <= 2 ^ k) by (apply Z.pow_le_mono_r; lia). lia. }
  exists (2 ^ (64 - k)). rewrite Hp, <- Z.pow_add_r by lia. f_equal. lia.
Qed.

Lemma mod_u64_pow2 n z :
  is_pow2 n -> n <= 2 ^ 31 -> u64 z mod n = z mod n.
Proof.
  intros Hp Hle. unfold u64.
  apply Z.mod_mod_divide. now apply pow2_divide_2_64.
Qed.

(** The masked cursor of the source is the cursor modulo the capacity. *)
Lemma masked_cursor n x i :
  is_pow2 n -> n <= 2 ^ 31 ->
  u32 (Z.land (u64 (x + i)) (u32 (n - 1))) = (x + i) mod n.
Proof.
  intros Hp Hle. pose proof (is_pow2_pos n Hp) as Hpos.
  rewrite (u32_small (n - 1)) by lia.
  assert (Hm : n - 1 = Z.ones (Z.log2 n)).
  { rewrite Z.ones_equiv. unfold is_pow2 in Hp. lia. }
  rewrite Hm, Z.land_ones by apply Z.log2_nonneg.
  replace (2 ^ Z.log2 n) with n by exact Hp.
  rewrite mod_u64_pow2 by done.
  apply u32_small. pose proof (Z.mod_pos_bound (x + i) n). lia.
Qed.

(** Distinct offsets below the capacity address distinct frames. *)
Lemma mod_add_inj n x i j :
  0 < n -> 0 <= i < j -> j < i + n -> (x + i) mod n <> (x + j) mod n.
Proof.
  intros Hn Hij Hj Heq.
  assert (Hd : (j - i) mod n = 0).
  { replace (j - i) with ((x + j) - (x + i)) by lia.
    rewrite Zminus_mod, Heq, Z.sub_diag. apply Z.mod_0_l. lia. }
  rewrite Z.mod_small in Hd by lia. lia.
Qed.

Lemma mod_add_eq n x y i :
  0 < n -> x mod n = y mod n -> (x + i) mod n = (y + i) mod n.
Proof.
  intros Hn H. rewrite (Zplus_mod x), (Zplus_mod y), H. done.
Qed.

(** Interleaved indices. *)
Lemma frame_index_inj N i c j d :
  0 <= c < N -> 0 <= d < N -> i * N + c = j * N + d -> i = j /\ c = d.
Proof.
  intros Hc Hd H.
  destruct (Z.lt_total i j) as [Hlt|[Heq|Hgt]]; [nia| subst; lia |nia].
Qed.

Lemma frame_disjoint N i j :
  0 <= N -> i <> j -> i * N + N <= j * N \/ j * N + N <= i * N.
Proof.
  intros HN H.
  destruct (Z.lt_total i j) as [Hlt|[Heq|Hgt]]; [left|done|right]; nia.
Qed.

(** ** Arrays *)

Section Arrays.
Context {sample : Type}.
Variable silence : sample.
Implicit Types a dst src : list sample.

Lemma load_lookup a i : 0 <= i -> load a i = a !! Z.to_nat i.
Proof. intros H. unfold load. destruct (Z.leb_spec 0 i); [done | lia]. Qed.

Lemma load_neg a i : i < 0 -> load a i = None.
Proof. intros H. unfold load. destruct (Z.leb_spec 0 i); [lia | done]. Qed.

Lemma load_Some_range a i v :
  load a i = Some v -> 0 <= i < Z.of_nat (length a).
Proof.
  unfold load. destruct (Z.leb_spec 0 i); [|done].
  intros Hv%lookup_lt_Some. lia.
Qed.

Lemma load_in_range a i :
  0 <= i < Z.of_nat (length a) -> exists v, load a i = Some v.
Proof.
  intros H. rewrite load_lookup by lia.
  destruct (lookup_lt_is_Some_2 a (Z.to_nat i)) as [v Hv]; [lia | eauto].
Qed.

Lemma load_out_of_range a i : Z.of_nat (length a) <= i -> load a i = None.
Proof.
  intros H. rewrite load_lookup by lia. apply lookup_ge_None. lia.
Qed.

(** Two arrays with the same samples at every index are equal. *)
Lemma load_ext a a' :
  (forall p, 0 <= p -> load a p = load a' p) -> a = a'.
Proof.
  intros H. apply list_eq. intros i.
  specialize (H (Z.of_nat i) ltac:(lia)).
  now rewrite !load_lookup, Nat2Z.id in H by lia.
Qed.

Lemma load_length_eq a a' :
  (forall p, 0 <= p -> load a p = load a' p) -> length a = length a'.
Proof. intros H. now rewrite (load_ext a a' H). Qed.

Lemma store_in_range a i v :
  0 <= i < Z.of_nat (length a) ->
  store a i v = Some (<[Z.to_nat i := v]> a).
Proof.
  intros H. unfold store.
  destruct (Z.leb_spec 0 i); [|lia].
  destruct (Z.ltb_spec i (Z.of_nat (length a))); [done | lia].
Qed.

Lemma store_Some a i v a' :
  store a i v = Some a' ->
  0 <= i < Z.of_nat (length a) /\ a' = <[Z.to_nat i := v]> a.
Proof.
  unfold store.
  destruct (Z.leb_spec 0 i); [|done].
  destruct (Z.ltb_spec i (Z.of_nat (length a))); [|done].
  intros [= <-]. split; [lia | done].
Qed.

Lemma store_length a i v a' : store a i v = Some a' -> length a' = length a.
Proof. intros [_ ->]%store_Some. apply length_insert. Qed.

Lemma load_store_eq a i v a' : store a i v = Some a' -> load a' i = Some v.
Proof.
  intros [Hi ->]%store_Some. rewrite load_lookup by lia.
  apply list_lookup_insert_eq. lia.
Qed.

Lemma load_store_ne a i v a' p :
  store a i v = Some a' -> p <> i -> load a' p = load a p.
Proof.
  intros [Hi ->]%store_Some Hp.
  destruct (Z.lt_ge_cases p 0) as [Hneg|Hpos].
  - now rewrite !load_neg.
  - rewrite !load_lookup by lia. apply list_lookup_insert_ne. lia.
Qed.

Lemma load_take a n p :
  load (take n a) p = if p <? Z.of_nat n then load a p else None.
Proof.
  destruct (Z.lt_ge_cases p 0) as [Hneg|Hpos].
  - rewrite !load_neg by lia. now destruct (p <? Z.of_nat n).
  - rewrite !load_lookup by lia. rewrite lookup_take.
    destruct (Z.ltb_spec p (Z.of_nat n)); case_decide; done || lia.
Qed.

Lemma load_drop a n p :
  0 <= p -> load (drop n a) p = load a (Z.of_nat n + p).
Proof.
  intros Hp. rewrite !load_lookup by lia. rewrite lookup_drop.
  f_equal. lia.
Qed.

Lemma load_app a a' p :
  load (a ++ a') p =
  if p <? Z.of_nat (length a) then load a p
  else load a' (p - Z.of_nat (length a)).
Proof.
  destruct (Z.lt_ge_cases p 0) as [Hneg|Hpos].
  - rewrite !load_neg by lia. now destruct (p <? Z.of_nat (length a)).
  - destruct (Z.ltb_spec p (Z.of_nat (length a))).
    + rewrite !load_lookup by lia. apply lookup_app_l. lia.
    + rewrite !load_lookup by lia. rewrite lookup_app_r by lia.
      f_equal. lia.
Qed.

Lemma load_replicate n (v : sample) p :
  load (replicate n v) p =
  if (0 <=? p) && (p <? Z.of_nat n) then Some v else None.
Proof.
  destruct (Z.leb_spec 0 p); simpl.
  - rewrite load_lookup by lia.
    destruct (Z.ltb_spec p (Z.of_nat n)).
    + apply lookup_replicate_2. lia.
    + apply lookup_replicate_None. lia.
  - now apply load_neg.
Qed.

(** [memset_zero] succeeds on a range inside the array, clears it and
    leaves the rest. *)
Lemma memset_zero_spec a off n :
  0 <= off -> 0 <= n -> off + n <= Z.of_nat (length a) ->
  memset_zero silence a off (n * sizeof_float) =
    Some (take (Z.to_nat off) a ++ replicate (Z.to_nat n) silence
          ++ drop (Z.to_nat (off + n)) a).
Proof.
  intros Hoff Hn Hlen. unfold memset_zero.
  unfold sizeof_float. rewrite Z.div_mul by lia.
  destruct (Z.leb_spec 0 off); [|lia].
  destruct (Z.leb_spec (off + n) (Z.of_nat (length a))); [done | lia].
Qed.

Lemma memset_zero_0 a : memset_zero silence a 0 0 = Some a.
Proof.
  change 0 with (0 * sizeof_float) at 2.
  rewrite memset_zero_spec by lia. simpl. done.
Qed.
End Arrays.

(** ** Loops *)

Section Loops.
Context {S : Type}.
Implicit Types (body : Z -> S -> option S) (I : Z -> S -> Prop).

(** A loop whose body keeps an invariant and does not fail ends in a
    state of the invariant. *)
Lemma for_loop_total I n i0 body s0 :
  I i0 s0 ->
  (forall i s, i0 <= i < i0 + Z.of_nat n -> I i s ->
     exists s', body i s = Some s' /\ I (i + 1) s') ->
  exists s', for_loop n i0 body s0 = Some s' /\ I (i0 + Z.of_nat n) s'.
Proof.
  revert i0 s0. induction n as [|n IH]; intros i0 s0 H0 Hstep.
  - exists s0. simpl. split; [done|]. now replace (i0 + Z.of_nat 0) with i0 by lia.
  - destruct (Hstep i0 s0 ltac:(lia) H0) as (s1 & Hb & H1).
    destruct (IH (i0 + 1) s1 H1) as (s' & Hl & H').
    { intros i s Hi. apply Hstep. lia. }
    exists s'. simpl. rewrite Hb. split; [done|].
    now replace (i0 + Z.of_nat (Datatypes.S n)) with (i0 + 1 + Z.of_nat n) by lia.
Qed.

(** A loop that ends leaves what every successful step of its body
    leaves. *)
Lemma for_loop_partial (P : S -> Prop) n i0 body s0 s' :
  P s0 ->
  (forall i s s1, P s -> body i s = Some s1 -> P s1) ->
  for_loop n i0 body s0 = Some s' -> P s'.
Proof.
  revert i0 s0. induction n as [|n IH]; intros i0 s0 H0 Hstep; simpl.
  - now intros [= <-].
  - destruct (body i0 s0) as [s1|] eqn:Hb; [|done].
    apply IH; eauto.
Qed.

Lemma for_loop_ext n i0 body body' s0 :
  (forall i s, i0 <= i < i0 + Z.of_nat n -> body i s = body' i s) ->
  for_loop n i0 body s0 = for_loop n i0 body' s0.
Proof.
  revert i0 s0. induction n as [|n IH]; intros i0 s0 H; simpl; [done|].
  rewrite <- H by lia. destruct (body i0 s0) as [s1|]; [|done].
  apply IH. intros i s Hi. apply H. lia.
Qed.
End Loops.

Section Copy.
Context {sample : Type}.
Implicit Types a dst src : list sample.

(** One frame. *)
Lemma copy_frame_spec src dst so do N :
  0 <= N ->
  0 <= so -> so + N <= Z.of_nat (length src) ->
  0 <= do -> do + N <= Z.of_nat (length dst) ->
  Z.of_nat (length src) < 2 ^ 64 -> Z.of_nat (length dst) < 2 ^ 64 ->
  exists dst',
    for_loop (Z.to_nat N) 0 (fun ch dst =>
        v ← load src (usize (so + ch));
        store dst (usize (do + ch)) v) dst = Some dst'
    /\ length dst' = length dst
    /\ (forall c, 0 <= c < N -> load dst' (do + c) = load src (so + c))
    /\ (forall p, ~ (do <= p < do + N) -> load dst' p = load dst p).
Proof.
  intros HN Hso Hsrc Hdo Hdst Hls Hld.
  pose (I := fun (ch : Z) (d : list sample) =>
    length d = length dst
    /\ (forall c, 0 <= c < ch -> load d (do + c) = load src (so + c))
    /\ (forall p, ~ (do <= p < do + ch) -> load d p = load dst p)).
  destruct (for_loop_total I (Z.to_nat N) 0
              (fun ch dst =>
                 v ← load src (usize (so + ch));
                 store dst (usize (do + ch)) v) dst)
    as (dst' & Hrun & Hlen & Hin & Hout).
  - split; [done|]. split; [intros c Hc; lia | done].
  - intros ch d Hch (Hlen & Hin & Hout).
    rewrite !usize_small by lia.
    destruct (load_in_range src (so + ch)) as [v Hv]; [lia|].
    rewrite Hv. simpl.
    rewrite store_in_range by lia.
    eexists. split; [done|].
    assert (Hst : store d (do + ch) v
                  = Some (<[Z.to_nat (do + ch) := v]> d))
      by (apply store_in_range; lia).
    split; [|split].
    + rewrite length_insert. done.
    + intros c Hc. destruct (Z.eq_dec c ch) as [->|Hne].
      * rewrite (load_store_eq _ _ _ _ Hst). done.
      * rewrite (load_store_ne _ _ _ _ _ Hst) by lia. apply Hin. lia.
    + intros p Hp.
      rewrite (load_store_ne _ _ _ _ _ Hst) by lia. apply Hout. lia.
  - exists dst'. rewrite Z.add_0_l, Z2Nat.id in * by lia. done.
Qed.

(** All the frames. *)
Lemma copy_frames_spec src soff doff n N dst :
  0 <= N -> 0 <= n ->
  Z.of_nat (length src) < 2 ^ 64 -> Z.of_nat (length dst) < 2 ^ 64 ->
  (forall i, 0 <= i < n ->
     0 <= soff i /\ soff i + N <= Z.of_nat (length src)) ->
  (forall i, 0 <= i < n ->
     0 <= doff i /\ doff i + N <= Z.of_nat (length dst)) ->
  (forall i j, 0 <= i < j -> j < n ->
     doff i + N <= doff j \/ doff j + N <= doff i) ->
  exists dst',
    copy_frames src soff doff n N dst = Some dst'
    /\ length dst' = length dst
    /\ (forall i c, 0 <= i < n -> 0 <= c < N ->
          load dst' (doff i + c) = load src (soff i + c))
    /\ (forall p, (forall i, 0 <= i < n -> ~ (doff i <= p < doff i + N)) ->
          load dst' p = load dst p).
Proof.
  intros HN Hn Hls Hld Hsrc Hdst Hdisj.
  pose (J := fun (k : Z) (d : list sample) =>
    length d = length dst
    /\ (forall i c, 0 <= i < k -> 0 <= c < N ->
          load d (doff i + c) = load src (soff i + c))
    /\ (forall p, (forall i, 0 <= i < k -> ~ (doff i <= p < doff i + N)) ->
          load d p = load dst p)).
  unfold copy_frames.
  destruct (for_loop_total J (Z.to_nat n) 0
              (fun i dst =>
                 for_loop (Z.to_nat N) 0 (fun ch dst =>
                     v ← load src (usize (soff i + ch));
                     store dst (usize (doff i + ch)) v) dst) dst)
    as (dst' & Hrun & HJ).
  - split; [done|]. split; [intros i c Hi; lia | done].
  - intros k d Hk (Hlen & Hin & Hout).
    destruct (Hsrc k ltac:(lia)) as [Hs0 Hs1].
    destruct (Hdst k ltac:(lia)) as [Hd0 Hd1].
    destruct (copy_frame_spec src d (soff k) (doff k) N)
      as (d' & Hrun & Hlen' & Hin' & Hout'); try lia.
    exists d'. split; [done|]. split; [lia|]. split.
    + intros i c Hi Hc. destruct (Z.eq_dec i k) as [->|Hne].
      * now apply Hin'.
      * rewrite Hout'; [apply Hin; lia|].
        destruct (Hdisj i k ltac:(lia) ltac:(lia)); lia.
    + intros p Hp. rewrite Hout'; [apply Hout|].
      * intros i Hi. apply Hp. lia.
      * apply Hp. lia.
  - exists dst'. rewrite Z.add_0_l, Z2Nat.id in HJ by lia. done.
Qed.

(** The copy changes no length, whatever it does. *)
Lemma copy_frames_length src soff doff n N dst dst' :
  copy_frames src soff doff n N dst = Some dst' ->
  length dst' = length dst.
Proof.
  unfold copy_frames.
  apply (for_loop_partial (fun d => length d = length dst)); [done|].
  intros i d d1 Hd.
  apply (for_loop_partial (fun d' => length d' = length dst)); [done|].
  intros ch e e1 He Hstep.
  destruct (load src (usize (soff i + ch))) as [v|]; [|done].
  simpl in Hstep. apply store_length in Hstep. lia.
Qed.

Lemma copy_frames_ext src soff doff soff' doff' n N dst :
  (forall i, 0 <= i < n -> soff i = soff' i /\ doff i = doff' i) ->
  copy_frames src soff doff n N dst = copy_frames src soff' doff' n N dst.
Proof.
  intros H. unfold copy_frames. apply for_loop_ext.
  intros i d Hi. destruct (H i ltac:(lia)) as [-> ->]. done.
Qed.
End Copy.

(** ** Frames *)

Section Frames.
Context {sample : Type}.
Implicit Types a dst src : list sample.

Lemma slice_ext a a' o o' N :
  0 <= o -> 0 <= o' ->
  (forall c, 0 <= c < N -> load a (o + c) = load a' (o' + c)) ->
  take (Z.to_nat N) (drop (Z.to_nat o) a)
  = take (Z.to_nat N) (drop (Z.to_nat o') a').
Proof.
  intros Ho Ho' H. apply load_ext. intros p Hp.
  rewrite !load_take, !load_drop by lia.
  destruct (Z.ltb_spec p (Z.of_nat (Z.to_nat N))); [|done].
  rewrite !Z2Nat.id by lia. apply H. lia.
Qed.

Lemma frame_of_ext N a a' i i' :
  0 <= i * N -> 0 <= i' * N ->
  (forall c, 0 <= c < N -> load a (i * N + c) = load a' (i' * N + c)) ->
  frame_of N a i = frame_of N a' i'.
Proof. intros. unfold frame_of. now apply slice_ext. Qed.

(** The frames of an array, laid end to end, are the array. *)
Lemma concat_frames_of N a n :
  0 <= N -> 0 <= n ->
  concat (frames_of N a n) = take (Z.to_nat (n * N)) a.
Proof.
  intros HN Hn. rewrite <- (Z2Nat.id n Hn).
  induction (Z.to_nat n) as [|k IH]; [done|].
  unfold frames_of in *.
  rewrite seqZ_S, fmap_app, concat_app, IH. simpl.
  rewrite app_nil_r. unfold frame_of.
  rewrite take_take_drop. f_equal. lia.
Qed.

Lemma frames_of_ext N a a' n :
  0 <= N ->
  (forall i, 0 <= i < n -> frame_of N a i = frame_of N a' i) ->
  frames_of N a n = frames_of N a' n.
Proof.
  intros HN H. unfold frames_of. apply Forall_fmap_ext_1.
  apply Forall_seqZ. intros i Hi. apply H. lia.
Qed.

Lemma length_frames_of N a n : length (frames_of N a n) = Z.to_nat n.
Proof. unfold frames_of. now rewrite length_fmap, length_seqZ. Qed.
End Frames.

Section Counts.
Context {sample : Type}.
Variable silence : sample.
Implicit Types (b : AudioRingBuffer sample) (a dst src : list sample).

Lemma wf_size_range b : wf b -> 1 <= bufferSize b <= 2 ^ 31.
Proof. intros [[Hp Hle] _ _ _ _ _ _]. pose proof (is_pow2_pos _ Hp). lia. Qed.

Lemma available_wf b :
  wf b ->
  AudioRingBuffer_GetAvailableFrames (Ptr b)
  = u64 (writeIndex b - readIndex b).
Proof.
  intros Hwf. pose proof (wf_size_range b Hwf). destruct Hwf.
  simpl. apply u32_small.
  pose proof (u64_range (writeIndex b - readIndex b)). lia.
Qed.

Lemma available_range b :
  wf b -> 0 <= AudioRingBuffer_GetAvailableFrames (Ptr b) <= bufferSize b.
Proof.
  intros Hwf. rewrite available_wf by done. destruct Hwf.
  pose proof (u64_range (writeIndex b - readIndex b)). lia.
Qed.

Lemma free_wf b :
  wf b ->
  AudioRingBuffer_GetFreeFrames (Ptr b)
  = bufferSize b - AudioRingBuffer_GetAvailableFrames (Ptr b).
Proof.
  intros Hwf. pose proof (wf_size_range b Hwf).
  pose proof (available_range b Hwf).
  unfold AudioRingBuffer_GetFreeFrames. apply u32_small. lia.
Qed.

Lemma length_queued b :
  Z.of_nat (length (queued b))
  = Z.max 0 (AudioRingBuffer_GetAvailableFrames (Ptr b)).
Proof. unfold queued. rewrite length_fmap, length_seqZ. lia. Qed.

Lemma length_queued_wf b :
  wf b ->
  Z.of_nat (length (queued b)) = AudioRingBuffer_GetAvailableFrames (Ptr b).
Proof.
  intros Hwf. pose proof (available_range b Hwf).
  rewrite length_queued. lia.
Qed.

(** The frame position of an offset from a cursor, as the source
    computes it. *)
Lemma position_wf b x i :
  wf b ->
  u32 (Z.land (u64 (x + i)) (u32 (bufferSize b - 1)))
  = (x + i) mod bufferSize b.
Proof. intros [[Hp Hle] _ _ _ _ _ _]. now apply masked_cursor. Qed.

Lemma position_range b x :
  wf b -> 0 <= x mod bufferSize b < bufferSize b.
Proof.
  intros Hwf. pose proof (wf_size_range b Hwf). apply Z.mod_pos_bound. lia.
Qed.

(** The write cursor lies [available] frames after the read cursor. *)
Lemma write_position b i :
  wf b ->
  (writeIndex b + i) mod bufferSize b
  = (readIndex b + (AudioRingBuffer_GetAvailableFrames (Ptr b) + i))
      mod bufferSize b.
Proof.
  intros Hwf. pose proof (wf_size_range b Hwf).
  rewrite available_wf by done. destruct Hwf as [[Hp Hle] _ _ _ _ _ _].
  rewrite Z.add_assoc. apply mod_add_eq; [lia|].
  rewrite Zplus_mod, mod_u64_pow2 by done.
  rewrite <- Zplus_mod. f_equal. lia.
Qed.
End Counts.

Lemma min_if x y : (if x <? y then x else y) = Z.min x y.
Proof. destruct (Z.ltb_spec x y); lia. Qed.

Section WriteStore.
Context {sample : Type}.
Variable silence : sample.
Implicit Types (b : AudioRingBuffer sample) (a dst src : list sample).

(** What a write does to the struct: the count, the cursor, and the
    store sample by sample. *)
Lemma write_store b src frameCount :
  wf b -> 0 <= frameCount < 2 ^ 32 ->
  valid_array src frameCount (channelCount b) ->
  let n := Z.min frameCount (AudioRingBuffer_GetFreeFrames (Ptr b)) in
  exists mem,
    AudioRingBuffer_Write (Ptr b) (Ptr src) frameCount
    = Some (Ptr (mkAudioRingBuffer mem (bufferSize b) (channelCount b)
                   (u64 (writeIndex b + n)) (readIndex b)), n)
    /\ length mem = length (buffer b)
    /\ (forall i c, 0 <= i < n -> 0 <= c < channelCount b ->
          load mem ((writeIndex b + i) mod bufferSize b * channelCount b + c)
          = load src (i * channelCount b + c))
    /\ (forall q c, 0 <= q -> 0 <= c < channelCount b ->
          (forall i, 0 <= i < n ->
             q <> (writeIndex b + i) mod bufferSize b) ->
          load mem (q * channelCount b + c)
          = load (buffer b) (q * channelCount b + c)).
Proof.
  intros Hwf Hfc [Hsrc Hsrcmax] n.
  pose proof (wf_size_range b Hwf) as Hcap.
  pose proof (available_range b Hwf) as Hav.
  pose proof (free_wf b Hwf) as Hfree.
  assert (Hn : 0 <= n <= bufferSize b
                         - AudioRingBuffer_GetAvailableFrames (Ptr b))
    by (unfold n; lia).
  assert (Hsame : n = 0 ->
    exists mem,
      Some (Ptr b, 0)
      = Some (Ptr (mkAudioRingBuffer mem (bufferSize b) (channelCount b)
                     (u64 (writeIndex b + n)) (readIndex b)), n)
      /\ length mem = length (buffer b)
      /\ (forall i c, 0 <= i < n -> 0 <= c < channelCount b ->
            load mem ((writeIndex b + i) mod bufferSize b
                      * channelCount b + c)
            = load src (i * channelCount b + c))
      /\ (forall q c, 0 <= q -> 0 <= c < channelCount b ->
            (forall i, 0 <= i < n ->
               q <> (writeIndex b + i) mod bufferSize b) ->
            load mem (q * channelCount b + c)
            = load (buffer b) (q * channelCount b + c))).
  { intros ->. exists (buffer b). destruct Hwf. destruct b; simpl in *.
    rewrite Z.add_0_r, u64_small by lia.
    split; [done|]. split; [done|]. split; [intros; lia | done]. }
  unfold AudioRingBuffer_Write.
  destruct (Z.eqb_spec frameCount 0) as [Hz|Hnz].
  { apply Hsame. unfold n. lia. }
  rewrite min_if. fold n.
  destruct (Z.eqb_spec n 0) as [Hz|Hnz']; [now apply Hsame|].
  clear Hsame.
  pose proof Hwf as [[Hp Hle] HN Hlen Hbytes Hw Hr Havail].
  unfold sizeof_float in *.
  set (N := channelCount b) in *. set (cap := bufferSize b) in *.
  set (w := writeIndex b) in *.
  change (for_loop (Z.to_nat n) 0 _ (buffer_ b))
    with (copy_frames src (fun i => usize (i * N))
            (fun i => usize (u32 (Z.land (u64 (w + i)) (u32 (cap - 1))) * N))
            n N (buffer b)).
  rewrite (copy_frames_ext _ _ _ (fun i => i * N)
             (fun i => (w + i) mod cap * N)).
  2:{ intros i Hi. unfold cap. rewrite position_wf by done. fold cap.
      pose proof (position_range b (w + i) Hwf) as Hpos. fold cap in Hpos.
      split; apply usize_small; nia. }
  destruct (copy_frames_spec src (fun i => i * N)
              (fun i => (w + i) mod cap * N) n N (buffer b))
    as (mem & Hrun & Hlen' & Hin & Hout); try lia.
  - intros i Hi. nia.
  - intros i Hi.
    pose proof (position_range b (w + i) Hwf) as Hpos. fold cap in Hpos.
    nia.
  - intros i j Hi Hj. apply frame_disjoint; [lia|].
    apply mod_add_inj; lia.
  - exists mem. rewrite Hrun. simpl. split; [done|]. split; [done|].
    split; [exact Hin|].
    intros q c Hq Hc Hne. apply Hout. intros i Hi.
    specialize (Hne i Hi).
    destruct (frame_disjoint N q ((w + i) mod cap)); lia.
Qed.
End WriteStore.

Lemma u64_add_l x y : u64 (u64 x + y) = u64 (x + y).
Proof. unfold u64. apply Zplus_mod_idemp_l. Qed.

Lemma u64_sub_l x y : u64 (u64 x - y) = u64 (x - y).
Proof. unfold u64. apply Zminus_mod_idemp_l. Qed.

Lemma u64_sub_r x y : u64 (x - u64 y) = u64 (x - y).
Proof. unfold u64. apply Zminus_mod_idemp_r. Qed.

Section WriteQueue.
Context {sample : Type}.
Variable silence : sample.
Implicit Types (b : AudioRingBuffer sample) (a dst src : list sample).

(** What a write does to the queue. *)
Lemma write_queue b src frameCount :
  wf b -> 0 <= frameCount < 2 ^ 32 ->
  valid_array src frameCount (channelCount b) ->
  let n := Z.min frameCount (AudioRingBuffer_GetFreeFrames (Ptr b)) in
  exists b',
    AudioRingBuffer_Write (Ptr b) (Ptr src) frameCount = Some (Ptr b', n)
    /\ wf b'
    /\ bufferSize b' = bufferSize b
    /\ channelCount b' = channelCount b
    /\ readIndex b' = readIndex b
    /\ writeIndex b' = u64 (writeIndex b + n)
    /\ AudioRingBuffer_GetAvailableFrames (Ptr b')
       = AudioRingBuffer_GetAvailableFrames (Ptr b) + n
    /\ queued b' = queued b ++ frames_of (channelCount b) src n.
Proof.
  intros Hwf Hfc Hsrc n.
  destruct (write_store b src frameCount Hwf Hfc Hsrc)
    as (mem & Hrun & Hlen & Hin & Hout). fold n in Hrun, Hin, Hout.
  pose proof (wf_size_range b Hwf) as Hcap.
  pose proof (available_range b Hwf) as Hav.
  pose proof (free_wf b Hwf) as Hfree.
  pose proof (available_wf b Hwf) as Haveq.
  assert (Hn : 0 <= n <= bufferSize b
                         - AudioRingBuffer_GetAvailableFrames (Ptr b))
    by (unfold n; lia).
  clearbody n.
  set (b' := mkAudioRingBuffer mem (bufferSize b) (channelCount b)
               (u64 (writeIndex b + n)) (readIndex b)) in *.
  assert (Hdist : u64 (writeIndex b' - readIndex b')
                  = AudioRingBuffer_GetAvailableFrames (Ptr b) + n).
  { rewrite Haveq in *. unfold b'.
    cbn [writeIndex readIndex]. rewrite u64_sub_l.
    replace (writeIndex b + n - readIndex b)
      with (writeIndex b - readIndex b + n) by lia.
    rewrite <- u64_add_l. apply u64_small. lia. }
  assert (Hwf' : wf b').
  { unfold b' in Hdist. cbn [writeIndex readIndex] in Hdist.
    destruct Hwf.
    split; unfold b';
      cbn [buffer bufferSize channelCount writeIndex readIndex];
      try done.
    - lia.
    - apply u64_range.
    - rewrite Hdist. lia. }
  assert (Hav' : AudioRingBuffer_GetAvailableFrames (Ptr b')
                 = AudioRingBuffer_GetAvailableFrames (Ptr b) + n).
  { rewrite (available_wf b' Hwf'). exact Hdist. }
  exists b'. do 7 (split; [done|]).
  pose proof Hwf as [[Hp Hle] HN _ _ _ _ _].
  unfold queued. rewrite Hav'.
  rewrite seqZ_app, fmap_app by lia. f_equal.
  - apply Forall_fmap_ext_1, Forall_seqZ. intros j Hj.
    unfold frame_at, b'.
    cbn [buffer bufferSize channelCount writeIndex readIndex].
    pose proof (position_range b (readIndex b + j) Hwf) as Hpos.
    apply frame_of_ext; [nia | nia |].
    intros c Hc. apply Hout; [lia | done |].
    intros i Hi. rewrite (write_position b i) by done.
    apply mod_add_inj; lia.
  - rewrite <- (Z.add_0_r (0 + _)), <- fmap_add_seqZ, <- list_fmap_compose.
    unfold frames_of.
    apply Forall_fmap_ext_1, Forall_seqZ. intros i Hi.
    unfold compose, frame_at, b'.
    cbn [buffer bufferSize channelCount writeIndex readIndex].
    rewrite Z.add_0_l, <- (write_position b i) by done.
    pose proof (position_range b (writeIndex b + i) Hwf) as Hpos.
    apply frame_of_ext; [nia | nia |].
    intros c Hc. apply Hin; lia.
Qed.
End WriteQueue.

Lemma take_seqZ m n k : 0 <= k <= n -> take (Z.to_nat k) (seqZ m n) = seqZ m k.
Proof.
  intros H. replace n with (k + (n - k)) by lia.
  rewrite seqZ_app by lia.
  rewrite take_app_length'; [done|]. now rewrite length_seqZ.
Qed.

Lemma drop_seqZ m n k :
  0 <= k <= n -> drop (Z.to_nat k) (seqZ m n) = seqZ (m + k) (n - k).
Proof.
  intros H. replace n with (k + (n - k)) at 1 by lia.
  rewrite seqZ_app by lia.
  rewrite drop_app_length'; [done|]. now rewrite length_seqZ.
Qed.

Section ReadQueue.
Context {sample : Type}.
Variable silence : sample.
Implicit Types (b : AudioRingBuffer sample) (a dst src : list sample).

Lemma take_queued b n :
  0 <= n <= AudioRingBuffer_GetAvailableFrames (Ptr b) ->
  take (Z.to_nat n) (queued b) = frame_at b <$> seqZ 0 n.
Proof.
  intros H. unfold queued. now rewrite <- fmap_take, take_seqZ.
Qed.

(** The copy loop of read and peek: the [n] oldest frames go to the
    head of the caller's array, the rest of the array stays. *)
Lemma copy_out b dst n :
  wf b ->
  0 <= n <= AudioRingBuffer_GetAvailableFrames (Ptr b) ->
  valid_array dst n (channelCount b) ->
  copy_frames (buffer b)
    (fun i => usize (u32 (Z.land (u64 (readIndex b + i))
                            (u32 (bufferSize b - 1))) * channelCount b))
    (fun i => usize (i * channelCount b)) n (channelCount b) dst
  = Some (concat (take (Z.to_nat n) (queued b))
          ++ drop (Z.to_nat (n * channelCount b)) dst).
Proof.
  intros Hwf Hn [Hdst Hdstmax].
  pose proof (wf_size_range b Hwf) as Hcap.
  pose proof (available_range b Hwf) as Hav.
  pose proof Hwf as [[Hp Hle] HN Hlen Hbytes Hw Hr Havail].
  unfold sizeof_float in *.
  set (N := channelCount b) in *. set (cap := bufferSize b) in *.
  set (r := readIndex b) in *.
  rewrite (copy_frames_ext _ _ _ (fun i => (r + i) mod cap * N)
             (fun i => i * N)).
  2:{ intros i Hi. unfold cap. rewrite position_wf by done. fold cap.
      pose proof (position_range b (r + i) Hwf) as Hpos. fold cap in Hpos.
      split; apply usize_small; nia. }
  destruct (copy_frames_spec (buffer b) (fun i => (r + i) mod cap * N)
              (fun i => i * N) n N dst)
    as (dst1 & Hrun & Hlen' & Hin & Hout); try lia.
  - intros i Hi.
    pose proof (position_range b (r + i) Hwf) as Hpos. fold cap in Hpos.
    nia.
  - intros i Hi. nia.
  - intros i j Hi Hj. apply frame_disjoint; lia.
  - rewrite Hrun. f_equal.
    rewrite <- (take_drop (Z.to_nat (n * N)) dst1). f_equal.
    + rewrite <- concat_frames_of by lia.
      rewrite take_queued by lia. f_equal.
      apply Forall_fmap_ext_1, Forall_seqZ. intros i Hi.
      unfold frame_at. fold N cap r.
      pose proof (position_range b (r + i) Hwf) as Hpos. fold cap in Hpos.
      apply frame_of_ext; [nia | nia |].
      intros c Hc. apply Hin; lia.
    + apply load_ext. intros p Hp0. rewrite !load_drop by lia.
      apply Hout. intros i Hi. nia.
Qed.

(** Moving the read cursor [n] frames on removes the [n] oldest frames
    from the queue. *)
Lemma advance_read b n :
  wf b ->
  0 <= n <= AudioRingBuffer_GetAvailableFrames (Ptr b) ->
  let b' := mkAudioRingBuffer (buffer b) (bufferSize b) (channelCount b)
              (writeIndex b) (u64 (readIndex b + n)) in
  wf b'
  /\ AudioRingBuffer_GetAvailableFrames (Ptr b')
     = AudioRingBuffer_GetAvailableFrames (Ptr b) - n
  /\ queued b' = drop (Z.to_nat n) (queued b).
Proof.
  intros Hwf Hn b'.
  pose proof (wf_size_range b Hwf) as Hcap.
  pose proof (available_range b Hwf) as Hav.
  pose proof (available_wf b Hwf) as Haveq.
  assert (Hdist : u64 (writeIndex b - u64 (readIndex b + n))
                  = AudioRingBuffer_GetAvailableFrames (Ptr b) - n).
  { rewrite Haveq in *. rewrite u64_sub_r.
    replace (writeIndex b - (readIndex b + n))
      with (writeIndex b - readIndex b - n) by lia.
    rewrite <- u64_sub_l. apply u64_small. lia. }
  assert (Hwf' : wf b').
  { destruct Hwf.
    split; unfold b';
      cbn [buffer bufferSize channelCount writeIndex readIndex];
      try done.
    - apply u64_range.
    - rewrite Hdist. lia. }
  assert (Hav' : AudioRingBuffer_GetAvailableFrames (Ptr b')
                 = AudioRingBuffer_GetAvailableFrames (Ptr b) - n).
  { rewrite (available_wf b' Hwf'). exact Hdist. }
  split; [done|]. split; [done|].
  pose proof Hwf as [[Hp Hle] HN _ _ _ _ _].
  unfold queued. rewrite Hav', <- fmap_drop, drop_seqZ by lia.
  rewrite <- (Z.add_0_r (0 + n)), <- fmap_add_seqZ, <- list_fmap_compose.
  apply Forall_fmap_ext_1, Forall_seqZ. intros j Hj.
  unfold compose, frame_at, b'.
  cbn [buffer bufferSize channelCount writeIndex readIndex].
  f_equal. rewrite Z.add_0_l.
  rewrite Zplus_mod, mod_u64_pow2, <- Zplus_mod by done.
  f_equal. lia.
Qed.
End ReadQueue.

Lemma length_concat_seqZ {A : Type} (f : Z -> list A) n N :
  0 <= n -> 0 <= N ->
  (forall i, 0 <= i < n -> Z.of_nat (length (f i)) = N) ->
  Z.of_nat (length (concat (f <$> seqZ 0 n))) = n * N.
Proof.
  intros Hn HN. rewrite <- (Z2Nat.id n Hn).
  induction (Z.to_nat n) as [|k IH]; intros H; [done|].
  rewrite seqZ_S, fmap_app, concat_app, length_app. simpl.
  rewrite app_nil_r, Nat2Z.inj_add, IH by (intros; apply H; lia).
  rewrite H by lia. lia.
Qed.

Section ReadResult.
Context {sample : Type}.
Variable silence : sample.
Implicit Types (b : AudioRingBuffer sample) (a dst src : list sample).

Lemma length_frame_of N a i :
  0 <= N -> 0 <= i -> i * N + N <= Z.of_nat (length a) ->
  Z.of_nat (length (frame_of N a i)) = N.
Proof.
  intros HN Hi H. unfold frame_of.
  rewrite length_take, length_drop. nia.
Qed.

Lemma length_frame_at b j :
  wf b -> Z.of_nat (length (frame_at b j)) = channelCount b.
Proof.
  intros Hwf. pose proof (position_range b (readIndex b + j) Hwf).
  destruct Hwf. unfold frame_at. apply length_frame_of; nia.
Qed.

Lemma length_concat_queued b n :
  wf b -> 0 <= n <= AudioRingBuffer_GetAvailableFrames (Ptr b) ->
  Z.of_nat (length (concat (take (Z.to_nat n) (queued b))))
  = n * channelCount b.
Proof.
  intros Hwf Hn. rewrite take_queued by done.
  apply length_concat_seqZ; [lia | destruct Hwf; lia |].
  intros i _. now apply length_frame_at.
Qed.

Lemma read_cursor_0 b :
  wf b ->
  mkAudioRingBuffer (buffer b) (bufferSize b) (channelCount b)
    (writeIndex b) (u64 (readIndex b + 0)) = b.
Proof.
  intros Hwf. destruct Hwf. destruct b; simpl in *.
  now rewrite Z.add_0_r, u64_small by lia.
Qed.

(** What a read returns, hands out and leaves. *)
Lemma read_spec b dst frameCount :
  wf b -> 0 <= frameCount < 2 ^ 32 ->
  valid_array dst frameCount (channelCount b) ->
  let n := Z.min frameCount (AudioRingBuffer_GetAvailableFrames (Ptr b)) in
  AudioRingBuffer_Read silence (Ptr b) (Ptr dst) frameCount
  = Some (Ptr (mkAudioRingBuffer (buffer b) (bufferSize b) (channelCount b)
                 (writeIndex b) (u64 (readIndex b + n))),
          Ptr (concat (take (Z.to_nat n) (queued b))
               ++ replicate (Z.to_nat ((frameCount - n) * channelCount b))
                    silence
               ++ drop (Z.to_nat (frameCount * channelCount b)) dst),
          n).
Proof.
  intros Hwf Hfc [Hdst Hdstmax] n.
  pose proof (wf_size_range b Hwf) as Hcap.
  pose proof (available_range b Hwf) as Hav.
  assert (Hn : 0 <= n <= AudioRingBuffer_GetAvailableFrames (Ptr b)
               /\ n <= frameCount) by (unfold n; lia).
  pose proof Hwf as [[Hp Hle] HN Hlen Hbytes Hw Hr Havail].
  assert (Hbig : Z.of_nat (length dst) * 4 < 2 ^ 64) by exact Hdstmax.
  unfold AudioRingBuffer_Read.
  destruct (Z.eqb_spec frameCount 0) as [Hz|Hnz].
  { assert (n = 0) as -> by (unfold n; lia). subst frameCount.
    rewrite read_cursor_0 by done. simpl. done. }
  rewrite min_if. fold n. clearbody n.
  destruct (Z.eqb_spec n 0) as [Hz|Hnz'].
  { rewrite Hz, read_cursor_0 by done.
    rewrite (usize_small (frameCount * channelCount b)) by nia.
    rewrite (usize_small (_ * sizeof_float))
      by (unfold sizeof_float; nia).
    rewrite memset_zero_spec by nia. simpl.
    now rewrite Z.sub_0_r. }
  cbv zeta.
  change (for_loop (Z.to_nat n) 0 _ dst)
    with (copy_frames (buffer b)
            (fun i => usize (u32 (Z.land (u64 (readIndex b + i))
                                    (u32 (bufferSize b - 1)))
                             * channelCount b))
            (fun i => usize (i * channelCount b)) n (channelCount b) dst).
  rewrite copy_out; [|done|lia|split; unfold sizeof_float; nia].
  cbn [mbind option_bind].
  pose proof (length_concat_queued b n Hwf ltac:(lia)) as Hq.
  destruct (Z.ltb_spec n frameCount) as [Hlt|Hge].
  - assert (Hrem : 0 <= (frameCount - n) * channelCount b
                   /\ 0 <= n * channelCount b
                   /\ n * channelCount b + (frameCount - n) * channelCount b
                      = frameCount * channelCount b) by nia.
    rewrite (u32_small (frameCount - n)) by lia.
    rewrite (usize_small (n * channelCount b)) by lia.
    rewrite (usize_small ((frameCount - n) * channelCount b)) by lia.
    rewrite (usize_small (_ * sizeof_float))
      by (unfold sizeof_float; lia).
    rewrite memset_zero_spec; [| lia | lia |].
    2:{ rewrite length_app, length_drop. lia. }
    cbn [mbind option_bind]. do 3 f_equal.
    rewrite take_app_length', drop_app_ge, drop_drop by lia.
    replace (Z.to_nat (n * channelCount b)
             + (Z.to_nat (n * channelCount b
                          + (frameCount - n) * channelCount b)
                - length (concat (take (Z.to_nat n) (queued b)))))%nat
      with (Z.to_nat (frameCount * channelCount b)) by lia.
    done.
  - assert (n = frameCount) as Heq by lia.
    cbn [mbind option_bind]. rewrite Heq, Z.sub_diag. simpl. done.
Qed.
End ReadResult.

Section PeekSkipReset.
Context {sample : Type}.
Variable silence : sample.
Implicit Types (b : AudioRingBuffer sample) (a dst src : list sample).

(** What a peek returns and hands out. *)
Lemma peek_spec b dst frameCount :
  wf b -> 0 <= frameCount < 2 ^ 32 ->
  valid_array dst frameCount (channelCount b) ->
  let n := Z.min frameCount (AudioRingBuffer_GetAvailableFrames (Ptr b)) in
  AudioRingBuffer_Peek (Ptr b) (Ptr dst) frameCount
  = Some (Ptr b,
          Ptr (concat (take (Z.to_nat n) (queued b))
               ++ drop (Z.to_nat (n * channelCount b)) dst),
          n).
Proof.
  intros Hwf Hfc [Hdst Hdstmax] n.
  pose proof (available_range b Hwf) as Hav.
  assert (Hn : 0 <= n <= AudioRingBuffer_GetAvailableFrames (Ptr b)
               /\ n <= frameCount) by (unfold n; lia).
  pose proof Hwf as [_ HN _ _ _ _ _].
  unfold AudioRingBuffer_Peek.
  destruct (Z.eqb_spec frameCount 0) as [Hz|Hnz].
  { assert (n = 0) as -> by (unfold n; lia). done. }
  rewrite min_if. fold n. clearbody n.
  destruct (Z.eqb_spec n 0) as [Hz|Hnz']; [subst n; done|].
  cbv zeta.
  change (for_loop (Z.to_nat n) 0 _ dst)
    with (copy_frames (buffer b)
            (fun i => usize (u32 (Z.land (u64 (readIndex b + i))
                                    (u32 (bufferSize b - 1)))
                             * channelCount b))
            (fun i => usize (i * channelCount b)) n (channelCount b) dst).
  rewrite copy_out; [done|done|lia|split; [nia|done]].
Qed.

(** What a skip leaves. *)
Lemma skip_spec b frameCount :
  wf b -> 0 <= frameCount < 2 ^ 32 ->
  let n := Z.min frameCount (AudioRingBuffer_GetAvailableFrames (Ptr b)) in
  AudioRingBuffer_Skip (Ptr b) frameCount
  = Ptr (mkAudioRingBuffer (buffer b) (bufferSize b) (channelCount b)
           (writeIndex b) (u64 (readIndex b + n))).
Proof.
  intros Hwf Hfc n.
  pose proof (available_range b Hwf) as Hav.
  assert (Hn : 0 <= n) by (unfold n; lia).
  unfold AudioRingBuffer_Skip.
  destruct (Z.eqb_spec frameCount 0) as [Hz|Hnz].
  { assert (n = 0) as -> by (unfold n; lia).
    now rewrite read_cursor_0. }
  rewrite min_if. fold n. clearbody n.
  destruct (Z.ltb_spec 0 n) as [Hpos|Hz]; [done|].
  assert (n = 0) as -> by lia. now rewrite read_cursor_0.
Qed.

(** What a reset leaves. *)
Lemma reset_spec b :
  wf b ->
  AudioRingBuffer_Reset silence (Ptr b)
  = Some (Ptr (mkAudioRingBuffer
                 (replicate (Z.to_nat (bufferSize b * channelCount b))
                    silence)
                 (bufferSize b) (channelCount b) 0 0)).
Proof.
  intros Hwf. pose proof (wf_size_range b Hwf) as Hcap.
  destruct Hwf as [_ HN Hlen Hbytes _ _ _].
  unfold AudioRingBuffer_Reset. unfold sizeof_float in Hbytes.
  rewrite (usize_small (bufferSize b * channelCount b)) by nia.
  rewrite (usize_small (_ * sizeof_float)) by (unfold sizeof_float; nia).
  rewrite memset_zero_spec by nia.
  cbn [mbind option_bind]. do 3 f_equal.
  rewrite drop_ge by lia. simpl. now rewrite app_nil_r.
Qed.

Lemma wf_reset b :
  wf b ->
  wf (mkAudioRingBuffer
        (replicate (Z.to_nat (bufferSize b * channelCount b)) silence)
        (bufferSize b) (channelCount b) 0 0).
Proof.
  intros Hwf. pose proof (wf_size_range b Hwf) as Hcap.
  destruct Hwf as [Hsz HN Hlen Hbytes _ _ _].
  split; cbn [buffer bufferSize channelCount writeIndex readIndex];
    try done.
  - rewrite length_replicate. nia.
  - rewrite Z.sub_diag. unfold u64. rewrite Z.mod_0_l; lia.
Qed.

Lemma queued_empty b :
  AudioRingBuffer_GetAvailableFrames (Ptr b) = 0 -> queued b = [].
Proof. intros H. unfold queued. now rewrite H. Qed.
End PeekSkipReset.

(** ** The rounding loop *)

Lemma shift_pow2 k : 0 <= k < 31 -> u32 (Z.shiftl (2 ^ k) 1) = 2 ^ (k + 1).
Proof.
  intros Hk. rewrite Z.shiftl_mul_pow2, Z.pow_1_r by lia.
  rewrite Z.pow_add_r, Z.pow_1_r by lia.
  apply u32_small.
  assert (0 < 2 ^ k) by (apply Z.pow_pos_nonneg; lia).
  assert (2 ^ k <= 2 ^ 30) by (apply Z.pow_le_mono_r; lia). lia.
Qed.

(** From a power of two below which every power of two is too small, the
    loop ends on the smallest power of two that is large enough. *)
Lemma round_up_loop_ends fuel k req :
  0 <= k <= 31 -> req <= 2 ^ 31 -> 31 - k <= Z.of_nat fuel ->
  (k = 0 \/ 2 ^ (k - 1) < req) ->
  exists j, k <= j <= 31
    /\ round_up_loop fuel (2 ^ k) req = Some (2 ^ j)
    /\ req <= 2 ^ j /\ (j = 0 \/ 2 ^ (j - 1) < req).
Proof.
  revert k. induction fuel as [|fuel IH]; intros k Hk Hreq Hfuel Hlow.
  - assert (k = 31) as -> by lia. exists 31. simpl.
    destruct (Z.ltb_spec (2 ^ 31) req); [lia|]. repeat split; lia || done.
  - simpl. destruct (Z.ltb_spec (2 ^ k) req) as [Hlt|Hge].
    + assert (k < 31).
      { destruct (Z.lt_ge_cases k 31) as [|Hk31]; [done|].
        assert (k = 31) as -> by lia. lia. }
      rewrite shift_pow2 by lia.
      destruct (IH (k + 1)) as (j & Hj & Hrun & Hup & Hdown); try lia.
      { right. now replace (k + 1 - 1) with k by lia. }
      exists j. repeat split; lia || done.
    + exists k. repeat split; lia || done.
Qed.

Lemma round_up_smallest req j :
  0 <= j -> req <= 2 ^ j -> (j = 0 \/ 2 ^ (j - 1) < req) ->
  smallest_pow2_ge req (2 ^ j).
Proof.
  intros Hj Hup Hdown. split; [now apply is_pow2_pow|]. split; [done|].
  intros p Hp Hreq. pose proof (is_pow2_pos p Hp) as Hpos.
  destruct Hdown as [->|Hdown]; [simpl; lia|].
  unfold is_pow2 in Hp. rewrite Hp in *.
  pose proof (Z.log2_nonneg p) as Hl.
  apply Z.pow_le_mono_r; [lia|].
  assert (j - 1 < Z.log2 p); [|lia].
  apply (Z.pow_lt_mono_r_iff 2); lia.
Qed.

(** From 1, the loop ends on the smallest power of two that is at least
    the request, if the request is at most [2^31]. *)
Lemma round_up_loop_spec fuel req :
  req <= 2 ^ 31 -> (31 <= fuel)%nat ->
  exists c, round_up_loop fuel 1 req = Some c
    /\ smallest_pow2_ge req c /\ c <= 2 ^ 31.
Proof.
  intros Hreq Hfuel.
  destruct (round_up_loop_ends fuel 0 req) as (j & Hj & Hrun & Hup & Hdown);
    try lia.
  exists (2 ^ j). split; [exact Hrun|]. split.
  - apply round_up_smallest; lia || done.
  - apply Z.pow_le_mono_r; lia.
Qed.

(** Above [2^31] the loop never ends: the size wraps to 0 and stays
    there. *)
Lemma round_up_loop_diverges fuel p req :
  2 ^ 31 < req -> (p = 0 \/ exists k, 0 <= k <= 31 /\ p = 2 ^ k) ->
  round_up_loop fuel p req = None.
Proof.
  intros Hreq. revert p. induction fuel as [|fuel IH]; intros p Hp.
  - simpl. destruct (Z.ltb_spec p req) as [|Hge]; [done|].
    destruct Hp as [->|(k & Hk & ->)]; [lia|].
    assert (2 ^ k <= 2 ^ 31) by (apply Z.pow_le_mono_r; lia). lia.
  - simpl. destruct (Z.ltb_spec p req) as [Hlt|Hge].
    + apply IH. destruct Hp as [->|(k & Hk & ->)]; [now left|].
      destruct (Z.eq_dec k 31) as [->|Hne].
      * left. reflexivity.
      * right. exists (k + 1). split; [lia|]. apply shift_pow2. lia.
    + destruct Hp as [->|(k & Hk & ->)]; [lia|].
      assert (2 ^ k <= 2 ^ 31) by (apply Z.pow_le_mono_r; lia). lia.
Qed.

Section Creation.
Context {sample : Type}.
Variable silence : sample.

(** The struct that [AudioRingBuffer_Create] sets up. *)
Lemma wf_fresh c N :
  is_pow2 c -> c <= 2 ^ 31 -> 0 <= N < 2 ^ 32 ->
  c * N * sizeof_float < 2 ^ 64 ->
  wf (mkAudioRingBuffer (replicate (Z.to_nat (c * N)) silence) c N 0 0).
Proof.
  intros Hp Hle HN Hbytes. pose proof (is_pow2_pos c Hp).
  split; cbn [buffer bufferSize channelCount writeIndex readIndex];
    try done.
  - rewrite length_replicate. nia.
  - rewrite Z.sub_diag. unfold u64. rewrite Z.mod_0_l; lia.
Qed.

Lemma create_spec alloc fuel req N :
  0 <= req <= 2 ^ 31 -> 0 <= N < 2 ^ 32 -> (31 <= fuel)%nat ->
  exists c,
    smallest_pow2_ge req c /\ c <= 2 ^ 31
    /\ AudioRingBuffer_Create silence alloc fuel req N
       = Some (if alloc sizeof_AudioRingBuffer
                  && (c * N * sizeof_float <? 2 ^ 64)
                  && alloc (c * N * sizeof_float)
               then Ptr (mkAudioRingBuffer
                           (replicate (Z.to_nat (c * N)) silence) c N 0 0)
               else NULL).
Proof.
  intros Hreq HN Hfuel.
  destruct (round_up_loop_spec fuel req) as (c & Hrun & Hsm & Hle);
    [lia | done |].
  exists c. split; [done|]. split; [done|].
  pose proof (is_pow2_pos c (proj1 Hsm)) as Hpos.
  unfold AudioRingBuffer_Create. rewrite Hrun.
  destruct (alloc sizeof_AudioRingBuffer); [|done]. simpl negb. cbv iota.
  rewrite (usize_small (c * N)) by nia.
  unfold calloc.
  destruct ((c * N * sizeof_float <? 2 ^ 64)
            && alloc (c * N * sizeof_float)) eqn:Hc.
  - rewrite andb_true_l, Hc. done.
  - rewrite andb_true_l, Hc. done.
Qed.

(** A request above [2^31] frames: once the struct is allocated the
    call never returns. *)
Lemma create_diverges alloc fuel req N :
  2 ^ 31 < req -> alloc sizeof_AudioRingBuffer = true ->
  AudioRingBuffer_Create silence alloc fuel req N = None.
Proof.
  intros Hreq Halloc. unfold AudioRingBuffer_Create. rewrite Halloc.
  simpl negb. cbv iota.
  rewrite round_up_loop_diverges; [done | done |].
  right. exists 0. split; [lia | done].
Qed.
End Creation.

Lemma round_up_loop_more fuel k p req c :
  round_up_loop fuel p req = Some c ->
  round_up_loop (fuel + k) p req = Some c.
Proof.
  revert p. induction fuel as [|fuel IH]; intros p; simpl.
  - destruct (p <? req) eqn:Hlt; [done|].
    intros [= <-]. destruct k; simpl; now rewrite Hlt.
  - destruct (p <? req); [apply IH | done].
Qed.

(** Whatever the fuel, a loop that ends started from a request of at
    most [2^31] and ends on the smallest power of two that fits. *)
Lemma round_up_loop_result fuel req c :
  0 <= req < 2 ^ 32 ->
  round_up_loop fuel 1 req = Some c ->
  req <= 2 ^ 31 /\ smallest_pow2_ge req c /\ c <= 2 ^ 31.
Proof.
  intros Hreq Hrun.
  destruct (Z.le_gt_cases req (2 ^ 31)) as [Hle|Hgt].
  - split; [done|].
    destruct (round_up_loop_spec (fuel + 31) req) as (c' & Hrun' & H');
      [done | lia |].
    rewrite (round_up_loop_more fuel 31 1 req c Hrun) in Hrun'.
    now injection Hrun' as <-.
  - rewrite round_up_loop_diverges in Hrun; [done | lia |].
    right. exists 0. split; [lia | done].
Qed.

Section Shapes.
Context {sample : Type}.
Variable silence : sample.
Implicit Types (b : AudioRingBuffer sample) (a dst src mem : list sample).

(** What [AudioRingBuffer_Create] returns, when it returns a buffer. *)
Lemma create_shape alloc fuel req N b :
  0 <= req < 2 ^ 32 -> 0 <= N < 2 ^ 32 ->
  AudioRingBuffer_Create silence alloc fuel req N = Some (Ptr b) ->
  wf b /\ smallest_pow2_ge req (bufferSize b) /\ channelCount b = N
  /\ writeIndex b = 0 /\ readIndex b = 0
  /\ buffer b = replicate (Z.to_nat (bufferSize b * N)) silence.
Proof.
  intros Hreq HN. unfold AudioRingBuffer_Create.
  destruct (alloc sizeof_AudioRingBuffer); [|done]. simpl negb. cbv iota.
  destruct (round_up_loop fuel 1 req) as [c|] eqn:Hrun; [|done].
  destruct (round_up_loop_result fuel req c Hreq Hrun) as (_ & Hsm & Hle).
  pose proof (is_pow2_pos c (proj1 Hsm)) as Hpos.
  rewrite (usize_small (c * N)) by nia. unfold calloc.
  destruct (Z.ltb_spec (c * N * sizeof_float) (2 ^ 64)) as [Hb|];
    [|done].
  destruct (alloc (c * N * sizeof_float)); [|done].
  cbn [andb]. intros [= <-].
  cbn [buffer bufferSize channelCount writeIndex readIndex].
  split; [|done]. apply wf_fresh; done || apply Hsm.
Qed.

(** The struct after a write with new store [mem] and [n] more frames. *)
Lemma wf_write_cursor b mem n :
  wf b -> 0 <= n <= AudioRingBuffer_GetFreeFrames (Ptr b) ->
  length mem = length (buffer b) ->
  let b' := mkAudioRingBuffer mem (bufferSize b) (channelCount b)
              (u64 (writeIndex b + n)) (readIndex b) in
  wf b'
  /\ AudioRingBuffer_GetAvailableFrames (Ptr b')
     = AudioRingBuffer_GetAvailableFrames (Ptr b) + n.
Proof.
  intros Hwf Hn Hlen b'.
  pose proof (wf_size_range b Hwf) as Hcap.
  pose proof (available_range b Hwf) as Hav.
  pose proof (available_wf b Hwf) as Haveq.
  rewrite (free_wf b Hwf) in Hn.
  assert (Hdist : u64 (u64 (writeIndex b + n) - readIndex b)
                  = AudioRingBuffer_GetAvailableFrames (Ptr b) + n).
  { rewrite Haveq in *. rewrite u64_sub_l.
    replace (writeIndex b + n - readIndex b)
      with (writeIndex b - readIndex b + n) by lia.
    rewrite <- u64_add_l. apply u64_small. lia. }
  assert (Hwf' : wf b').
  { destruct Hwf.
    split; unfold b';
      cbn [buffer bufferSize channelCount writeIndex readIndex];
      try done.
    - lia.
    - apply u64_range.
    - rewrite Hdist. lia. }
  split; [done|]. rewrite (available_wf b' Hwf'). exact Hdist.
Qed.

(** What a write that returns leaves, whatever its data. *)
Lemma write_shape b data frameCount b' n :
  wf b -> 0 <= frameCount < 2 ^ 32 ->
  AudioRingBuffer_Write (Ptr b) data frameCount = Some (Ptr b', n) ->
  0 <= n <= AudioRingBuffer_GetFreeFrames (Ptr b)
  /\ exists mem,
       length mem = length (buffer b)
       /\ b' = mkAudioRingBuffer mem (bufferSize b) (channelCount b)
                 (u64 (writeIndex b + n)) (readIndex b).
Proof.
  intros Hwf Hfc.
  pose proof (available_range b Hwf) as Hav.
  pose proof (free_wf b Hwf) as Hfree.
  assert (Hsame : Some (Ptr b, 0) = Some (Ptr b', n) ->
    0 <= n <= AudioRingBuffer_GetFreeFrames (Ptr b)
    /\ exists mem,
         length mem = length (buffer b)
         /\ b' = mkAudioRingBuffer mem (bufferSize b) (channelCount b)
                   (u64 (writeIndex b + n)) (readIndex b)).
  { intros [= <- <-]. split; [lia|]. exists (buffer b). split; [done|].
    destruct Hwf. destruct b; simpl in *.
    now rewrite Z.add_0_r, u64_small by lia. }
  unfold AudioRingBuffer_Write. destruct data as [|src]; [done|].
  destruct (Z.eqb_spec frameCount 0); [done|].
  rewrite min_if.
  set (k := Z.min frameCount (AudioRingBuffer_GetFreeFrames (Ptr b))).
  assert (Hk : 0 <= k <= AudioRingBuffer_GetFreeFrames (Ptr b))
    by (unfold k; lia).
  clearbody k. destruct (Z.eqb_spec k 0); [done|]. cbv zeta.
  change (for_loop (Z.to_nat k) 0 _ (buffer_ b))
    with (copy_frames src (fun i => usize (i * channelCount b))
            (fun i => usize (u32 (Z.land (u64 (writeIndex b + i))
                                    (u32 (bufferSize b - 1)))
                             * channelCount b))
            k (channelCount b) (buffer b)).
  destruct (copy_frames _ _ _ _ _ _) as [mem|] eqn:Hrun; [|done].
  cbn [mbind option_bind]. intros [= <- <-].
  split; [done|]. exists mem. split; [|done].
  now apply copy_frames_length in Hrun.
Qed.

(** What a read that returns leaves, whatever its array. *)
Lemma read_shape b data frameCount b' data' n :
  wf b -> 0 <= frameCount < 2 ^ 32 ->
  AudioRingBuffer_Read silence (Ptr b) data frameCount
  = Some (Ptr b', data', n) ->
  0 <= n <= AudioRingBuffer_GetAvailableFrames (Ptr b)
  /\ b' = mkAudioRingBuffer (buffer b) (bufferSize b) (channelCount b)
            (writeIndex b) (u64 (readIndex b + n)).
Proof.
  intros Hwf Hfc.
  pose proof (available_range b Hwf) as Hav.
  assert (Hsame : forall d, Some (Ptr b, d, 0) = Some (Ptr b', data', n) ->
    0 <= n <= AudioRingBuffer_GetAvailableFrames (Ptr b)
    /\ b' = mkAudioRingBuffer (buffer b) (bufferSize b) (channelCount b)
              (writeIndex b) (u64 (readIndex b + n))).
  { intros d [= <- _ <-]. split; [lia|]. now rewrite read_cursor_0. }
  unfold AudioRingBuffer_Read. destruct data as [|dst]; [apply Hsame|].
  destruct (Z.eqb_spec frameCount 0); [apply Hsame|].
  rewrite min_if.
  set (k := Z.min frameCount (AudioRingBuffer_GetAvailableFrames (Ptr b))).
  assert (Hk : 0 <= k <= AudioRingBuffer_GetAvailableFrames (Ptr b))
    by (unfold k; lia).
  clearbody k. destruct (Z.eqb_spec k 0).
  { destruct (memset_zero _ _ _ _); [apply Hsame | done]. }
  cbv zeta. destruct (for_loop _ _ _ _) as [dst1|]; [|done].
  cbn [mbind option_bind].
  destruct (if k <? frameCount then _ else _) as [dst2|]; [|done].
  cbn [mbind option_bind]. intros [= <- _ <-]. done.
Qed.

(** A peek that returns leaves the struct as it is. *)
Lemma peek_shape (p : pointer (AudioRingBuffer sample)) data frameCount
  p' data' n :
  AudioRingBuffer_Peek p data frameCount = Some (p', data', n) -> p' = p.
Proof.
  unfold AudioRingBuffer_Peek.
  destruct p as [|b]; [now intros [= <- _ _]|].
  destruct data as [|dst]; [now intros [= <- _ _]|].
  destruct (frameCount =? 0); [now intros [= <- _ _]|].
  destruct (_ =? 0); [now intros [= <- _ _]|].
  cbv zeta. destruct (for_loop _ _ _ _) as [dst1|]; [|done].
  cbn [mbind option_bind]. now intros [= <- _ _].
Qed.
End Shapes.

Section Refinement.
Context {sample : Type}.
Variable silence : sample.
Implicit Types (b : AudioRingBuffer sample) (a dst src mem : list sample).

(** One write of the code is one write of the queue of the design. *)
Lemma write_refines b data frameCount :
  wf b -> 0 <= frameCount < 2 ^ 32 ->
  valid_array data frameCount (channelCount b) ->
  exists b',
    AudioRingBuffer_Write (Ptr b) (Ptr data) frameCount
    = Some (Ptr b',
            (fifo_write (bufferSize b) (channelCount b) (queued b)
               data frameCount).2)
    /\ wf b'
    /\ bufferSize b' = bufferSize b /\ channelCount b' = channelCount b
    /\ queued b'
       = (fifo_write (bufferSize b) (channelCount b) (queued b)
            data frameCount).1.
Proof.
  intros Hwf Hfc Hdata.
  destruct (write_queue b data frameCount Hwf Hfc Hdata)
    as (b' & Hrun & Hwf' & Hsz & Hch & _ & _ & _ & Hq).
  exists b'. unfold fifo_write. cbn [fst snd].
  rewrite length_queued_wf, <- free_wf by done. done.
Qed.

(** One read of the code is one read of the queue of the design. *)
Lemma read_refines b data frameCount :
  wf b -> 0 <= frameCount < 2 ^ 32 ->
  valid_array data frameCount (channelCount b) ->
  exists b',
    AudioRingBuffer_Read silence (Ptr b) (Ptr data) frameCount
    = Some (Ptr b',
            Ptr (fifo_read silence (channelCount b) (queued b)
                   data frameCount).1.2,
            (fifo_read silence (channelCount b) (queued b)
               data frameCount).2)
    /\ wf b'
    /\ bufferSize b' = bufferSize b /\ channelCount b' = channelCount b
    /\ queued b'
       = (fifo_read silence (channelCount b) (queued b)
            data frameCount).1.1.
Proof.
  intros Hwf Hfc Hdata.
  pose proof (available_range b Hwf) as Hav.
  destruct (advance_read b
              (Z.min frameCount (AudioRingBuffer_GetAvailableFrames (Ptr b)))
              Hwf ltac:(lia)) as (Hwf' & _ & Hq).
  eexists. rewrite (read_spec silence b data frameCount Hwf Hfc Hdata).
  unfold fifo_read. cbn [fst snd].
  rewrite length_queued_wf by done. done.
Qed.

(** Every sequence of calls of the code is the same sequence on the
    queue of the design. *)
Lemma run_refines cs : forall b,
  wf b -> Forall (call_ok (channelCount b)) cs ->
  exists b',
    run silence (Ptr b) cs
    = Some (Ptr b',
            (fifo_run silence (bufferSize b) (channelCount b) (queued b)
               cs).2)
    /\ wf b'
    /\ bufferSize b' = bufferSize b /\ channelCount b' = channelCount b
    /\ queued b'
       = (fifo_run silence (bufferSize b) (channelCount b) (queued b)
            cs).1.
Proof.
  induction cs as [|c cs IH]; intros b Hwf Hok.
  - exists b. simpl. done.
  - apply Forall_cons in Hok as [Hc Hok].
    destruct c as [data frameCount|data frameCount];
      destruct Hc as [Hfc Hdata].
    + destruct (write_refines b data frameCount Hwf Hfc Hdata)
        as (b1 & Hrun & Hwf1 & Hsz & Hch & Hq).
      destruct (IH b1 Hwf1) as (b2 & Hrun2 & Hwf2 & Hsz2 & Hch2 & Hq2).
      { now rewrite Hch. }
      rewrite Hsz, Hch, Hq in *.
      exists b2. cbn [run fifo_run]. rewrite Hrun.
      cbn [mbind option_bind]. rewrite Hrun2.
      cbn [mbind option_bind].
      destruct (fifo_write _ _ _ _ _) as [q1 n1].
      destruct (fifo_run _ _ _ _ _) as [q2 obs]. done.
    + destruct (read_refines b data frameCount Hwf Hfc Hdata)
        as (b1 & Hrun & Hwf1 & Hsz & Hch & Hq).
      destruct (IH b1 Hwf1) as (b2 & Hrun2 & Hwf2 & Hsz2 & Hch2 & Hq2).
      { now rewrite Hch. }
      rewrite Hsz, Hch, Hq in *.
      exists b2. cbn [run fifo_run]. rewrite Hrun.
      cbn [mbind option_bind]. rewrite Hrun2.
      cbn [mbind option_bind].
      destruct (fifo_read _ _ _ _ _) as [[q1 d1] n1].
      destruct (fifo_run _ _ _ _ _) as [q2 obs]. done.
Qed.
End Refinement.

(** ** The C++ class does what the C interface does *)

Section CppSim.
Context {sample : Type}.
Variable silence : sample.
Implicit Types (this : Cpp.AudioRingBuffer sample) (data : list sample).

Lemma of_c_to_c this : CppView.of_c (Cpp.mBufferMask this) (CppView.to_c this) = this.
Proof. now destruct this. Qed.

Lemma cpp_available this :
  Cpp.availableFrames this
  = AudioRingBuffer_GetAvailableFrames (Ptr (CppView.to_c this)).
Proof. done. Qed.

Lemma cpp_free this :
  Cpp.freeFrames this
  = AudioRingBuffer_GetFreeFrames (Ptr (CppView.to_c this)).
Proof. done. Qed.

Lemma cpp_write this data frameCount :
  Cpp.mBufferMask this = u32 (Cpp.mBufferSize this - 1) ->
  Cpp.write this data frameCount
  = match AudioRingBuffer_Write (Ptr (CppView.to_c this)) (Ptr data)
            frameCount with
    | Some (Ptr b', n) => Some (CppView.of_c (Cpp.mBufferMask this) b', n)
    | _ => None
    end.
Proof.
  intros Hmask. unfold Cpp.write, AudioRingBuffer_Write.
  rewrite cpp_free.
  set (free := AudioRingBuffer_GetFreeFrames _).
  assert (Hfree : 0 <= free) by apply u32_range.
  destruct (Z.eqb_spec frameCount 0) as [->|Hnz].
  { destruct (Z.ltb_spec 0 free); simpl.
    - now rewrite of_c_to_c.
    - assert (free = 0) as -> by lia. simpl. now rewrite of_c_to_c. }
  destruct (_ =? 0); [now rewrite of_c_to_c|].
  cbv zeta. rewrite Hmask.
  cbn [CppView.to_c buffer bufferSize channelCount writeIndex readIndex].
  destruct (for_loop _ _ _ _) as [mem|]; done.
Qed.

Lemma cpp_read this data frameCount :
  Cpp.mBufferMask this = u32 (Cpp.mBufferSize this - 1) ->
  Cpp.read silence this data frameCount
  = match AudioRingBuffer_Read silence (Ptr (CppView.to_c this)) (Ptr data)
            frameCount with
    | Some (Ptr b', Ptr data', n) =>
        Some (CppView.of_c (Cpp.mBufferMask this) b', data', n)
    | _ => None
    end.
Proof.
  intros Hmask. unfold Cpp.read, AudioRingBuffer_Read.
  rewrite cpp_available.
  set (avail := AudioRingBuffer_GetAvailableFrames _).
  assert (Havail : 0 <= avail) by apply u32_range.
  destruct (Z.eqb_spec frameCount 0) as [->|Hnz].
  { assert ((if 0 <? avail then 0 else avail) = 0) as ->
      by (destruct (Z.ltb_spec 0 avail); lia).
    simpl. change (u64 0 * sizeof_float) with 0. unfold usize.
    change (u64 0) with 0. rewrite memset_zero_0. simpl.
    now rewrite of_c_to_c. }
  destruct (_ =? 0).
  { cbn [CppView.to_c channelCount].
    destruct (memset_zero _ _ _ _); simpl; [now rewrite of_c_to_c | done]. }
  cbv zeta. rewrite Hmask.
  cbn [CppView.to_c buffer bufferSize channelCount writeIndex readIndex].
  destruct (for_loop _ _ _ _) as [dst1|]; [|done].
  cbn [mbind option_bind].
  destruct (if _ <? frameCount then _ else _); done.
Qed.

Lemma cpp_reset this :
  Cpp.reset silence this
  = match AudioRingBuffer_Reset silence (Ptr (CppView.to_c this)) with
    | Some (Ptr b') => Some (CppView.of_c (Cpp.mBufferMask this) b')
    | _ => None
    end.
Proof.
  unfold Cpp.reset, AudioRingBuffer_Reset.
  cbn [CppView.to_c buffer bufferSize channelCount writeIndex readIndex].
  destruct (memset_zero _ _ _ _); done.
Qed.

Lemma to_c_object (b : AudioRingBuffer sample) :
  CppView.to_c (CppView.object b) = b.
Proof. now destruct b. Qed.

Lemma wf_object (b : AudioRingBuffer sample) :
  wf b -> CppView.wf (CppView.object b).
Proof. intros H. split; [now rewrite to_c_object | done]. Qed.

Lemma object_to_c this :
  Cpp.mBufferMask this = u32 (Cpp.mBufferSize this - 1) ->
  CppView.object (CppView.to_c this) = this.
Proof. intros H. destruct this; simpl in *. now subst. Qed.
End CppSim.

Section ReachableStates.
Context {sample : Type}.
Variable silence : sample.
Implicit Types (b : AudioRingBuffer sample) (a dst src mem : list sample).

(** With cursors that have not wrapped, the count of the code is the
    difference of the cursors. *)
Lemma available_cursor_inv b :
  wf b -> cursor_inv b ->
  AudioRingBuffer_GetAvailableFrames (Ptr b) = writeIndex b - readIndex b.
Proof.
  intros Hwf [Hle Hcap]. rewrite available_wf by done.
  destruct Hwf. apply u64_small. lia.
Qed.

Lemma cursor_inv_advance_read b n :
  wf b -> cursor_inv b ->
  0 <= n <= AudioRingBuffer_GetAvailableFrames (Ptr b) ->
  cursor_inv (mkAudioRingBuffer (buffer b) (bufferSize b) (channelCount b)
                (writeIndex b) (u64 (readIndex b + n))).
Proof.
  intros Hwf Hinv Hn. rewrite available_cursor_inv in Hn by done.
  destruct Hinv as [Hle Hcap]. destruct Hwf.
  unfold cursor_inv.
  cbn [buffer bufferSize channelCount writeIndex readIndex].
  rewrite u64_small by lia. lia.
Qed.

(** The states of a buffer in use. *)
Lemma reachable_inv N W b :
  reachable silence N W b ->
  wf b /\ channelCount b = N /\ 0 <= W
  /\ (W < 2 ^ 64 -> writeIndex b <= W /\ cursor_inv b).
Proof.
  induction 1 as
    [ alloc fuel req b Hreq HN Hrun
    | W b b' _ (Hwf & Hch & HW & Hinv) Hrun
    | W b data frameCount b' n _ (Hwf & Hch & HW & Hinv) Hfc Hrun
    | W b data frameCount b' data' n _ (Hwf & Hch & HW & Hinv) Hfc Hrun
    | W b data frameCount b' data' n _ (Hwf & Hch & HW & Hinv) Hfc Hrun
    | W b frameCount b' _ (Hwf & Hch & HW & Hinv) Hfc Hrun ].
  - destruct (create_shape silence alloc fuel req N b Hreq HN Hrun)
      as (Hwf & _ & Hch & Hw & Hr & _).
    split; [done|]. split; [done|]. split; [lia|].
    intros _. unfold cursor_inv. rewrite Hw, Hr.
    pose proof (wf_size_range b Hwf). lia.
  - rewrite reset_spec in Hrun by done. injection Hrun as <-.
    split; [now apply wf_reset|]. split; [done|]. split; [done|].
    intros _. unfold cursor_inv.
    cbn [buffer bufferSize channelCount writeIndex readIndex].
    pose proof (wf_size_range b Hwf). lia.
  - destruct (write_shape b data frameCount b' n Hwf Hfc Hrun)
      as (Hn & mem & Hlen & ->).
    destruct (wf_write_cursor b mem n Hwf Hn Hlen) as [Hwf' _].
    split; [done|]. split; [done|]. split; [lia|].
    intros HW'. destruct Hinv as [Hw Hinv]; [lia|].
    rewrite free_wf, available_cursor_inv in Hn by done.
    destruct Hinv as [Hle Hcap].
    unfold cursor_inv.
    cbn [buffer bufferSize channelCount writeIndex readIndex].
    destruct Hwf. rewrite u64_small by lia. lia.
  - destruct (read_shape silence b data frameCount b' data' n Hwf Hfc Hrun)
      as (Hn & ->).
    destruct (advance_read b n Hwf Hn) as (Hwf' & _).
    split; [done|]. split; [done|]. split; [done|].
    intros HW'. destruct (Hinv HW') as [Hw Hc]. split; [done|].
    now apply cursor_inv_advance_read.
  - apply peek_shape in Hrun. injection Hrun as ->. done.
  - pose proof (available_range b Hwf) as Hav.
    rewrite skip_spec in Hrun by done. injection Hrun as <-.
    destruct (advance_read b
                (Z.min frameCount
                   (AudioRingBuffer_GetAvailableFrames (Ptr b)))
                Hwf ltac:(lia)) as (Hwf' & _).
    split; [done|]. split; [done|]. split; [done|].
    intros HW'. destruct (Hinv HW') as [Hw Hc]. split; [done|].
    apply cursor_inv_advance_read; [done | done |].
    change (u32 (u64 (writeIndex b - readIndex b)))
      with (AudioRingBuffer_GetAvailableFrames (Ptr b)).
    lia.
Qed.
End ReachableStates.

(** ** A buffer of one frame, used [2^64] times *)

Section Spin.
(** One frame of one channel in, the same frame out: both cursors move
    on by one. *)
Lemma spin_step (b : AudioRingBuffer Z) W :
  reachable 0 1 W b ->
  bufferSize b = 1 -> readIndex b = writeIndex b ->
  exists b1 b2,
    reachable 0 1 (W + 1) b1
    /\ bufferSize b1 = 1 /\ readIndex b1 = readIndex b
    /\ writeIndex b1 = u64 (writeIndex b + 1)
    /\ reachable 0 1 (W + 1) b2
    /\ bufferSize b2 = 1 /\ readIndex b2 = u64 (readIndex b + 1)
    /\ writeIndex b2 = u64 (writeIndex b + 1).
Proof.
  intros Hreach Hsz Heq.
  destruct (reachable_inv 0 1 W b Hreach) as (Hwf & Hch & _).
  assert (Hav : AudioRingBuffer_GetAvailableFrames (Ptr b) = 0).
  { rewrite available_wf, Heq, Z.sub_diag by done. reflexivity. }
  assert (Hdata : valid_array [0] 1 (channelCount b)).
  { rewrite Hch. split; simpl; unfold sizeof_float; lia. }
  destruct (write_queue b [0] 1 Hwf ltac:(lia) Hdata)
    as (b1 & Hrun1 & Hwf1 & Hsz1 & Hch1 & Hr1 & Hw1 & Hav1 & _).
  rewrite free_wf, Hav, Hsz in Hrun1, Hw1, Hav1 by done.
  change (Z.min 1 (1 - 0)) with 1 in Hrun1, Hw1, Hav1.
  assert (Hreach1 : reachable 0 1 (W + 1) b1).
  { eapply reach_write; [exact Hreach | | exact Hrun1]. lia. }
  assert (Hdata1 : valid_array [0] 1 (channelCount b1))
    by now rewrite Hch1.
  pose proof (read_spec 0 b1 [0] 1 Hwf1 ltac:(lia) Hdata1) as Hrun2.
  rewrite Hav1 in Hrun2. change (Z.min 1 (0 + 1)) with 1 in Hrun2.
  eexists b1, _. split; [done|]. split; [lia|]. split; [done|].
  split; [done|]. split.
  { eapply reach_read; [exact Hreach1 | | exact Hrun2]. lia. }
  cbn [buffer bufferSize channelCount writeIndex readIndex].
  split; [lia|]. split; [now rewrite Hr1 | done].
Qed.

Lemma spin (k : Z) :
  0 <= k < 2 ^ 64 ->
  exists b : AudioRingBuffer Z,
    reachable 0 1 k b
    /\ bufferSize b = 1 /\ readIndex b = k /\ writeIndex b = k.
Proof.
  intros [Hk Hlt]. revert Hlt. pattern k. apply natlike_ind; [| |exact Hk].
  - intros _. exists (mkAudioRingBuffer [0] 1 1 0 0). split; [|done].
    apply (reach_create 0 1 (fun _ => true) 31 1); [lia | lia | reflexivity].
  - clear k Hk. intros k Hk IH Hlt.
    destruct IH as (b & Hreach & Hsz & Hr & Hw); [lia|].
    destruct (spin_step b k Hreach Hsz) as
      (_ & b2 & _ & _ & _ & _ & Hreach2 & Hsz2 & Hr2 & Hw2);
      [congruence|].
    exists b2. rewrite Hr in Hr2. rewrite Hw in Hw2.
    rewrite u64_small in Hr2, Hw2 by lia.
    replace (Z.succ k) with (k + 1) by lia. done.
Qed.

(** After [2^64 - 1] frames through a buffer of one frame, one more
    write wraps the write cursor to 0. *)
Lemma spin_wraps :
  exists b : AudioRingBuffer Z,
    reachable 0 1 (2 ^ 64) b
    /\ writeIndex b = 0 /\ readIndex b = 2 ^ 64 - 1.
Proof.
  destruct (spin (2 ^ 64 - 1)) as (b & Hreach & Hsz & Hr & Hw); [lia|].
  destruct (spin_step b (2 ^ 64 - 1) Hreach Hsz) as
    (b1 & _ & Hreach1 & _ & Hr1 & Hw1 & _); [congruence|].
  exists b1. split; [exact Hreach1|].
  rewrite Hw in Hw1. rewrite Hr in Hr1. split; [|done].
  rewrite Hw1. reflexivity.
Qed.
End Spin.

(** * The properties of the specification *)

Section QueueClaims.
Context {sample : Type}.
Variable silence : sample.
Implicit Types (b : AudioRingBuffer sample) (a dst src mem : list sample).

Lemma load_frame_of N a i c :
  0 <= N -> 0 <= i -> 0 <= c < N ->
  load (frame_of N a i) c = load a (i * N + c).
Proof.
  intros HN Hi Hc. unfold frame_of.
  rewrite load_take, load_drop by lia.
  destruct (Z.ltb_spec c (Z.of_nat (Z.to_nat N))); [|lia].
  f_equal. nia.
Qed.

Lemma take_frames_of N a n :
  0 <= n -> take (Z.to_nat n) (frames_of N a n) = frames_of N a n.
Proof.
  intros Hn. apply take_ge. rewrite length_frames_of. lia.
Qed.

(** C1. FIFO correctness.  From every state of a live buffer, whatever
    its channel count, every sequence of write and read calls on one
    thread returns what the same calls return on the queue of the
    design, a first-in first-out queue of frames holding the frames
    written and not yet read: each read hands out the oldest frames in
    the order they were written and sample for sample, also after the
    cursors have gone around the store any number of times.  Frame [i],
    channel [c] of an array is its sample [i*N + c].  In particular [W]
    frames, [W] at most the capacity, written to an empty buffer and
    read back at once come back as they were. *)
Theorem fifo_correctness b :
  wf b ->
  (forall cs, Forall (call_ok (channelCount b)) cs ->
     exists b',
       run silence (Ptr b) cs
       = Some (Ptr b',
               (fifo_run silence (bufferSize b) (channelCount b)
                  (queued b) cs).2)
       /\ queued b'
          = (fifo_run silence (bufferSize b) (channelCount b)
               (queued b) cs).1)
  /\ (forall a i c, 0 <= i -> 0 <= c < channelCount b ->
        load (frame_of (channelCount b) a i) c
        = load a (i * channelCount b + c))
  /\ (forall data out W,
        AudioRingBuffer_GetAvailableFrames (Ptr b) = 0 ->
        0 <= W <= bufferSize b ->
        valid_array data W (channelCount b) ->
        valid_array out W (channelCount b) ->
        exists b1 b2,
          AudioRingBuffer_Write (Ptr b) (Ptr data) W = Some (Ptr b1, W)
          /\ AudioRingBuffer_Read silence (Ptr b1) (Ptr out) W
             = Some (Ptr b2,
                     Ptr (take (Z.to_nat (W * channelCount b)) data
                          ++ drop (Z.to_nat (W * channelCount b)) out),
                     W)).
Proof.
  intros Hwf. pose proof (wf_size_range b Hwf) as Hcap.
  pose proof Hwf as [_ HN _ _ _ _ _].
  split; [|split].
  - intros cs Hcs.
    destruct (run_refines silence cs b Hwf Hcs)
      as (b' & Hrun & _ & _ & _ & Hq).
    now exists b'.
  - intros a i c Hi Hc. apply load_frame_of; lia.
  - intros data out W Hempty HW Hdata Hout.
    destruct (write_queue b data W Hwf ltac:(lia) Hdata)
      as (b1 & Hrun1 & Hwf1 & Hsz1 & Hch1 & _ & _ & Hav1 & Hq1).
    rewrite free_wf, Hempty in Hrun1, Hav1, Hq1 by done.
    replace (Z.min W (bufferSize b - 0)) with W in * by lia.
    rewrite (queued_empty b Hempty) in Hq1. simpl in Hq1.
    rewrite <- Hch1 in Hout.
    pose proof (read_spec silence b1 out W Hwf1 ltac:(lia) Hout) as Hrun2.
    rewrite Hav1, Z.add_0_l, Z.min_id in Hrun2. cbv zeta in Hrun2.
    rewrite Hq1, Hch1, take_frames_of, concat_frames_of in Hrun2 by lia.
    rewrite Z.sub_diag in Hrun2. simpl in Hrun2.
    eexists b1, _. split; [exact Hrun1 | exact Hrun2].
Qed.

(** C2. Read underrun policy.  In every state of a live buffer and for
    every request, [AudioRingBuffer_Read] and the method [read] of the
    C++ class return [toRead = min(frameCount, available)], put the
    [toRead] oldest frames at the head of the caller's array and fill
    the other [frameCount - toRead] frames of the request with silence;
    the read cursor moves on by [toRead] (in its 64-bit type; by
    [toRead] on the integers when the cursors have not wrapped), which
    takes [toRead] frames off the queue. *)
Theorem read_underrun_policy b dst frameCount :
  wf b -> 0 <= frameCount < 2 ^ 32 ->
  valid_array dst frameCount (channelCount b) ->
  let toRead :=
    Z.min frameCount (AudioRingBuffer_GetAvailableFrames (Ptr b)) in
  let dst' :=
    concat (take (Z.to_nat toRead) (queued b))
    ++ replicate (Z.to_nat ((frameCount - toRead) * channelCount b)) silence
    ++ drop (Z.to_nat (frameCount * channelCount b)) dst in
  let b' :=
    mkAudioRingBuffer (buffer b) (bufferSize b) (channelCount b)
      (writeIndex b) (u64 (readIndex b + toRead)) in
  AudioRingBuffer_Read silence (Ptr b) (Ptr dst) frameCount
  = Some (Ptr b', Ptr dst', toRead)
  /\ Cpp.read silence (CppView.object b) dst frameCount
     = Some (CppView.object b', dst', toRead)
  /\ Z.of_nat (length (concat (take (Z.to_nat toRead) (queued b))))
     = toRead * channelCount b
  /\ (forall p, toRead * channelCount b <= p < frameCount * channelCount b ->
        load dst' p = Some silence)
  /\ length dst' = length dst
  /\ wf b'
  /\ AudioRingBuffer_GetAvailableFrames (Ptr b')
     = AudioRingBuffer_GetAvailableFrames (Ptr b) - toRead
  /\ queued b' = drop (Z.to_nat toRead) (queued b)
  /\ (readIndex b <= writeIndex b ->
      readIndex b' = readIndex b + toRead).
Proof.
  intros Hwf Hfc Hdst toRead dst' b'.
  pose proof (available_range b Hwf) as Hav.
  assert (Hn : 0 <= toRead <= AudioRingBuffer_GetAvailableFrames (Ptr b)
               /\ toRead <= frameCount) by (unfold toRead; lia).
  pose proof (read_spec silence b dst frameCount Hwf Hfc Hdst) as Hrun.
  fold toRead in Hrun. fold dst' b' in Hrun.
  pose proof (length_concat_queued b toRead Hwf ltac:(lia)) as Hlen.
  destruct (advance_read b toRead Hwf ltac:(lia)) as (Hwf' & Hav' & Hq').
  fold b' in Hwf', Hav', Hq'.
  pose proof Hwf as [_ HN _ _ Hw Hr _].
  destruct Hdst as [Hroom Hmax].
  assert (Hrem : 0 <= (frameCount - toRead) * channelCount b
                 /\ 0 <= toRead * channelCount b
                 /\ toRead * channelCount b
                    + (frameCount - toRead) * channelCount b
                    = frameCount * channelCount b) by nia.
  clearbody toRead.
  split; [exact Hrun|]. split.
  { rewrite cpp_read by done. rewrite to_c_object, Hrun. done. }
  split; [exact Hlen|]. split.
  { intros p Hp. unfold dst'. rewrite load_app.
    destruct (Z.ltb_spec p (Z.of_nat (length
                (concat (take (Z.to_nat toRead) (queued b)))))); [lia|].
    rewrite load_app, length_replicate.
    destruct (Z.ltb_spec (p - Z.of_nat (length
                (concat (take (Z.to_nat toRead) (queued b)))))
                (Z.of_nat (Z.to_nat
                   ((frameCount - toRead) * channelCount b)))); [|lia].
    rewrite load_replicate.
    destruct (Z.leb_spec 0 (p - Z.of_nat (length
                (concat (take (Z.to_nat toRead) (queued b)))))); [|lia].
    destruct (Z.ltb_spec (p - Z.of_nat (length
                (concat (take (Z.to_nat toRead) (queued b)))))
                (Z.of_nat (Z.to_nat
                   ((frameCount - toRead) * channelCount b)))); [done|lia]. }
  split.
  { unfold dst'. rewrite !length_app, length_replicate, length_drop. lia. }
  split; [exact Hwf'|]. split; [exact Hav'|]. split; [exact Hq'|].
  intros Hle. unfold b'. cbn [readIndex].
  rewrite available_wf, u64_small in Hn by (done || lia).
  apply u64_small. lia.
Qed.
End QueueClaims.

Section PolicyClaims.
Context {sample : Type}.
Variable silence : sample.
Implicit Types (b : AudioRingBuffer sample) (a dst src mem : list sample).

(** C3. Write overrun policy.  In every state of a live buffer,
    [AudioRingBuffer_Write] and the method [write] of the C++ class
    return [toWrite = min(frameCount, free)], store frame [i] of the
    data, for [i < toWrite], at the frame position
    [(writeCursor + i) mod capacity], leave the other frame positions
    of the store as they are, and move the write cursor on by
    [toWrite] (in its 64-bit type; by [toWrite] on the integers when the
    cursor does not wrap).  The queue is the queue of before followed by
    these [toWrite] frames: no frame still to be read is lost, and what
    any later calls return is what they return on that queue, in which
    the frames after the first [toWrite] do not occur. *)
Theorem write_overrun_policy b data frameCount :
  wf b -> 0 <= frameCount < 2 ^ 32 ->
  valid_array data frameCount (channelCount b) ->
  let toWrite :=
    Z.min frameCount (AudioRingBuffer_GetFreeFrames (Ptr b)) in
  exists b',
    AudioRingBuffer_Write (Ptr b) (Ptr data) frameCount
    = Some (Ptr b', toWrite)
    /\ Cpp.write (CppView.object b) data frameCount
       = Some (CppView.object b', toWrite)
    /\ wf b'
    /\ bufferSize b' = bufferSize b /\ channelCount b' = channelCount b
    /\ (forall i c, 0 <= i < toWrite -> 0 <= c < channelCount b ->
          load (buffer b')
            ((writeIndex b + i) mod bufferSize b * channelCount b + c)
          = load data (i * channelCount b + c))
    /\ (forall q c, 0 <= q -> 0 <= c < channelCount b ->
          (forall i, 0 <= i < toWrite ->
             q <> (writeIndex b + i) mod bufferSize b) ->
          load (buffer b') (q * channelCount b + c)
          = load (buffer b) (q * channelCount b + c))
    /\ writeIndex b' = u64 (writeIndex b + toWrite)
    /\ (writeIndex b + toWrite < 2 ^ 64 ->
        writeIndex b' = writeIndex b + toWrite)
    /\ readIndex b' = readIndex b
    /\ AudioRingBuffer_GetAvailableFrames (Ptr b')
       = AudioRingBuffer_GetAvailableFrames (Ptr b) + toWrite
    /\ queued b' = queued b ++ frames_of (channelCount b) data toWrite
    /\ (forall cs, Forall (call_ok (channelCount b)) cs ->
          exists b'',
            run silence (Ptr b') cs
            = Some (Ptr b'',
                    (fifo_run silence (bufferSize b) (channelCount b)
                       (queued b
                        ++ frames_of (channelCount b) data toWrite)
                       cs).2)).
Proof.
  intros Hwf Hfc Hdata toWrite.
  pose proof (available_range b Hwf) as Hav.
  pose proof (free_wf b Hwf) as Hfree.
  assert (Hn : 0 <= toWrite <= AudioRingBuffer_GetFreeFrames (Ptr b))
    by (unfold toWrite; lia).
  destruct (write_store b data frameCount Hwf Hfc Hdata)
    as (mem & Hrun & Hlen & Hin & Hout).
  destruct (write_queue b data frameCount Hwf Hfc Hdata)
    as (b' & Hrun' & Hwf' & Hsz & Hch & Hr & Hw & Hav' & Hq).
  fold toWrite in Hrun, Hin, Hout, Hrun', Hw, Hav', Hq. clearbody toWrite.
  assert (Hb' : b' = mkAudioRingBuffer mem (bufferSize b) (channelCount b)
                       (u64 (writeIndex b + toWrite)) (readIndex b))
    by congruence.
  exists b'. split; [exact Hrun'|]. split.
  { rewrite cpp_write by done. rewrite to_c_object, Hrun'.
    unfold CppView.object. now rewrite Hsz. }
  split; [exact Hwf'|]. split; [exact Hsz|]. split; [exact Hch|]. split.
  { rewrite Hb'. exact Hin. }
  split.
  { rewrite Hb'. exact Hout. }
  split; [exact Hw|]. split.
  { intros Hlt. rewrite Hw. apply u64_small. destruct Hwf. lia. }
  split; [exact Hr|]. split; [exact Hav'|]. split; [exact Hq|].
  intros cs Hcs. rewrite <- Hch in Hcs.
  destruct (run_refines silence cs b' Hwf' Hcs) as (b'' & Hrun'' & _).
  exists b''. now rewrite <- Hq, <- Hsz, <- Hch.
Qed.

(** C7. Peek frame effect.  In every state of a live buffer,
    [AudioRingBuffer_Peek] returns [n = min(frameCount, available)],
    puts the [n] oldest frames at the head of the caller's array and
    leaves the rest of the array as it was (no silence); the struct,
    cursors and store, is the same after the call; the read that follows
    with the same count returns [n] and the same [n] frames. *)
Theorem peek_frame_effect b dst frameCount :
  wf b -> 0 <= frameCount < 2 ^ 32 ->
  valid_array dst frameCount (channelCount b) ->
  let n := Z.min frameCount (AudioRingBuffer_GetAvailableFrames (Ptr b)) in
  let dst' :=
    concat (take (Z.to_nat n) (queued b))
    ++ drop (Z.to_nat (n * channelCount b)) dst in
  AudioRingBuffer_Peek (Ptr b) (Ptr dst) frameCount
  = Some (Ptr b, Ptr dst', n)
  /\ Z.of_nat (length (concat (take (Z.to_nat n) (queued b))))
     = n * channelCount b
  /\ length dst' = length dst
  /\ (forall p, n * channelCount b <= p -> load dst' p = load dst p)
  /\ exists b2 dst2,
       AudioRingBuffer_Read silence (Ptr b) (Ptr dst') frameCount
       = Some (Ptr b2, Ptr dst2, n)
       /\ take (Z.to_nat (n * channelCount b)) dst2
          = take (Z.to_nat (n * channelCount b)) dst'.
Proof.
  intros Hwf Hfc Hdst n dst'.
  pose proof (available_range b Hwf) as Hav.
  assert (Hn : 0 <= n <= AudioRingBuffer_GetAvailableFrames (Ptr b)
               /\ n <= frameCount) by (unfold n; lia).
  pose proof (peek_spec b dst frameCount Hwf Hfc Hdst) as Hrun.
  fold n in Hrun. fold dst' in Hrun.
  pose proof (length_concat_queued b n Hwf ltac:(lia)) as Hlen.
  pose proof Hwf as [_ HN _ _ _ _ _].
  destruct Hdst as [Hroom Hmax].
  assert (Hnn : 0 <= n * channelCount b <= frameCount * channelCount b)
    by nia.
  assert (Hlen' : length dst' = length dst).
  { unfold dst'. rewrite length_app, length_drop. lia. }
  assert (Hdst' : valid_array dst' frameCount (channelCount b)).
  { split; rewrite Hlen'; done. }
  pose proof (read_spec silence b dst' frameCount Hwf Hfc Hdst') as Hread.
  fold n in Hread. cbv zeta in Hread. clearbody n.
  split; [exact Hrun|]. split; [exact Hlen|]. split; [exact Hlen'|]. split.
  { intros p Hp. unfold dst'. rewrite load_app.
    destruct (Z.ltb_spec p (Z.of_nat (length
                (concat (take (Z.to_nat n) (queued b)))))); [lia|].
    rewrite load_drop by lia. f_equal. lia. }
  eexists _, _. split; [exact Hread|].
  unfold dst'. rewrite !take_app_length' by lia. done.
Qed.

(** C8. Reset postcondition.  In every state of a live buffer,
    [AudioRingBuffer_Reset] and the method [reset] of the C++ class set
    both cursors to 0 and every sample of the store to zero; the count
    of available frames is then 0, and a read that follows at once
    returns 0 and fills the request with silence. *)
Theorem reset_postcondition b :
  wf b ->
  let b' :=
    mkAudioRingBuffer
      (replicate (Z.to_nat (bufferSize b * channelCount b)) silence)
      (bufferSize b) (channelCount b) 0 0 in
  AudioRingBuffer_Reset silence (Ptr b) = Some (Ptr b')
  /\ Cpp.reset silence (CppView.object b) = Some (CppView.object b')
  /\ length (buffer b') = length (buffer b)
  /\ (forall p, 0 <= p < Z.of_nat (length (buffer b)) ->
        load (buffer b') p = Some silence)
  /\ wf b'
  /\ AudioRingBuffer_GetAvailableFrames (Ptr b') = 0
  /\ Cpp.availableFrames (CppView.object b') = 0
  /\ queued b' = []
  /\ (forall dst frameCount,
        0 <= frameCount < 2 ^ 32 ->
        valid_array dst frameCount (channelCount b) ->
        let dst' :=
          replicate (Z.to_nat (frameCount * channelCount b)) silence
          ++ drop (Z.to_nat (frameCount * channelCount b)) dst in
        AudioRingBuffer_Read silence (Ptr b') (Ptr dst) frameCount
        = Some (Ptr b', Ptr dst', 0)
        /\ Cpp.read silence (CppView.object b') dst frameCount
           = Some (CppView.object b', dst', 0)).
Proof.
  intros Hwf b'. pose proof (wf_size_range b Hwf) as Hcap.
  pose proof (wf_reset silence b Hwf) as Hwf'. fold b' in Hwf'.
  pose proof Hwf as [_ HN Hlen _ _ _ _].
  assert (Hav : AudioRingBuffer_GetAvailableFrames (Ptr b') = 0)
    by reflexivity.
  split; [now apply reset_spec|]. split.
  { rewrite cpp_reset, to_c_object, reset_spec by done. done. }
  split.
  { unfold b'. cbn [buffer]. rewrite length_replicate. nia. }
  split.
  { intros p Hp. unfold b'. cbn [buffer]. rewrite load_replicate.
    destruct (Z.leb_spec 0 p); [|lia].
    destruct (Z.ltb_spec p (Z.of_nat (Z.to_nat
                (bufferSize b * channelCount b)))); [done|nia]. }
  split; [exact Hwf'|]. split; [exact Hav|]. split; [exact Hav|].
  split; [now apply queued_empty|].
  intros dst frameCount Hfc Hdst dst'.
  pose proof (read_spec silence b' dst frameCount Hwf' Hfc Hdst) as Hread.
  rewrite Hav in Hread.
  replace (Z.min frameCount 0) with 0 in Hread by lia.
  cbv zeta in Hread. rewrite read_cursor_0 in Hread by done.
  rewrite Z.sub_0_r in Hread. change (Z.to_nat 0) with 0%nat in Hread.
  rewrite take_0 in Hread. cbn [concat app] in Hread.
  split; [exact Hread|].
  rewrite cpp_read by done. rewrite to_c_object, Hread. done.
Qed.

(** C10. Degenerate-input guards.  With a null buffer pointer, a null
    data pointer or a frame count of 0, [AudioRingBuffer_Write],
    [AudioRingBuffer_Read] and [AudioRingBuffer_Peek] return 0 and leave
    the struct and the caller's array as they are (a read of 0 frames
    writes no silence); with a null buffer pointer or a frame count of
    0, [AudioRingBuffer_Skip] leaves the struct as it is.  None of them
    touches memory it should not. *)
Theorem degenerate_input_guards (buffer : pointer (AudioRingBuffer sample))
  (data : pointer (list sample)) (frameCount : Z) :
  buffer = NULL \/ data = NULL \/ frameCount = 0 ->
  AudioRingBuffer_Write buffer data frameCount = Some (buffer, 0)
  /\ AudioRingBuffer_Read silence buffer data frameCount
     = Some (buffer, data, 0)
  /\ AudioRingBuffer_Peek buffer data frameCount = Some (buffer, data, 0)
  /\ (buffer = NULL \/ frameCount = 0 ->
      AudioRingBuffer_Skip buffer frameCount = buffer).
Proof.
  intros H.
  assert (Hskip : buffer = NULL \/ frameCount = 0 ->
                  AudioRingBuffer_Skip buffer frameCount = buffer).
  { intros [->| ->]; [done|]. now destruct buffer. }
  destruct H as [->|[->| ->]].
  - done.
  - destruct buffer; done.
  - destruct buffer, data; done.
Qed.
End PolicyClaims.

Section StateClaims.
Context {sample : Type}.
Variable silence : sample.
Implicit Types (b : AudioRingBuffer sample) (a dst src mem : list sample).

Lemma memset_zero_fresh n :
  0 <= n -> n * sizeof_float < 2 ^ 64 ->
  memset_zero silence (replicate (Z.to_nat n) silence) 0
    (usize (usize n * sizeof_float))
  = Some (replicate (Z.to_nat n) silence).
Proof.
  intros Hn Hb. unfold sizeof_float in Hb.
  rewrite (usize_small n) by lia.
  rewrite (usize_small (_ * sizeof_float)) by (unfold sizeof_float; lia).
  rewrite memset_zero_spec by (rewrite ?length_replicate; lia).
  f_equal. rewrite drop_ge by (rewrite length_replicate; lia).
  simpl. now rewrite app_nil_r.
Qed.

(** C4, as the code has it.  For every request of at most [2^31] frames,
    [AudioRingBuffer_Create] and the constructor of the C++ class
    [AudioRingBuffer] end and, unless an allocation is refused, make a
    buffer whose capacity is the smallest power of two that is at least
    the request, never 0, with a store of [capacity * channelCount]
    zero samples and both cursors at 0.  The constructor of the class
    [RingBuffer] of the driver does not round: its capacity is the
    request, its store [frames * channels] (in 32 bits) zero samples,
    both cursors at 0. *)
Theorem capacity_realization alloc fuel req N :
  0 <= req <= 2 ^ 31 -> 0 <= N < 2 ^ 32 -> (31 <= fuel)%nat ->
  (exists c,
     smallest_pow2_ge req c /\ 1 <= c
     /\ AudioRingBuffer_Create silence alloc fuel req N
        = Some (if alloc sizeof_AudioRingBuffer
                   && (c * N * sizeof_float <? 2 ^ 64)
                   && alloc (c * N * sizeof_float)
                then Ptr (mkAudioRingBuffer
                            (replicate (Z.to_nat (c * N)) silence)
                            c N 0 0)
                else NULL)
     /\ Cpp.new silence alloc fuel req N
        = Some (if (c * N * sizeof_float <? 2 ^ 64)
                   && alloc (c * N * sizeof_float)
                then Ptr (Cpp.mkAudioRingBuffer
                            (replicate (Z.to_nat (c * N)) silence)
                            c (c - 1) N 0 0)
                else NULL))
  /\ Driver.new silence alloc req N
     = (if (u32 (req * N) * sizeof_float <? 2 ^ 64)
           && alloc (u32 (req * N) * sizeof_float)
        then Ptr (Driver.mkRingBuffer
                    (replicate (Z.to_nat (u32 (req * N))) silence)
                    req N 0 0)
        else NULL).
Proof.
  intros Hreq HN Hfuel. split.
  - destruct (create_spec silence alloc fuel req N Hreq HN Hfuel)
      as (c & Hsm & Hle & Hrun).
    pose proof (is_pow2_pos c (proj1 Hsm)) as Hpos.
    exists c. split; [done|]. split; [done|]. split; [exact Hrun|].
    unfold Cpp.new.
    destruct (round_up_loop_spec fuel req) as (c' & Hloop & Hsm' & _);
      [lia | done |].
    assert (c' = c) as ->.
    { destruct Hsm as (Hp & Hge & Hmin). destruct Hsm' as (Hp' & Hge' & Hmin').
      specialize (Hmin c' Hp' Hge'). specialize (Hmin' c Hp Hge). lia. }
    rewrite Hloop. rewrite (usize_small (c * N)) by nia.
    unfold calloc.
    destruct (Z.ltb_spec (c * N * sizeof_float) (2 ^ 64)) as [Hb|];
      [|done].
    destruct (alloc (c * N * sizeof_float)); [|done]. cbn [andb].
    rewrite <- (usize_small (c * N)) at 2 by nia.
    rewrite memset_zero_fresh by nia.
    rewrite (u32_small (c - 1)) by lia. done.
  - unfold Driver.new, calloc.
    destruct (_ && _); done.
Qed.

(** C6, as the code has it.  In every state that a buffer made by
    [AudioRingBuffer_Create] reaches through reset, write, read, peek
    and skip, the distance of the cursors in their 64-bit type is at
    most the capacity, [AudioRingBuffer_GetAvailableFrames] is that
    distance, [AudioRingBuffer_GetFreeFrames] is the capacity less the
    available count, and the channel count is the one given at
    creation.  As long as the writes have accepted fewer than [2^64]
    frames in all, the cursors themselves satisfy
    [readCursor <= writeCursor] and
    [writeCursor - readCursor <= capacity], and the available count is
    [writeCursor - readCursor]. *)
Theorem cursor_invariant N W b :
  reachable silence N W b ->
  u64 (writeIndex b - readIndex b) <= bufferSize b
  /\ AudioRingBuffer_GetAvailableFrames (Ptr b)
     = u64 (writeIndex b - readIndex b)
  /\ AudioRingBuffer_GetFreeFrames (Ptr b)
     = bufferSize b - AudioRingBuffer_GetAvailableFrames (Ptr b)
  /\ channelCount b = N
  /\ (W < 2 ^ 64 ->
      readIndex b <= writeIndex b
      /\ writeIndex b - readIndex b <= bufferSize b
      /\ AudioRingBuffer_GetAvailableFrames (Ptr b)
         = writeIndex b - readIndex b).
Proof.
  intros Hreach.
  destruct (reachable_inv silence N W b Hreach) as (Hwf & Hch & _ & Hinv).
  split; [apply Hwf|]. split; [now apply available_wf|].
  split; [now apply free_wf|]. split; [exact Hch|].
  intros HW. destruct (Hinv HW) as [_ Hc].
  split; [apply Hc|]. split; [apply Hc|].
  now apply available_cursor_inv.
Qed.
End StateClaims.

(** C4 as stated fails on the driver's own buffer: it is made for 96000
    frames, which is its capacity and is not a power of two. *)
Lemma driver_capacity_not_rounded :
  exists b : Driver.RingBuffer Z,
    Driver.new 0 grant_all Driver.kDevice_RingBufferSize
      Driver.kDevice_ChannelCount = Ptr b
    /\ Driver.mFrames b = 96000
    /\ ~ smallest_pow2_ge Driver.kDevice_RingBufferSize (Driver.mFrames b).
Proof.
  eexists. split; [reflexivity|]. split; [reflexivity|].
  intros [Hp _]. unfold is_pow2 in Hp. vm_compute in Hp. discriminate.
Qed.

(** C5, as the code has it.  Capacity request 100, two channels: the
    capacity is 128; the write of 128 frames returns 128; the read of 64
    returns 64 and the frames 0 to 63, after which 64 frames are available
    and 64 free; the write of 80 more returns 64; the read of 100 returns
    100 and the frames 64 to 163, none of them silent, after which 28
    frames are available. *)
Theorem concrete_scenario :
  Scenario.scenario
  = Some {| Scenario.capacity := 128;
            Scenario.written_1 := 128;
            Scenario.read_1 := 64;
            Scenario.data_1 := Scenario.frames 0 64;
            Scenario.available_1 := 64;
            Scenario.free_1 := 64;
            Scenario.written_2 := 64;
            Scenario.read_2 := 100;
            Scenario.data_2 := Scenario.frames 64 100;
            Scenario.available_2 := 28 |}.
Proof. vm_compute. reflexivity. Qed.

(** C5 as stated fails at its last step: the read of 100 frames does not
    return 64, and frame 64 of its array, samples 128 and 129, is frame
    128 of the stream and not silence. *)
Lemma scenario_last_read_not_64 :
  Scenario.read_2 <$> Scenario.scenario <> Some 64
  /\ (fun o => take 2 (drop 128 (Scenario.data_2 o))) <$> Scenario.scenario
     = Some [128; -128].
Proof. split; [vm_compute; discriminate | vm_compute; reflexivity]. Qed.

(** C6 as stated fails when the write cursor wraps: a buffer of one frame
    through which [2^64] frames have gone has its write cursor at 0 and
    its read cursor at [2^64 - 1]. *)
Lemma cursor_order_broken_by_wrap :
  exists (W : Z) (b : AudioRingBuffer Z),
    reachable 0 1 W b
    /\ writeIndex b = 0 /\ readIndex b = 2 ^ 64 - 1
    /\ ~ (readIndex b <= writeIndex b).
Proof.
  destruct spin_wraps as (b & Hreach & Hw & Hr).
  exists (2 ^ 64), b. split; [exact Hreach|]. split; [exact Hw|].
  split; [exact Hr|]. rewrite Hw, Hr. lia.
Qed.

(** * The theorems at work on a small buffer *)

Ltac wf_by_computation :=
  split;
  [ split; [reflexivity | simpl; lia] | simpl; lia | reflexivity
  | reflexivity | simpl; lia | simpl; lia | vm_compute; discriminate ].

Ltac valid_by_computation := split; [simpl; lia | reflexivity].

Lemma fifo_correctness_witness :
  wf Instance.b0
  /\ exists b',
       run 0 (Ptr Instance.b0)
         [CallWrite Instance.data0 3; CallRead Instance.out0 3]
       = Some (Ptr b', [SeenWrite 2; SeenRead [1; -1; 2; -2; 3; -3] 3]).
Proof.
  assert (Hwf : wf Instance.b0) by wf_by_computation.
  split; [exact Hwf|].
  destruct (proj1 (fifo_correctness 0 Instance.b0 Hwf)
              [CallWrite Instance.data0 3; CallRead Instance.out0 3])
    as (b' & Hrun & _).
  - repeat constructor; simpl; lia.
  - exists b'. exact Hrun.
Defined.

Lemma read_underrun_policy_witness :
  wf Instance.b0 /\ 0 <= 3 < 2 ^ 32
  /\ valid_array Instance.out0 3 (channelCount Instance.b0)
  /\ AudioRingBuffer_Read 0 (Ptr Instance.b0) (Ptr Instance.out0) 3
     = Some (Ptr (mkAudioRingBuffer [1; -1; 2; -2; 0; 0; 0; 0] 4 2 2 2),
             Ptr [1; -1; 2; -2; 0; 0], 2).
Proof.
  assert (Hwf : wf Instance.b0) by wf_by_computation.
  assert (Hfc : 0 <= 3 < 2 ^ 32) by lia.
  assert (Hout : valid_array Instance.out0 3 (channelCount Instance.b0))
    by valid_by_computation.
  split; [exact Hwf|]. split; [exact Hfc|]. split; [exact Hout|].
  exact (proj1 (read_underrun_policy 0 Instance.b0 Instance.out0 3
                  Hwf Hfc Hout)).
Defined.

Lemma write_overrun_policy_witness :
  wf Instance.b0 /\ 0 <= 3 < 2 ^ 32
  /\ valid_array Instance.data0 3 (channelCount Instance.b0)
  /\ exists b',
       AudioRingBuffer_Write (Ptr Instance.b0) (Ptr Instance.data0) 3
       = Some (Ptr b', 2)
       /\ queued b' = [[1; -1]; [2; -2]; [3; -3]; [4; -4]].
Proof.
  assert (Hwf : wf Instance.b0) by wf_by_computation.
  assert (Hfc : 0 <= 3 < 2 ^ 32) by lia.
  assert (Hdata : valid_array Instance.data0 3 (channelCount Instance.b0))
    by valid_by_computation.
  split; [exact Hwf|]. split; [exact Hfc|]. split; [exact Hdata|].
  destruct (write_overrun_policy 0 Instance.b0 Instance.data0 3
              Hwf Hfc Hdata)
    as (b' & Hrun & _ & _ & _ & _ & _ & _ & _ & _ & _ & _ & Hq & _).
  exists b'. split; [exact Hrun | exact Hq].
Defined.

Lemma peek_frame_effect_witness :
  wf Instance.b0 /\ 0 <= 3 < 2 ^ 32
  /\ valid_array Instance.out0 3 (channelCount Instance.b0)
  /\ AudioRingBuffer_Peek (Ptr Instance.b0) (Ptr Instance.out0) 3
     = Some (Ptr Instance.b0, Ptr [1; -1; 2; -2; 7; 7], 2).
Proof.
  assert (Hwf : wf Instance.b0) by wf_by_computation.
  assert (Hfc : 0 <= 3 < 2 ^ 32) by lia.
  assert (Hout : valid_array Instance.out0 3 (channelCount Instance.b0))
    by valid_by_computation.
  split; [exact Hwf|]. split; [exact Hfc|]. split; [exact Hout|].
  exact (proj1 (peek_frame_effect 0 Instance.b0 Instance.out0 3
                  Hwf Hfc Hout)).
Defined.

Lemma reset_postcondition_witness :
  wf Instance.b0
  /\ AudioRingBuffer_Reset 0 (Ptr Instance.b0)
     = Some (Ptr (mkAudioRingBuffer [0; 0; 0; 0; 0; 0; 0; 0] 4 2 0 0)).
Proof.
  assert (Hwf : wf Instance.b0) by wf_by_computation.
  split; [exact Hwf|].
  exact (proj1 (reset_postcondition 0 Instance.b0 Hwf)).
Defined.

Lemma degenerate_input_guards_witness :
  (Ptr Instance.b0 = NULL \/ Ptr Instance.out0 = NULL \/ 0 = 0)
  /\ AudioRingBuffer_Read 0 (Ptr Instance.b0) (Ptr Instance.out0) 0
     = Some (Ptr Instance.b0, Ptr Instance.out0, 0).
Proof.
  assert (H : Ptr Instance.b0 = NULL \/ Ptr Instance.out0 = NULL \/ 0 = 0)
    by (right; right; reflexivity).
  split; [exact H|].
  exact (proj1 (proj2 (degenerate_input_guards 0 (Ptr Instance.b0)
                         (Ptr Instance.out0) 0 H))).
Defined.

Lemma capacity_realization_witness :
  0 <= 100 <= 2 ^ 31 /\ 0 <= 2 < 2 ^ 32 /\ (31 <= 31)%nat
  /\ (exists c,
        smallest_pow2_ge 100 c
        /\ AudioRingBuffer_Create 0 grant_all 31 100 2
           = Some (if grant_all sizeof_AudioRingBuffer
                      && (c * 2 * sizeof_float <? 2 ^ 64)
                      && grant_all (c * 2 * sizeof_float)
                   then Ptr (mkAudioRingBuffer
                               (replicate (Z.to_nat (c * 2)) 0) c 2 0 0)
                   else NULL))
  /\ Driver.new 0 grant_all 100 2
     = Ptr (Driver.mkRingBuffer (replicate 200 0) 100 2 0 0).
Proof.
  assert (Hreq : 0 <= 100 <= 2 ^ 31) by lia.
  assert (HN : 0 <= 2 < 2 ^ 32) by lia.
  assert (Hfuel : (31 <= 31)%nat) by lia.
  split; [exact Hreq|]. split; [exact HN|]. split; [exact Hfuel|].
  destruct (capacity_realization 0 grant_all 31 100 2 Hreq HN Hfuel)
    as [(c & Hsm & _ & Hrun & _) Hdriver].
  split; [|exact Hdriver].
  exists c. split; [exact Hsm | exact Hrun].
Defined.

Lemma cursor_invariant_witness :
  reachable 0 2 2 Instance.b0 /\ 2 < 2 ^ 64
  /\ readIndex Instance.b0 <= writeIndex Instance.b0
  /\ writeIndex Instance.b0 - readIndex Instance.b0
     <= bufferSize Instance.b0
  /\ AudioRingBuffer_GetAvailableFrames (Ptr Instance.b0) = 2.
Proof.
  assert (Hreach : reachable 0 2 2 Instance.b0).
  { apply (reach_write 0 2 0
             (mkAudioRingBuffer [0; 0; 0; 0; 0; 0; 0; 0] 4 2 0 0)
             (Ptr [1; -1; 2; -2]) 2 Instance.b0 2).
    - apply (reach_create 0 2 grant_all 31 4);
        [lia | lia | reflexivity].
    - lia.
    - reflexivity. }
  assert (HW : 2 < 2 ^ 64) by lia.
  split; [exact Hreach|]. split; [exact HW|].
  destruct (cursor_invariant 0 2 2 Instance.b0 Hreach)
    as (_ & _ & _ & _ & Hinv).
  destruct (Hinv HW) as (Hle & Hcap & Hav).
  split; [exact Hle|]. split; [exact Hcap | exact Hav].
Defined.

(** * Further properties of the code *)

(** * Further properties of the C interface and of the C++ class *)

Section MoreOfTheInterface.
Context {sample : Type}.
Variable silence : sample.
Implicit Types (b : AudioRingBuffer sample) (a dst src mem : list sample).

(** X1. Skip is a read without the copy.  In every state of a live
    buffer, [AudioRingBuffer_Skip] takes the
    [n = min(frameCount, available)] oldest frames off the queue and
    touches neither the store nor the write cursor; the struct it
    leaves is the struct that [AudioRingBuffer_Read] of the same count
    leaves; and a peek followed by a skip of the count the peek
    returned hands out the frames, and leaves the struct, of that one
    read. *)
Theorem skip_is_read_without_copy b frameCount :
  wf b -> 0 <= frameCount < 2 ^ 32 ->
  let n := Z.min frameCount (AudioRingBuffer_GetAvailableFrames (Ptr b)) in
  exists b',
    AudioRingBuffer_Skip (Ptr b) frameCount = Ptr b'
    /\ wf b'
    /\ buffer b' = buffer b /\ writeIndex b' = writeIndex b
    /\ bufferSize b' = bufferSize b /\ channelCount b' = channelCount b
    /\ AudioRingBuffer_GetAvailableFrames (Ptr b')
       = AudioRingBuffer_GetAvailableFrames (Ptr b) - n
    /\ queued b' = drop (Z.to_nat n) (queued b)
    /\ (forall dst, valid_array dst frameCount (channelCount b) ->
          exists dst1 dst2,
            AudioRingBuffer_Read silence (Ptr b) (Ptr dst) frameCount
            = Some (Ptr b', Ptr dst2, n)
            /\ AudioRingBuffer_Peek (Ptr b) (Ptr dst) frameCount
               = Some (Ptr b, Ptr dst1, n)
            /\ AudioRingBuffer_Skip (Ptr b) n = Ptr b'
            /\ take (Z.to_nat (n * channelCount b)) dst1
               = take (Z.to_nat (n * channelCount b)) dst2).
Proof.
  intros Hwf Hfc n.
  pose proof (available_range b Hwf) as Hav.
  assert (Hn : 0 <= n <= AudioRingBuffer_GetAvailableFrames (Ptr b)
               /\ n <= frameCount) by (unfold n; lia).
  pose proof (skip_spec b frameCount Hwf Hfc) as Hskip.
  fold n in Hskip. cbv zeta in Hskip.
  destruct (advance_read b n Hwf ltac:(lia)) as (Hwf' & Hav' & Hq').
  eexists. split; [exact Hskip|]. split; [exact Hwf'|].
  do 4 (split; [reflexivity|]). split; [exact Hav'|]. split; [exact Hq'|].
  intros dst Hdst.
  pose proof (read_spec silence b dst frameCount Hwf Hfc Hdst) as Hread.
  pose proof (peek_spec b dst frameCount Hwf Hfc Hdst) as Hpeek.
  fold n in Hread, Hpeek. cbv zeta in Hread, Hpeek.
  pose proof (skip_spec b n Hwf ltac:(lia)) as Hskip'.
  replace (Z.min n (AudioRingBuffer_GetAvailableFrames (Ptr b))) with n
    in Hskip' by lia.
  cbv zeta in Hskip'.
  pose proof (length_concat_queued b n Hwf ltac:(lia)) as Hlen.
  clearbody n.
  eexists _, _. split; [exact Hread|]. split; [exact Hpeek|].
  split; [exact Hskip'|].
  rewrite !take_app_length' by lia. done.
Qed.

(** X2. Reset is creation again.  In every state of a live buffer,
    [AudioRingBuffer_Reset] leaves the struct that
    [AudioRingBuffer_Create] makes for the same capacity and channel
    count when the allocator grants its two requests; resetting twice
    is resetting once. *)
Theorem reset_is_create_again b alloc fuel :
  wf b -> (31 <= fuel)%nat ->
  alloc sizeof_AudioRingBuffer = true ->
  alloc (bufferSize b * channelCount b * sizeof_float) = true ->
  AudioRingBuffer_Reset silence (Ptr b)
  = AudioRingBuffer_Create silence alloc fuel (bufferSize b)
      (channelCount b)
  /\ forall b', AudioRingBuffer_Reset silence (Ptr b) = Some (Ptr b') ->
                AudioRingBuffer_Reset silence (Ptr b') = Some (Ptr b').
Proof.
  intros Hwf Hfuel Hstruct Hstore.
  pose proof (wf_size_range b Hwf) as Hcap.
  pose proof Hwf as [[Hp Hle] HN _ Hbytes _ _ _].
  split.
  - destruct (create_spec silence alloc fuel (bufferSize b)
                (channelCount b)) as (c & Hsm & Hc & Hrun);
      [lia | done | done |].
    assert (c = bufferSize b) as ->.
    { destruct Hsm as (Hpc & Hge & Hmin).
      specialize (Hmin (bufferSize b) Hp ltac:(lia)). lia. }
    rewrite Hrun, Hstruct, Hstore, reset_spec by done.
    destruct (Z.ltb_spec (bufferSize b * channelCount b * sizeof_float)
                (2 ^ 64)); [done | lia].
  - intros b' Hreset. rewrite reset_spec in Hreset by done.
    injection Hreset as <-.
    rewrite reset_spec by now apply wf_reset. done.
Qed.

(** X3. A request too large.  For a request of more than [2^31]
    frames the rounding loop of [AudioRingBuffer_Create] and of the
    constructor of the C++ class wraps its size to 0 and runs for
    ever: whatever the fuel, [AudioRingBuffer_Create] does not return
    once its struct is allocated, and the constructor does not
    return. *)
Theorem oversized_request_never_returns alloc fuel req N :
  2 ^ 31 < req ->
  (alloc sizeof_AudioRingBuffer = true ->
   AudioRingBuffer_Create silence alloc fuel req N = None)
  /\ Cpp.new silence alloc fuel req N = None.
Proof.
  intros Hreq. split.
  - intros Halloc. now apply create_diverges.
  - unfold Cpp.new. rewrite round_up_loop_diverges; [done | done |].
    right. exists 0. split; [lia | done].
Qed.

(** X4. One buffer in two languages.  On an object whose mask is its
    size less one (what the constructor sets and no method changes),
    the methods [write], [read], [reset], [availableFrames] and
    [freeFrames] of the C++ class return what the C functions return
    on the struct with the same fields and leave the same fields, for
    every data array and every frame count; the mask stays. *)
Theorem cpp_class_is_c_interface (this : Cpp.AudioRingBuffer sample)
  (data : list sample) (frameCount : Z) :
  Cpp.mBufferMask this = u32 (Cpp.mBufferSize this - 1) ->
  Cpp.write this data frameCount
  = match AudioRingBuffer_Write (Ptr (CppView.to_c this)) (Ptr data)
            frameCount with
    | Some (Ptr b', n) => Some (CppView.of_c (Cpp.mBufferMask this) b', n)
    | _ => None
    end
  /\ Cpp.read silence this data frameCount
     = match AudioRingBuffer_Read silence (Ptr (CppView.to_c this))
               (Ptr data) frameCount with
       | Some (Ptr b', Ptr data', n) =>
           Some (CppView.of_c (Cpp.mBufferMask this) b', data', n)
       | _ => None
       end
  /\ Cpp.reset silence this
     = match AudioRingBuffer_Reset silence (Ptr (CppView.to_c this)) with
       | Some (Ptr b') => Some (CppView.of_c (Cpp.mBufferMask this) b')
       | _ => None
       end
  /\ Cpp.availableFrames this
     = AudioRingBuffer_GetAvailableFrames (Ptr (CppView.to_c this))
  /\ Cpp.freeFrames this
     = AudioRingBuffer_GetFreeFrames (Ptr (CppView.to_c this)).
Proof.
  intros Hmask.
  split; [now apply cpp_write|]. split; [now apply cpp_read|].
  split; [apply cpp_reset|]. split; [apply cpp_available | apply cpp_free].
Qed.
End MoreOfTheInterface.

(** * The class RingBuffer of the driver *)

Lemma std_min_min a b : Driver.std_min a b = Z.min a b.
Proof. unfold Driver.std_min. destruct (Z.ltb_spec b a); lia. Qed.

Section DriverLoops.
Context {sample : Type}.
Variable silence : sample.
Implicit Types (this d : Driver.RingBuffer sample) (a dst src mem : list sample).

Lemma driver_available d :
  DriverView.wf d ->
  u32 (u64 (Driver.mWritePos d - Driver.mReadPos d))
  = DriverView.available d
  /\ 0 <= DriverView.available d <= Driver.mFrames d.
Proof.
  intros [Hf Hc Hs Hl Hr Hw Ha]. unfold DriverView.available.
  rewrite u64_small, u32_small by lia. lia.
Qed.

Lemma driver_position d x :
  DriverView.wf d -> 0 <= x mod Driver.mFrames d < Driver.mFrames d.
Proof. intros [Hf _ _ _ _ _ _]. apply Z.mod_pos_bound. lia. Qed.

(** The copy loop of [write], with its 32-bit indices and its
    remainder, is the copy of frames. *)
Lemma driver_write_loop d data n :
  DriverView.wf d -> 0 <= n <= Driver.mFrames d ->
  Driver.mWritePos d + n < 2 ^ 64 ->
  for_loop (Z.to_nat n) 0 (fun i mem =>
      idx ← Driver.umod (u64 (Driver.mWritePos d + i)) (Driver.mFrames d);
      let idx := u32 idx in
      for_loop (Z.to_nat (Driver.mChannels d)) 0 (fun c mem =>
          v ← load data (u32 (u32 (i * Driver.mChannels d) + c));
          store mem (u32 (u32 (idx * Driver.mChannels d) + c)) v) mem)
    (Driver.mBuffer d)
  = copy_frames data (fun i => i * Driver.mChannels d)
      (fun i => (Driver.mWritePos d + i) mod Driver.mFrames d
                * Driver.mChannels d)
      n (Driver.mChannels d) (Driver.mBuffer d).
Proof.
  intros Hwf Hn Hwrap. pose proof Hwf as [Hf Hc Hs Hl Hr Hw Ha].
  unfold copy_frames. apply for_loop_ext. intros i mem Hi.
  unfold Driver.umod. destruct (Z.eqb_spec (Driver.mFrames d) 0); [lia|].
  cbn [mbind option_bind]. rewrite u64_small by lia.
  pose proof (driver_position d (Driver.mWritePos d + i) Hwf) as Hpos.
  rewrite (u32_small (_ mod _)) by lia.
  apply for_loop_ext. intros c m Hcc.
  rewrite (u32_small (i * Driver.mChannels d)) by nia.
  rewrite (u32_small (i * Driver.mChannels d + c)) by nia.
  rewrite (u32_small (_ mod _ * _)) by nia.
  rewrite (u32_small (_ mod _ * _ + c)) by nia.
  rewrite !usize_small by nia. done.
Qed.

(** The copy loop of [read]. *)
Lemma driver_read_loop d dst n :
  DriverView.wf d -> 0 <= n <= DriverView.available d ->
  for_loop (Z.to_nat n) 0 (fun i dst =>
      idx ← Driver.umod (u64 (Driver.mReadPos d + i)) (Driver.mFrames d);
      let idx := u32 idx in
      for_loop (Z.to_nat (Driver.mChannels d)) 0 (fun c dst =>
          v ← load (Driver.mBuffer d)
                (u32 (u32 (idx * Driver.mChannels d) + c));
          store dst (u32 (u32 (i * Driver.mChannels d) + c)) v) dst)
    dst
  = copy_frames (Driver.mBuffer d)
      (fun i => (Driver.mReadPos d + i) mod Driver.mFrames d
                * Driver.mChannels d)
      (fun i => i * Driver.mChannels d)
      n (Driver.mChannels d) dst.
Proof.
  intros Hwf Hn. pose proof Hwf as [Hf Hc Hs Hl Hr Hw Ha].
  unfold DriverView.available in Hn.
  unfold copy_frames. apply for_loop_ext. intros i mem Hi.
  unfold Driver.umod. destruct (Z.eqb_spec (Driver.mFrames d) 0); [lia|].
  cbn [mbind option_bind]. rewrite u64_small by lia.
  pose proof (driver_position d (Driver.mReadPos d + i) Hwf) as Hpos.
  rewrite (u32_small (_ mod _)) by lia.
  apply for_loop_ext. intros c m Hcc.
  rewrite (u32_small (i * Driver.mChannels d)) by nia.
  rewrite (u32_small (i * Driver.mChannels d + c)) by nia.
  rewrite (u32_small (_ mod _ * _)) by nia.
  rewrite (u32_small (_ mod _ * _ + c)) by nia.
  rewrite !usize_small by nia. done.
Qed.

(** The loop that fills the frames [n], ..., [frames - 1] of an array
    with silence. *)
Lemma driver_fill_loop dst N n frames :
  0 <= N -> 0 <= n <= frames ->
  frames * N <= Z.of_nat (length dst) -> frames * N < 2 ^ 32 ->
  for_loop (Z.to_nat (frames - n)) n (fun i dst =>
      for_loop (Z.to_nat N) 0 (fun c dst =>
          store dst (u32 (u32 (i * N) + c)) silence) dst)
    dst
  = Some (take (Z.to_nat (n * N)) dst
          ++ replicate (Z.to_nat ((frames - n) * N)) silence
          ++ drop (Z.to_nat (frames * N)) dst).
Proof.
  intros HN Hn Hroom Hfit.
  pose (P := fun (hi : Z) (d : list sample) =>
    length d = length dst
    /\ forall p, load d p
                 = if (n * N <=? p) && (p <? hi) then Some silence
                   else load dst p).
  destruct (for_loop_total (fun i => P (i * N)) (Z.to_nat (frames - n)) n
              (fun i dst =>
                 for_loop (Z.to_nat N) 0 (fun c dst =>
                     store dst (u32 (u32 (i * N) + c)) silence) dst) dst)
    as (dst' & Hrun & Hlen & Hload).
  - split; [done|]. intros p.
    destruct (Z.leb_spec (n * N) p), (Z.ltb_spec p (n * N)); done || lia.
  - intros i d Hi (Hlen & Hload).
    destruct (for_loop_total (fun c => P (i * N + c)) (Z.to_nat N) 0
                (fun c dst => store dst (u32 (u32 (i * N) + c)) silence) d)
      as (d' & Hrun' & HP').
    + split; [done|]. intros p. rewrite Z.add_0_r. apply Hload.
    + intros c e Hc (Hlen' & Hload').
      rewrite (u32_small (i * N)) by nia.
      rewrite (u32_small (i * N + c)) by nia.
      assert (Hst : store e (i * N + c) silence
                    = Some (<[Z.to_nat (i * N + c) := silence]> e))
        by (apply store_in_range; nia).
      rewrite Hst. eexists. split; [done|]. split.
      * rewrite length_insert. done.
      * intros p. destruct (Z.eq_dec p (i * N + c)) as [->|Hne].
        -- rewrite (load_store_eq _ _ _ _ Hst).
           destruct (Z.leb_spec (n * N) (i * N + c)); [|nia].
           destruct (Z.ltb_spec (i * N + c) (i * N + (c + 1))); [done|lia].
        -- rewrite (load_store_ne _ _ _ _ _ Hst) by done. rewrite Hload'.
           destruct (Z.leb_spec (n * N) p); [|done]. simpl.
           destruct (Z.ltb_spec p (i * N + c)),
             (Z.ltb_spec p (i * N + (c + 1))); done || lia.
    + exists d'. split; [exact Hrun'|].
      rewrite Z.add_0_l, Z2Nat.id in HP' by lia.
      replace ((i + 1) * N) with (i * N + N) by lia. exact HP'.
  - rewrite Hrun. f_equal.
    replace (n + Z.of_nat (Z.to_nat (frames - n))) with frames
      in Hload by lia.
    apply load_ext. intros p Hp. rewrite Hload.
    rewrite load_app, length_take.
    replace (Z.of_nat (Z.to_nat (n * N) `min` length dst))
      with (n * N) by nia.
    destruct (Z.leb_spec (n * N) p), (Z.ltb_spec p (n * N)); try lia.
    + simpl. rewrite load_app, length_replicate, load_replicate.
      replace (Z.of_nat (Z.to_nat ((frames - n) * N)))
        with (frames * N - n * N) by nia.
      destruct (Z.ltb_spec p (frames * N)),
        (Z.ltb_spec (p - n * N) (frames * N - n * N)); try lia.
      * destruct (Z.leb_spec 0 (p - n * N)); [done|lia].
      * rewrite load_drop by lia. f_equal. nia.
    + simpl. rewrite load_take.
      destruct (Z.ltb_spec p (Z.of_nat (Z.to_nat (n * N)))); [done|nia].
Qed.
End DriverLoops.

Section DriverQueue.
Context {sample : Type}.
Variable silence : sample.
Implicit Types (this d : Driver.RingBuffer sample) (a dst src mem : list sample).


Lemma driver_take_queued d n :
  0 <= n <= DriverView.available d ->
  take (Z.to_nat n) (DriverView.queued d)
  = DriverView.frame_at d <$> seqZ 0 n.
Proof.
  intros H. unfold DriverView.queued. now rewrite <- fmap_take, take_seqZ.
Qed.

Lemma driver_length_frame_at d j :
  DriverView.wf d ->
  Z.of_nat (length (DriverView.frame_at d j)) = Driver.mChannels d.
Proof.
  intros Hwf.
  pose proof (driver_position d (Driver.mReadPos d + j) Hwf).
  destruct Hwf. unfold DriverView.frame_at. apply length_frame_of; nia.
Qed.

Lemma driver_length_concat_queued d n :
  DriverView.wf d -> 0 <= n <= DriverView.available d ->
  Z.of_nat (length (concat (take (Z.to_nat n) (DriverView.queued d))))
  = n * Driver.mChannels d.
Proof.
  intros Hwf Hn. rewrite driver_take_queued by done.
  apply length_concat_seqZ; [lia | destruct Hwf; lia |].
  intros i _. now apply driver_length_frame_at.
Qed.

(** What [write] does: the count, the cursor, the queue. *)
Lemma driver_write_spec d data frames :
  DriverView.wf d -> 0 <= frames < 2 ^ 32 ->
  DriverView.valid_array data frames (Driver.mChannels d) ->
  Driver.mWritePos d + frames < 2 ^ 64 ->
  let n := Z.min frames (Driver.mFrames d - DriverView.available d) in
  exists mem,
    Driver.write d data frames
    = Some (Driver.mkRingBuffer mem (Driver.mFrames d) (Driver.mChannels d)
              (Driver.mWritePos d + n) (Driver.mReadPos d), n)
    /\ DriverView.wf
         (Driver.mkRingBuffer mem (Driver.mFrames d) (Driver.mChannels d)
            (Driver.mWritePos d + n) (Driver.mReadPos d))
    /\ DriverView.queued
         (Driver.mkRingBuffer mem (Driver.mFrames d) (Driver.mChannels d)
            (Driver.mWritePos d + n) (Driver.mReadPos d))
       = DriverView.queued d ++ frames_of (Driver.mChannels d) data n.
Proof.
  intros Hwf Hfr [[Hroom Hmax] Hfit] Hwrap n.
  destruct (driver_available d Hwf) as [Hav32 Hav].
  pose proof Hwf as [Hf Hc Hs Hl Hr Hw Ha].
  assert (Hn : 0 <= n <= Driver.mFrames d - DriverView.available d
               /\ n <= frames) by (unfold n; lia).
  unfold sizeof_float in Hmax.
  unfold Driver.write. cbv zeta.
  rewrite Hav32, (u32_small (_ - _)), std_min_min by lia. fold n.
  clearbody n.
  rewrite driver_write_loop by (done || lia).
  destruct (copy_frames_spec data (fun i => i * Driver.mChannels d)
              (fun i => (Driver.mWritePos d + i) mod Driver.mFrames d
                        * Driver.mChannels d)
              n (Driver.mChannels d) (Driver.mBuffer d))
    as (mem & Hrun & Hlen & Hin & Hout); try lia.
  - intros i Hi. nia.
  - intros i Hi.
    pose proof (driver_position d (Driver.mWritePos d + i) Hwf). nia.
  - intros i j Hi Hj. apply frame_disjoint; [lia|].
    apply mod_add_inj; lia.
  - exists mem. rewrite Hrun. cbn [mbind option_bind].
    rewrite u64_small by lia. split; [done|].
    unfold DriverView.available in *.
    split.
    { split; cbn [Driver.mBuffer Driver.mFrames Driver.mChannels
                    Driver.mWritePos Driver.mReadPos]; lia. }
    unfold DriverView.queued, DriverView.available.
    cbn [Driver.mBuffer Driver.mFrames Driver.mChannels
           Driver.mWritePos Driver.mReadPos].
    replace (Driver.mWritePos d + n - Driver.mReadPos d)
      with (Driver.mWritePos d - Driver.mReadPos d + n) by lia.
    rewrite seqZ_app, fmap_app by lia. f_equal.
    + apply Forall_fmap_ext_1, Forall_seqZ. intros j Hj.
      unfold DriverView.frame_at.
      cbn [Driver.mBuffer Driver.mFrames Driver.mChannels
             Driver.mWritePos Driver.mReadPos].
      pose proof (driver_position d (Driver.mReadPos d + j) Hwf) as Hpos.
      apply frame_of_ext; [nia | nia |].
      intros c Hcc. apply Hout. intros i Hi.
      replace (Driver.mWritePos d + i)
        with (Driver.mReadPos d
              + (Driver.mWritePos d - Driver.mReadPos d + i)) by lia.
      assert ((Driver.mReadPos d + j) mod Driver.mFrames d
              <> (Driver.mReadPos d
                  + (Driver.mWritePos d - Driver.mReadPos d + i))
                 mod Driver.mFrames d)
        by (apply mod_add_inj; lia).
      destruct (frame_disjoint (Driver.mChannels d)
                  ((Driver.mReadPos d + j) mod Driver.mFrames d)
                  ((Driver.mReadPos d
                    + (Driver.mWritePos d - Driver.mReadPos d + i))
                   mod Driver.mFrames d)); lia.
    + rewrite <- (Z.add_0_r (0 + _)), <- fmap_add_seqZ,
        <- list_fmap_compose.
      unfold frames_of.
      apply Forall_fmap_ext_1, Forall_seqZ. intros i Hi.
      unfold compose, DriverView.frame_at.
      cbn [Driver.mBuffer Driver.mFrames Driver.mChannels
             Driver.mWritePos Driver.mReadPos].
      replace (Driver.mReadPos d
               + (0 + (Driver.mWritePos d - Driver.mReadPos d) + i))
        with (Driver.mWritePos d + i) by lia.
      pose proof (driver_position d (Driver.mWritePos d + i) Hwf) as Hpos.
      apply frame_of_ext; [nia | nia |].
      intros c Hcc. apply Hin; lia.
Qed.

(** The copy loop of [read]: the [n] oldest frames go to the head of
    the array. *)
Lemma driver_copy_out d dst n :
  DriverView.wf d -> 0 <= n <= DriverView.available d ->
  valid_array dst n (Driver.mChannels d) ->
  copy_frames (Driver.mBuffer d)
    (fun i => (Driver.mReadPos d + i) mod Driver.mFrames d
              * Driver.mChannels d)
    (fun i => i * Driver.mChannels d) n (Driver.mChannels d) dst
  = Some (concat (take (Z.to_nat n) (DriverView.queued d))
          ++ drop (Z.to_nat (n * Driver.mChannels d)) dst).
Proof.
  intros Hwf Hn [Hroom Hmax].
  pose proof Hwf as [Hf Hc Hs Hl Hr Hw Ha].
  unfold sizeof_float in Hmax.
  destruct (copy_frames_spec (Driver.mBuffer d)
              (fun i => (Driver.mReadPos d + i) mod Driver.mFrames d
                        * Driver.mChannels d)
              (fun i => i * Driver.mChannels d) n (Driver.mChannels d) dst)
    as (dst1 & Hrun & Hlen & Hin & Hout); try lia.
  - intros i Hi.
    pose proof (driver_position d (Driver.mReadPos d + i) Hwf). nia.
  - intros i Hi. nia.
  - intros i j Hi Hj. apply frame_disjoint; lia.
  - rewrite Hrun. f_equal.
    rewrite <- (take_drop (Z.to_nat (n * Driver.mChannels d)) dst1).
    f_equal.
    + rewrite <- concat_frames_of by lia.
      rewrite driver_take_queued by lia. f_equal.
      apply Forall_fmap_ext_1, Forall_seqZ. intros i Hi.
      unfold DriverView.frame_at.
      pose proof (driver_position d (Driver.mReadPos d + i) Hwf) as Hpos.
      apply frame_of_ext; [nia | nia |].
      intros c Hcc. apply Hin; lia.
    + apply load_ext. intros p Hp0. rewrite !load_drop by lia.
      apply Hout. intros i Hi. nia.
Qed.

(** Moving the read cursor on takes the oldest frames off the queue. *)
Lemma driver_advance_read d n :
  DriverView.wf d -> 0 <= n <= DriverView.available d ->
  let d' := Driver.mkRingBuffer (Driver.mBuffer d) (Driver.mFrames d)
              (Driver.mChannels d) (Driver.mWritePos d)
              (Driver.mReadPos d + n) in
  DriverView.wf d'
  /\ DriverView.queued d' = drop (Z.to_nat n) (DriverView.queued d).
Proof.
  intros Hwf Hn d'. pose proof Hwf as [Hf Hc Hs Hl Hr Hw Ha].
  unfold DriverView.available in Hn. split.
  { split; unfold d';
      cbn [Driver.mBuffer Driver.mFrames Driver.mChannels
             Driver.mWritePos Driver.mReadPos]; lia. }
  unfold DriverView.queued, DriverView.available, d'.
  cbn [Driver.mBuffer Driver.mFrames Driver.mChannels
         Driver.mWritePos Driver.mReadPos].
  rewrite <- fmap_drop, drop_seqZ by lia.
  replace (Driver.mWritePos d - (Driver.mReadPos d + n))
    with (Driver.mWritePos d - Driver.mReadPos d - n) by lia.
  rewrite <- (Z.add_0_r (0 + n)), <- fmap_add_seqZ, <- list_fmap_compose.
  apply Forall_fmap_ext_1, Forall_seqZ. intros j Hj.
  unfold compose, DriverView.frame_at.
  cbn [Driver.mBuffer Driver.mFrames Driver.mChannels
         Driver.mWritePos Driver.mReadPos].
  do 2 f_equal. lia.
Qed.

(** What [read] returns, hands out and leaves. *)
Lemma driver_read_spec d dst frames :
  DriverView.wf d -> 0 <= frames < 2 ^ 32 ->
  DriverView.valid_array dst frames (Driver.mChannels d) ->
  let n := Z.min frames (DriverView.available d) in
  Driver.read silence d dst frames
  = Some (Driver.mkRingBuffer (Driver.mBuffer d) (Driver.mFrames d)
            (Driver.mChannels d) (Driver.mWritePos d)
            (Driver.mReadPos d + n),
          concat (take (Z.to_nat n) (DriverView.queued d))
          ++ replicate (Z.to_nat ((frames - n) * Driver.mChannels d))
               silence
          ++ drop (Z.to_nat (frames * Driver.mChannels d)) dst,
          n).
Proof.
  intros Hwf Hfr [[Hroom Hmax] Hfit] n.
  destruct (driver_available d Hwf) as [Hav32 Hav].
  pose proof Hwf as [Hf Hc Hs Hl Hr Hw Ha].
  assert (Hn : 0 <= n <= DriverView.available d /\ n <= frames)
    by (unfold n; lia).
  unfold Driver.read. cbv zeta.
  rewrite Hav32, std_min_min. fold n. clearbody n.
  assert (Hrem : 0 <= (frames - n) * Driver.mChannels d
                 /\ 0 <= n * Driver.mChannels d
                 /\ n * Driver.mChannels d
                    + (frames - n) * Driver.mChannels d
                    = frames * Driver.mChannels d) by nia.
  rewrite driver_read_loop by (done || lia).
  rewrite driver_copy_out; [|done|lia|split; [lia|done]].
  cbn [mbind option_bind].
  pose proof (driver_length_concat_queued d n Hwf ltac:(lia)) as Hq.
  rewrite driver_fill_loop; [| lia | lia | |lia].
  2:{ rewrite length_app, length_drop. lia. }
  cbn [mbind option_bind].
  unfold DriverView.available in Hn.
  rewrite u64_small by lia. do 3 f_equal.
  rewrite take_app_length', drop_app_ge, drop_drop by lia.
  replace (Z.to_nat (n * Driver.mChannels d)
           + (Z.to_nat (frames * Driver.mChannels d)
              - length (concat (take (Z.to_nat n)
                                  (DriverView.queued d)))))%nat
    with (Z.to_nat (frames * Driver.mChannels d)) by lia.
  done.
Qed.

(** What [reset] leaves. *)
Lemma driver_reset_spec d :
  DriverView.wf d ->
  Driver.reset silence d
  = Some (Driver.mkRingBuffer
            (replicate (Z.to_nat (Driver.mFrames d * Driver.mChannels d))
               silence)
            (Driver.mFrames d) (Driver.mChannels d) 0 0).
Proof.
  intros [Hf Hc Hs Hl Hr Hw Ha]. unfold Driver.reset.
  rewrite (u32_small (_ * _)) by nia.
  rewrite (usize_small (_ * sizeof_float)) by (unfold sizeof_float; nia).
  rewrite memset_zero_spec by nia.
  cbn [mbind option_bind]. do 2 f_equal.
  rewrite drop_ge by lia. simpl. now rewrite app_nil_r.
Qed.
End DriverQueue.

Section DriverProperties.
Context {sample : Type}.
Variable silence : sample.
Implicit Types (this d : Driver.RingBuffer sample) (a dst src mem : list sample).




(** X5. The driver's buffer: write.  In every state of a live object
    of the class [RingBuffer], whatever its capacity (a power of two or
    not), as long as the write cursor stays below [2^64], [write]
    returns [toWrite = min(frames, capacity - available)], appends the
    first [toWrite] frames of the data to the queue and drops the
    others, moves the write cursor on by [toWrite] and leaves the read
    cursor, the capacity and the channel count. *)
Theorem driver_write_policy d data frames :
  DriverView.wf d -> 0 <= frames < 2 ^ 32 ->
  DriverView.valid_array data frames (Driver.mChannels d) ->
  Driver.mWritePos d + frames < 2 ^ 64 ->
  let toWrite :=
    Z.min frames (Driver.mFrames d - DriverView.available d) in
  exists d',
    Driver.write d data frames = Some (d', toWrite)
    /\ DriverView.wf d'
    /\ Driver.mFrames d' = Driver.mFrames d
    /\ Driver.mChannels d' = Driver.mChannels d
    /\ Driver.mWritePos d' = Driver.mWritePos d + toWrite
    /\ Driver.mReadPos d' = Driver.mReadPos d
    /\ DriverView.available d' = DriverView.available d + toWrite
    /\ DriverView.queued d'
       = DriverView.queued d ++ frames_of (Driver.mChannels d) data toWrite.
Proof.
  intros Hwf Hfr Hdata Hwrap toWrite.
  destruct (driver_write_spec d data frames Hwf Hfr Hdata Hwrap)
    as (mem & Hrun & Hwf' & Hq).
  fold toWrite in Hrun, Hwf', Hq.
  eexists. split; [exact Hrun|]. split; [exact Hwf'|].
  do 4 (split; [reflexivity|]). split; [|exact Hq].
  unfold DriverView.available.
  cbn [Driver.mWritePos Driver.mReadPos]. lia.
Qed.

Lemma driver_read_step d dst frames :
  DriverView.wf d -> 0 <= frames < 2 ^ 32 ->
  DriverView.valid_array dst frames (Driver.mChannels d) ->
  let toRead := Z.min frames (DriverView.available d) in
  let dst' :=
    concat (take (Z.to_nat toRead) (DriverView.queued d))
    ++ replicate (Z.to_nat ((frames - toRead) * Driver.mChannels d))
         silence
    ++ drop (Z.to_nat (frames * Driver.mChannels d)) dst in
  exists d',
    Driver.read silence d dst frames = Some (d', dst', toRead)
    /\ DriverView.wf d'
    /\ Driver.mBuffer d' = Driver.mBuffer d
    /\ Driver.mFrames d' = Driver.mFrames d
    /\ Driver.mChannels d' = Driver.mChannels d
    /\ Driver.mWritePos d' = Driver.mWritePos d
    /\ Driver.mReadPos d' = Driver.mReadPos d + toRead
    /\ DriverView.queued d' = drop (Z.to_nat toRead) (DriverView.queued d)
    /\ Z.of_nat (length (concat (take (Z.to_nat toRead)
                                   (DriverView.queued d))))
       = toRead * Driver.mChannels d
    /\ length dst' = length dst.
Proof.
  intros Hwf Hfr Hdst toRead dst'.
  destruct (driver_available d Hwf) as [_ Hav].
  assert (Hn : 0 <= toRead <= DriverView.available d /\ toRead <= frames)
    by (unfold toRead; lia).
  pose proof (driver_read_spec silence d dst frames Hwf Hfr Hdst) as Hrun.
  fold toRead in Hrun. fold dst' in Hrun.
  destruct (driver_advance_read d toRead Hwf ltac:(lia)) as [Hwf' Hq'].
  pose proof (driver_length_concat_queued d toRead Hwf ltac:(lia)) as Hlen.
  destruct Hdst as [[Hroom Hmax] Hfit]. pose proof Hwf as [_ Hc _ _ _ _ _].
  assert (Hrem : 0 <= (frames - toRead) * Driver.mChannels d
                 /\ 0 <= toRead * Driver.mChannels d
                 /\ toRead * Driver.mChannels d
                    + (frames - toRead) * Driver.mChannels d
                    = frames * Driver.mChannels d) by nia.
  clearbody toRead.
  eexists. split; [exact Hrun|]. split; [exact Hwf'|].
  do 5 (split; [reflexivity|]). split; [exact Hq'|]. split; [exact Hlen|].
  unfold dst'. rewrite !length_app, length_replicate, length_drop. lia.
Qed.



(** X8. The driver's buffer: constructor and reset.  For a capacity of
    at least one frame whose sample count fits 32 bits, the constructor
    of the class [RingBuffer], when its allocation is granted, makes a
    live object with an empty queue; and in every state of a live
    object [reset] leaves exactly the object that the constructor makes
    for the same capacity and channel count. *)
Theorem driver_reset_is_new d alloc :
  DriverView.wf d ->
  alloc (Driver.mFrames d * Driver.mChannels d * sizeof_float) = true ->
  exists d0,
    Driver.new silence alloc (Driver.mFrames d) (Driver.mChannels d)
    = Ptr d0
    /\ Driver.reset silence d = Some d0
    /\ DriverView.wf d0
    /\ DriverView.available d0 = 0
    /\ DriverView.queued d0 = []
    /\ Driver.mFrames d0 = Driver.mFrames d
    /\ Driver.mChannels d0 = Driver.mChannels d
    /\ (forall p, 0 <= p < Driver.mFrames d * Driver.mChannels d ->
          load (Driver.mBuffer d0) p = Some silence).
Proof.
  intros Hwf Halloc. pose proof Hwf as [Hf Hc Hs Hl Hr Hw Ha].
  eexists. split.
  { unfold Driver.new, calloc. rewrite (u32_small (_ * _)) by nia.
    rewrite Halloc.
    destruct (Z.ltb_spec (Driver.mFrames d * Driver.mChannels d
                          * sizeof_float) (2 ^ 64)) as [|Hge];
      [reflexivity | unfold sizeof_float in Hge; lia]. }
  split; [now apply driver_reset_spec|]. split.
  { split; cbn [Driver.mBuffer Driver.mFrames Driver.mChannels
                  Driver.mWritePos Driver.mReadPos]; try lia.
    rewrite length_replicate. nia. }
  split; [reflexivity|]. split; [reflexivity|].
  do 2 (split; [reflexivity|]).
  intros p Hp. cbn [Driver.mBuffer]. rewrite load_replicate.
  destruct (Z.leb_spec 0 p); [|lia].
  destruct (Z.ltb_spec p (Z.of_nat (Z.to_nat
              (Driver.mFrames d * Driver.mChannels d)))); [done|lia].
Qed.
End DriverProperties.

Section PluginIO.
Context {sample float64 : Type}.
Variable silence : sample.
Context {HA : CoreAudio} {HF : Floats sample float64}.
Import Plugin PluginView.
Implicit Types (g : PlugInState sample float64)
  (rb : Driver.RingBuffer sample) (buffer raw : list sample).

(** The volume loop of [Plugin_DoIO]. *)
Lemma gain_loop buffer (f : sample -> sample) n :
  0 <= n <= Z.of_nat (length buffer) ->
  for_loop (Z.to_nat n) 0
    (fun i buffer => v ← load buffer i; store buffer i (f v)) buffer
  = Some ((f <$> take (Z.to_nat n) buffer) ++ drop (Z.to_nat n) buffer).
Proof.
  intros Hn.
  destruct (for_loop_total
              (fun i s => s = (f <$> take (Z.to_nat i) buffer)
                              ++ drop (Z.to_nat i) buffer)
              (Z.to_nat n) 0
              (fun i buffer => v ← load buffer i; store buffer i (f v))
              buffer) as (s' & Hs & Hinv).
  - now rewrite take_0, drop_0.
  - intros i s Hi ->.
    destruct (lookup_lt_is_Some_2 buffer (Z.to_nat i)) as [x Hx]; [lia|].
    assert (Hlen : length (f <$> take (Z.to_nat i) buffer) = Z.to_nat i).
    { rewrite length_fmap, length_take. lia. }
    rewrite load_lookup by lia.
    rewrite lookup_app_r by lia. rewrite Hlen, Nat.sub_diag.
    rewrite lookup_drop, Nat.add_0_r, Hx. cbn [mbind option_bind].
    rewrite store_in_range
      by (rewrite length_app, Hlen, length_drop; lia).
    eexists; split; [reflexivity|].
    replace (Z.to_nat (i + 1)) with (Datatypes.S (Z.to_nat i)) by lia.
    rewrite (take_S_r _ _ _ Hx), fmap_app, <- app_assoc.
    rewrite (drop_S _ _ _ Hx).
    rewrite insert_app_r_alt by lia. rewrite Hlen, Nat.sub_diag.
    reflexivity.
  - rewrite Hs, Hinv. now rewrite Z.add_0_l, Nat2Z.id.
Qed.

Lemma live_with_ring g rb rb' :
  live g rb -> DriverView.wf rb' ->
  Driver.mChannels rb' = Driver.mChannels rb ->
  live (with_ring g rb') rb'.
Proof.
  intros (_ & _ & Hc) Hwf Hc'. split; [reflexivity|]. split; [done|].
  congruence.
Qed.

(** What [Plugin_DoIO] makes of the array that the ring buffer has
    filled. *)
Lemma doio_monitor g raw rest n :
  Z.of_nat (length raw) = n -> n < 2 ^ 32 ->
  Z.of_nat (length (raw ++ rest)) * sizeof_float < 2 ^ 64 ->
  (if muted g then
     memset_zero silence (raw ++ rest) 0
       (usize (u32 n * sizeof_Float32))
   else
     let vol := volume g in
     if f32_neq vol f32_one then
       for_loop (Z.to_nat (u32 n)) 0
         (fun i buffer =>
            v ← load buffer i; store buffer i (f32_mul v vol))
         (raw ++ rest)
     else Some (raw ++ rest))
  = Some (monitor silence g raw ++ rest).
Proof.
  intros Hlen Hn Hbytes. unfold monitor.
  assert (Hu : u32 n = n) by (unfold u32; apply Z.mod_small; lia).
  rewrite Hu. rewrite length_app in Hbytes.
  unfold sizeof_float, sizeof_Float32 in *.
  destruct (muted g).
  - unfold memset_zero, usize, u64, sizeof_float.
    rewrite (Z.mod_small (n * 4)) by lia.
    rewrite Z.div_mul by lia.
    destruct (Z.leb_spec 0 0); [|lia].
    destruct (Z.leb_spec (0 + n) (Z.of_nat (length (raw ++ rest))));
      [|rewrite length_app in *; lia].
    cbn [andb]. rewrite take_0. cbn [app].
    replace (Z.to_nat (0 + n)) with (length raw) by lia.
    rewrite drop_app_length.
    now replace (Z.to_nat n) with (length raw) by lia.
  - cbv zeta. destruct (f32_neq (volume g) f32_one); [|done].
    rewrite gain_loop by (rewrite length_app; lia).
    replace (Z.to_nat n) with (length raw) by lia.
    now rewrite take_app_length, drop_app_length.
Qed.

Lemma driver_reset_live rb :
  DriverView.wf rb ->
  exists rb0,
    Driver.reset silence rb = Some rb0
    /\ DriverView.wf rb0
    /\ Driver.mFrames rb0 = Driver.mFrames rb
    /\ Driver.mChannels rb0 = Driver.mChannels rb
    /\ Driver.mWritePos rb0 = 0
    /\ Driver.mReadPos rb0 = 0.
Proof.
  intros Hwf. eexists. split; [now apply driver_reset_spec|].
  destruct Hwf as [Hf Hc Hs Hl Hr Hw Ha].
  split; [|done].
  split; cbn [Driver.mBuffer Driver.mFrames Driver.mChannels
                Driver.mWritePos Driver.mReadPos]; try lia.
  rewrite length_replicate. nia.
Qed.

Lemma driver_queued_empty rb : DriverView.available rb = 0 -> DriverView.queued rb = [].
Proof. intros E. unfold DriverView.queued. now rewrite E. Qed.

Lemma doio_write_step g rb buffer bufferFrames :
  live g rb -> 0 <= bufferFrames < 2 ^ 32 ->
  DriverView.valid_array buffer bufferFrames Driver.kDevice_ChannelCount ->
  Driver.mWritePos rb + bufferFrames < 2 ^ 64 ->
  let toWrite :=
    Z.min bufferFrames (Driver.mFrames rb - DriverView.available rb) in
  exists rb',
    Plugin_DoIO silence g kAudioServerPlugInIOOperationWriteMix
      bufferFrames buffer
    = Some (with_ring g rb', buffer, kAudioHardwareNoError)
    /\ live (with_ring g rb') rb'
    /\ Driver.mFrames rb' = Driver.mFrames rb
    /\ DriverView.available rb' = DriverView.available rb + toWrite
    /\ DriverView.queued rb'
       = DriverView.queued rb
         ++ frames_of Driver.kDevice_ChannelCount buffer toWrite.
Proof.
  intros Hlive Hf Hvalid Hw toWrite.
  pose proof Hlive as (Hring & Hwf & Hc).
  rewrite <- Hc in Hvalid.
  destruct (driver_write_spec rb buffer bufferFrames Hwf Hf Hvalid Hw)
    as (mem & Hwrite & Hwf' & Hq).
  fold toWrite in Hwrite, Hwf', Hq.
  eexists. unfold Plugin_DoIO. rewrite Z.eqb_refl, Hring.
  cbn [deref mbind option_bind]. rewrite Hwrite. cbn [mbind option_bind].
  split; [reflexivity|].
  split; [now apply (live_with_ring g rb)|].
  split; [done|].
  split; [unfold DriverView.available; cbn [Driver.mWritePos Driver.mReadPos]; lia|].
  now rewrite Hq, Hc.
Qed.

Lemma doio_read_step g rb buffer bufferFrames :
  kAudioServerPlugInIOOperationReadInput
  <> kAudioServerPlugInIOOperationWriteMix ->
  live g rb -> 0 <= bufferFrames < 2 ^ 32 ->
  DriverView.valid_array buffer bufferFrames Driver.kDevice_ChannelCount ->
  let toRead := Z.min bufferFrames (DriverView.available rb) in
  let raw :=
    concat (take (Z.to_nat toRead) (DriverView.queued rb))
    ++ replicate
         (Z.to_nat ((bufferFrames - toRead) * Driver.kDevice_ChannelCount))
         silence in
  exists rb',
    Plugin_DoIO silence g kAudioServerPlugInIOOperationReadInput
      bufferFrames buffer
    = Some (with_ring g rb',
            monitor silence g raw
            ++ drop (Z.to_nat (bufferFrames * Driver.kDevice_ChannelCount))
                 buffer,
            kAudioHardwareNoError)
    /\ live (with_ring g rb') rb'
    /\ Driver.mFrames rb' = Driver.mFrames rb
    /\ DriverView.available rb' = DriverView.available rb - toRead
    /\ DriverView.queued rb'
       = drop (Z.to_nat toRead) (DriverView.queued rb)
    /\ Z.of_nat (length raw)
       = bufferFrames * Driver.kDevice_ChannelCount.
Proof.
  intros Hops Hlive Hf Hvalid toRead raw.
  pose proof Hlive as (Hring & Hwf & Hc).
  rewrite <- Hc in Hvalid.
  destruct (driver_read_step silence rb buffer bufferFrames Hwf Hf Hvalid)
    as (rb' & Hread & Hwf' & _ & Hfr & Hch & Hwp & Hrp & Hq & Hlen & Hlen').
  fold toRead in Hread, Hwp, Hrp, Hq, Hlen, Hlen'.
  rewrite Hc in Hread, Hlen, Hlen'. fold raw in Hread.
  assert (Hav : 0 <= DriverView.available rb)
    by (destruct Hwf; unfold DriverView.available; lia).
  assert (Hraw : Z.of_nat (length raw)
                 = bufferFrames * Driver.kDevice_ChannelCount).
  { unfold raw. rewrite length_app, length_replicate, Nat2Z.inj_add, Hlen.
    unfold Driver.kDevice_ChannelCount in *. lia. }
  exists rb'. unfold Plugin_DoIO.
  destruct (Z.eqb_spec kAudioServerPlugInIOOperationReadInput
              kAudioServerPlugInIOOperationWriteMix) as [E|_]; [done|].
  rewrite Z.eqb_refl, Hring. cbn [deref mbind option_bind].
  rewrite Hread. cbn [mbind option_bind].
  rewrite app_assoc. fold raw.
  destruct Hvalid as ((Hroom & Hbytes) & Hsmall). rewrite Hc in *.
  rewrite doio_monitor; [| done | lia |].
  2:{ rewrite app_assoc in Hlen'. fold raw in Hlen'. now rewrite Hlen'. }
  cbn [mbind option_bind].
  split; [reflexivity|].
  split; [apply (live_with_ring g rb); [done | done | congruence]|].
  split; [done|].
  split; [unfold DriverView.available; lia|].
  done.
Qed.



(** X11. Loopback.  On a plug-in without clients the first
    [Plugin_StartIO] sets the device running, records the host time and
    empties the ring buffer; [k] frames, at most the capacity, written
    then by [Plugin_DoIO] for WriteMix are the frames that the next
    [Plugin_DoIO] for ReadInput of [k] frames hands out, sample for
    sample, passed through mute and volume; the ring buffer is empty
    again. *)
Theorem loopback_after_start g rb now data out k :
  kAudioServerPlugInIOOperationReadInput
  <> kAudioServerPlugInIOOperationWriteMix ->
  live g rb -> clientCount g = 0 ->
  0 <= k <= Driver.mFrames rb ->
  DriverView.valid_array data k Driver.kDevice_ChannelCount ->
  DriverView.valid_array out k Driver.kDevice_ChannelCount ->
  exists g1 g2 g3 rb3,
    Plugin_StartIO silence g now = Some (g1, kAudioHardwareNoError)
    /\ Plugin_DoIO silence g1 kAudioServerPlugInIOOperationWriteMix k data
       = Some (g2, data, kAudioHardwareNoError)
    /\ Plugin_DoIO silence g2 kAudioServerPlugInIOOperationReadInput k out
       = Some (g3,
               monitor silence g
                 (take (Z.to_nat (k * Driver.kDevice_ChannelCount)) data)
               ++ drop (Z.to_nat (k * Driver.kDevice_ChannelCount)) out,
               kAudioHardwareNoError)
    /\ isRunning g3 = true
    /\ clientCount g3 = 1
    /\ anchorHostTime g3 = now
    /\ live g3 rb3
    /\ DriverView.available rb3 = 0.
Proof.
  intros Hops Hlive Hcount Hk Hdata Hout.
  pose proof Hlive as (Hring & Hwf & Hc).
  assert (Hk32 : 0 <= k < 2 ^ 32) by (destruct Hwf; lia).
  destruct (driver_reset_live rb Hwf)
    as (rb0 & Hreset & Hwf0 & Hf0 & Hc0 & Hw0 & Hr0).
  set (g1 := mkPlugInState (host g) (sampleRate g) true 1 now 0
               (volume g) (muted g) (Ptr rb0)).
  assert (Hlive1 : live g1 rb0).
  { split; [reflexivity|]. split; [done|]. congruence. }
  assert (Hav0 : DriverView.available rb0 = 0)
    by (unfold DriverView.available; lia).
  destruct (doio_write_step g1 rb0 data k Hlive1 Hk32 Hdata ltac:(lia))
    as (rb2 & Hwrite & Hlive2 & Hf2 & Hav2 & Hq2).
  rewrite (driver_queued_empty rb0 Hav0), Hav0, Hf0 in *.
  rewrite Z.sub_0_r, Z.min_l in * by lia. cbn [app] in Hq2.
  rewrite Z.add_0_l in Hav2.
  destruct (doio_read_step (with_ring g1 rb2) rb2 out k Hops Hlive2
              Hk32 Hout)
    as (rb3 & Hread & Hlive3 & Hf3 & Hav3 & Hq3 & Hlen3).
  rewrite Hav2, Z.min_id, Z.sub_diag in *.
  change (Z.to_nat (0 * Driver.kDevice_ChannelCount)) with 0%nat in Hread.
  cbn [replicate] in Hread. rewrite app_nil_r in Hread.
  rewrite Hq2 in Hread.
  rewrite <- (length_frames_of Driver.kDevice_ChannelCount data k) in Hread
      at 1.
  rewrite firstn_all in Hread.
  rewrite concat_frames_of in Hread
    by (unfold Driver.kDevice_ChannelCount; lia).
  exists g1, (with_ring g1 rb2), (with_ring (with_ring g1 rb2) rb3), rb3.
  split.
  { unfold Plugin_StartIO. rewrite Hcount, Hring. cbn [Z.eqb deref].
    cbn [mbind option_bind]. rewrite Hreset. reflexivity. }
  split; [done|]. split; [exact Hread|].
  repeat (split; [reflexivity|]). now split.
Qed.

Lemma start_io_step g rb now :
  live g rb -> clients_inv g -> clientCount g + 1 < 2 ^ 32 ->
  exists g' rb',
    Plugin_StartIO silence g now = Some (g', kAudioHardwareNoError)
    /\ live g' rb' /\ clients_inv g'
    /\ clientCount g' = clientCount g + 1
    /\ volume g' = volume g /\ muted g' = muted g
    /\ sampleRate g' = sampleRate g
    /\ Driver.mFrames rb' = Driver.mFrames rb.
Proof.
  intros Hlive (Hrange & Hrun) Hroom.
  pose proof Hlive as (Hring & Hwf & Hc).
  unfold Plugin_StartIO.
  assert (Hu : u32 (clientCount g + 1) = clientCount g + 1)
    by (unfold u32; apply Z.mod_small; lia).
  rewrite Hu.
  destruct (Z.eqb_spec (clientCount g) 0) as [E|E].
  - destruct (driver_reset_live rb Hwf)
      as (rb0 & Hreset & Hwf0 & Hf0 & Hc0 & _).
    rewrite Hring. cbn [deref mbind option_bind].
    rewrite Hreset. cbn [mbind option_bind].
    eexists _, rb0. split; [reflexivity|].
    split; [split; [reflexivity|]; split; [done | congruence]|].
    split; [|now rewrite E].
    split; cbn [clientCount isRunning]; [lia|]. now rewrite E.
  - eexists _, rb. split; [reflexivity|].
    split; [done|].
    split; [|done].
    split; cbn [clientCount isRunning]; [lia|].
    rewrite Hrun.
    destruct (Z.eqb_spec (clientCount g) 0); [done|].
    destruct (Z.eqb_spec (clientCount g + 1) 0); [lia | done].
Qed.

Lemma stop_io_step g rb :
  live g rb -> clients_inv g -> 1 <= clientCount g ->
  let g' := (Plugin_StopIO g).1 in
  (Plugin_StopIO g).2 = kAudioHardwareNoError
  /\ live g' rb /\ clients_inv g'
  /\ clientCount g' = clientCount g - 1
  /\ volume g' = volume g /\ muted g' = muted g
  /\ sampleRate g' = sampleRate g.
Proof.
  intros Hlive (Hrange & Hrun) Hone g'.
  split; [reflexivity|]. split; [exact Hlive|].
  assert (Hu : u32 (clientCount g - 1) = clientCount g - 1)
    by (unfold u32; apply Z.mod_small; lia).
  unfold g', Plugin_StopIO. cbn [fst].
  split; [|cbn [clientCount volume muted sampleRate]; now rewrite Hu].
  split; cbn [clientCount isRunning]; rewrite Hu; [lia|].
  rewrite Hrun.
  destruct (Z.eqb_spec (clientCount g) 1) as [->|]; [done|].
  destruct (Z.eqb_spec (clientCount g) 0); [lia|].
  destruct (Z.eqb_spec (clientCount g - 1) 0); [lia | done].
Qed.

Lemma run_io_balanced (cs : list io_call) : forall g rb,
  live g rb -> clients_inv g -> balanced (clientCount g) cs ->
  exists g' rb',
    run_io silence g cs = Some g'
    /\ live g' rb' /\ clients_inv g'
    /\ clientCount g' = clients_after (clientCount g) cs
    /\ volume g' = volume g /\ muted g' = muted g
    /\ sampleRate g' = sampleRate g
    /\ Driver.mFrames rb' = Driver.mFrames rb.
Proof.
  induction cs as [|c cs IH]; intros g rb Hlive Hinv Hbal.
  - exists g, rb. do 3 (split; [done|]). now repeat (split; [reflexivity|]).
  - destruct c as [now|]; cbn [balanced] in Hbal; destruct Hbal as [Hb Hbal].
    + destruct (start_io_step g rb now Hlive Hinv Hb)
        as (g1 & rb1 & Hstart & Hlive1 & Hinv1 & Hc1 & Hv & Hm & Hs & Hf).
      rewrite <- Hc1 in Hbal.
      destruct (IH g1 rb1 Hlive1 Hinv1 Hbal)
        as (g' & rb' & Hrun & Hlive' & Hinv' & Hc' & Hv' & Hm' & Hs' & Hf').
      exists g', rb'. cbn [run_io clients_after]. rewrite Hstart.
      cbn [mbind option_bind]. rewrite <- Hc1.
      repeat (match goal with |- _ /\ _ => split end); done || congruence.
    + destruct (stop_io_step g rb Hlive Hinv Hb)
        as (_ & Hlive1 & Hinv1 & Hc1 & Hv & Hm & Hs).
      rewrite <- Hc1 in Hbal.
      destruct (IH _ rb Hlive1 Hinv1 Hbal)
        as (g' & rb' & Hrun & Hlive' & Hinv' & Hc' & Hv' & Hm' & Hs' & Hf').
      exists g', rb'. cbn [run_io clients_after]. rewrite <- Hc1.
      repeat (match goal with |- _ /\ _ => split end); done || congruence.
Qed.

(** X12. The device runs while it has clients.  From a state in which
    the running flag tells whether clients are counted, every sequence
    of [Plugin_StartIO] and [Plugin_StopIO] calls in which no client
    stops that has not started, with fewer than [2^32] clients at a
    time, runs without failure and leaves the client count at the
    starts less the stops, the running flag set exactly when this count
    is not 0, a live ring buffer of the same capacity, and the volume,
    the mute flag and the sample rate as they were. *)
Theorem running_while_clients (cs : list io_call) : forall g rb,
  live g rb -> clients_inv g -> balanced (clientCount g) cs ->
  exists g' rb',
    run_io silence g cs = Some g'
    /\ live g' rb' /\ clients_inv g'
    /\ clientCount g' = clients_after (clientCount g) cs
    /\ volume g' = volume g /\ muted g' = muted g
    /\ sampleRate g' = sampleRate g
    /\ Driver.mFrames rb' = Driver.mFrames rb.
Proof. apply run_io_balanced. Qed.

(** X13. A stop too many.  On a plug-in without clients
    [Plugin_StopIO] wraps the 32-bit client count to [2^32 - 1] and
    leaves the running flag; the [Plugin_StartIO] that follows brings
    the count back to 0 and neither starts the device nor resets the
    ring buffer: the state is the one before the two calls, with no
    client counted for the one that started. *)
Theorem stop_without_start g now :
  clientCount g = 0 ->
  clientCount (Plugin_StopIO g).1 = 2 ^ 32 - 1
  /\ isRunning (Plugin_StopIO g).1 = isRunning g
  /\ Plugin_StartIO silence (Plugin_StopIO g).1 now
     = Some (g, kAudioHardwareNoError).
Proof.
  intros Hcount. destruct g as [h sr run cc aht tc vol mu ring].
  cbn [clientCount] in Hcount. subst cc.
  unfold Plugin_StopIO, Plugin_StartIO.
  cbn [fst clientCount isRunning host sampleRate anchorHostTime
         timestampCounter volume muted ringBuffer].
  now vm_compute (u32 (0 - 1)).
Qed.

(** X14. Operations that are not announced are not done.  For every
    operation of which [Plugin_WillDoIO] says that it will not be done,
    [Plugin_DoIO] leaves the plug-in state and the main buffer as they
    are and reports no error, with or without a ring buffer;
    [Plugin_WillDoIO] announces every operation as done in place. *)
Theorem doio_only_announced_operations g operationID bufferFrames buffer :
  (Plugin_WillDoIO operationID).1.1 = false ->
  (Plugin_WillDoIO operationID).1.2 = true
  /\ Plugin_DoIO silence g operationID bufferFrames buffer
     = Some (g, buffer, kAudioHardwareNoError).
Proof.
  unfold Plugin_WillDoIO, Plugin_DoIO. cbn [fst snd].
  intros [-> ->]%orb_false_iff. done.
Qed.
End PluginIO.

(** ** The property tables of the plug-in *)

Section Switch.
Context {A : Type}.
Implicit Types (cases : list (list Z * A)) (labels : list Z).

Lemma existsb_eqb_In x labels :
  existsb (Z.eqb x) labels = true <-> In x labels.
Proof.
  rewrite existsb_exists. split.
  - intros (y & Hy & ->%Z.eqb_eq). exact Hy.
  - intros Hx. exists x. split; [exact Hx | apply Z.eqb_refl].
Qed.

Lemma existsb_eqb_not_In x labels :
  existsb (Z.eqb x) labels = false <-> ~ In x labels.
Proof.
  rewrite <- existsb_eqb_In. now destruct (existsb (Z.eqb x) labels).
Qed.

(** A switch takes its default, or the value of a group that holds the
    scrutinee. *)
Lemma switch_spec x cases (d : A) :
  (~ In x (concat cases.*1) /\ Plugin.switch x cases d = d)
  \/ (exists labels a,
        In (labels, a) cases /\ In x labels
        /\ Plugin.switch x cases d = a).
Proof.
  induction cases as [|[labels a] cases IH]; [left; split; [intros [] | done]|].
  cbn [Plugin.switch fmap list_fmap fst concat].
  destruct (existsb (Z.eqb x) labels) eqn:E.
  - right. exists labels, a. apply existsb_eqb_In in E.
    split; [now left | done].
  - apply existsb_eqb_not_In in E.
    destruct IH as [[Hnot ->] | (ls & a' & Hin & Hx & ->)].
    + left. split; [|done]. rewrite in_app_iff. tauto.
    + right. exists ls, a'. split; [now right | done].
Qed.

(** With distinct labels, the value is that of the group that holds the
    scrutinee. *)
Lemma switch_at x cases (d : A) (k : nat) labels a :
  NoDup (concat cases.*1) ->
  cases !! k = Some (labels, a) ->
  In x labels ->
  Plugin.switch x cases d = a.
Proof.
  revert k. induction cases as [|[ls a'] cases IH]; intros k Hnd Hk Hx;
    [done|].
  cbn [Plugin.switch fmap list_fmap fst concat] in *.
  apply NoDup_app in Hnd as (_ & Hdisj & Hnd).
  destruct k as [|k]; cbn in Hk.
  - injection Hk as -> ->.
    now rewrite (proj2 (existsb_eqb_In x labels) Hx).
  - rewrite (proj2 (existsb_eqb_not_In x ls)).
    + now apply (IH k).
    + intros Hls. apply (Hdisj x); [now apply list_elem_of_In|].
      apply list_elem_of_In, in_concat. exists labels.
      split; [|done]. apply in_map_iff. exists (labels, a).
      split; [done|]. apply list_elem_of_In. eapply list_elem_of_lookup_2, Hk.
Qed.

Lemma switch_single x labels (a d : A) :
  Plugin.switch x [(labels, a)] d
  = if existsb (Z.eqb x) labels then a else d.
Proof. reflexivity. Qed.

(** The switch on the object. *)
Lemma switch_object objectID (plugin device stream volume mute d : A) :
  Plugin.switch objectID
    [ ([Plugin.kObjectID_PlugIn], plugin);
      ([Plugin.kObjectID_Device], device);
      ([Plugin.kObjectID_Stream_Output; Plugin.kObjectID_Stream_Input],
       stream);
      ([Plugin.kObjectID_Volume_Master], volume);
      ([Plugin.kObjectID_Mute_Master], mute) ] d
  = if objectID =? 1 then plugin
    else if objectID =? 2 then device
    else if (objectID =? 3) || (objectID =? 4) then stream
    else if objectID =? 5 then volume
    else if objectID =? 6 then mute
    else d.
Proof.
  cbn [Plugin.switch existsb]. rewrite !orb_false_r. reflexivity.
Qed.
End Switch.

Lemma NoDup_same_elements (l l' : list Z) :
  NoDup l -> length l' = length l -> (forall x, In x l -> In x l') ->
  NoDup l'.
Proof.
  intros Hnd Hlen Hincl. apply NoDup_ListNoDup.
  apply (@NoDup_incl_NoDup _ l); [now apply NoDup_ListNoDup | lia | exact Hincl].
Qed.

Section SwitchDefault.
Context {A : Type}.

Lemma switch_default x (cases : list (list Z * A)) (d : A) :
  ~ In x (concat cases.*1) -> Plugin.switch x cases d = d.
Proof.
  intros Hnot.
  destruct (switch_spec x cases d) as [[_ E] | (ls & a & Hin & Hx & _)];
    [exact E|].
  destruct Hnot. apply in_concat. exists ls. split; [|exact Hx].
  apply in_map_iff. now exists (ls, a).
Qed.
End SwitchDefault.

Lemma switch_flag x (labels : list Z) :
  Plugin.switch x [(labels, true)] false = existsb (Z.eqb x) labels.
Proof. rewrite switch_single. now destruct (existsb (Z.eqb x) labels). Qed.

(** [eval_switch Hnd]: the value of the switch whose labels [Hnd] tells
    distinct, at a scrutinee that is one of its labels. *)
Ltac eval_switch_from Hnd k fuel :=
  lazymatch fuel with
  | O => fail "no case of the switch holds the scrutinee"
  | Datatypes.S ?fuel' =>
      first [ erewrite (switch_at _ _ _ k _ _ Hnd)
                by first [reflexivity | (simpl; auto 15)]
            | eval_switch_from Hnd (Datatypes.S k) fuel' ]
  end.
Ltac eval_switch Hnd := eval_switch_from Hnd 0%nat 24%nat.

Section PropertyTables.
Context {sample float64 : Type}.
Context {HA : CoreAudio} {HF : Floats sample float64}.
Import Plugin PluginView.
Implicit Types (g : PlugInState sample float64)
  (address : AudioObjectPropertyAddress).

Lemma has_property_labels objectID address :
  Plugin_HasProperty objectID address
  = existsb (Z.eqb (mSelector address)) (labels_of objectID).
Proof.
  unfold Plugin_HasProperty, labels_of. rewrite !switch_object.
  destruct (objectID =? 1); [apply switch_flag|].
  destruct (objectID =? 2); [apply switch_flag|].
  destruct ((objectID =? 3) || (objectID =? 4)); [apply switch_flag|].
  destruct (objectID =? 5); [apply switch_flag|].
  destruct (objectID =? 6); [apply switch_flag | reflexivity].
Qed.

(** X15. A size for each property that an object has.  For every
    object ID and every selector, [Plugin_GetPropertyDataSize] reports
    no error and a size between 1 and [2^32 - 1] exactly when
    [Plugin_HasProperty] answers true; in every other case, an unknown
    object too, it reports the size 0 and the error of an unknown
    property. *)
Theorem size_known_iff_has_property objectID address :
  match Plugin_GetPropertyDataSize objectID address with
  | (size, status) =>
      if Plugin_HasProperty objectID address
      then 0 < size < 2 ^ 32 /\ status = kAudioHardwareNoError
      else size = 0 /\ status = kAudioHardwareUnknownPropertyError
  end.
Proof.
  rewrite has_property_labels.
  unfold Plugin_GetPropertyDataSize, labels_of. rewrite !switch_object.
  destruct (objectID =? 1); [|
  destruct (objectID =? 2); [|
  destruct ((objectID =? 3) || (objectID =? 4)); [|
  destruct (objectID =? 5); [|
  destruct (objectID =? 6); [|cbn [existsb]; now split]]]]];
  (match goal with
   | |- context [Plugin.switch ?x ?cases ?d] =>
       destruct (switch_spec x cases d)
         as [[Hnot ->] | (ls & a & Hin & Hx & ->)]
   end;
   [ rewrite (proj2 (existsb_eqb_not_In _ _));
     [now split | intros Hc; apply Hnot; revert Hc; simpl; tauto]
   | rewrite (proj2 (existsb_eqb_In _ _));
     [ simpl in Hin;
       repeat (destruct Hin as [Hin|Hin];
               [injection Hin as <- <-; now vm_compute|]);
       destruct Hin
     | simpl in Hin;
       repeat (destruct Hin as [Hin|Hin];
               [injection Hin as <- <-; revert Hx; simpl; tauto|]);
       destruct Hin ] ]).
Qed.

(** The labels of a switch are those of the object, in another order
    and grouping. *)
Ltac same_labels L Hnd :=
  apply (NoDup_same_elements L);
  [ exact Hnd | reflexivity | intros ?; simpl; tauto ].

Ltac distinct_labels L Hnd name :=
  match goal with
  | |- context [Plugin.switch _ ?cases (None, _)] =>
      assert (name : NoDup (concat cases.*1)) by same_labels L Hnd
  end.

Ltac distinct_sizes L Hnd name :=
  match goal with
  | |- context [Plugin.switch _ ?cases 0] =>
      assert (name : NoDup (concat cases.*1)) by same_labels L Hnd
  end.

(** One object: the properties found, with the size announced. *)
Ltac one_object L Hnd :=
  let HG := fresh "HG" in
  let HS := fresh "HS" in
  let E := fresh "E" in
  distinct_labels L Hnd HG; distinct_sizes L Hnd HS;
  match goal with
  | |- context [existsb (Z.eqb ?sel) L] =>
      destruct (existsb (Z.eqb sel) L) eqn:E;
      [ apply existsb_eqb_In in E;
        unfold plugin_labels, device_labels, stream_labels, volume_labels,
          mute_labels in E;
        simpl in E;
        repeat (destruct E as [E|E];
                [ subst sel; eval_switch HG; eval_switch HS;
                  now repeat split |]);
        destruct E
      | apply existsb_eqb_not_In in E;
        rewrite switch_default
          by (intros Hc; apply E; revert Hc;
              unfold plugin_labels, device_labels, stream_labels,
                volume_labels, mute_labels;
              simpl; tauto);
        now split ]
  end.

(** X16. Data for each property that an object has.  When no two case
    labels of one switch are equal, [Plugin_GetPropertyData] writes data
    and a size exactly when [Plugin_HasProperty] answers true; it then
    reports no error, and the size is the one that
    [Plugin_GetPropertyDataSize] announces.  In every other case it
    writes nothing and reports the error of an unknown property for the
    six objects of the plug-in and the error of a bad object for every
    other ID. *)
Theorem data_found_iff_has_property g objectID address :
  labels_distinct ->
  match Plugin_GetPropertyData g objectID address with
  | (Some (_, size), status) =>
      Plugin_HasProperty objectID address = true
      /\ status = kAudioHardwareNoError
      /\ Plugin_GetPropertyDataSize objectID address
         = (size, kAudioHardwareNoError)
  | (None, status) =>
      Plugin_HasProperty objectID address = false
      /\ status = if is_object objectID
                  then kAudioHardwareUnknownPropertyError
                  else kAudioHardwareBadObjectError
  end.
Proof.
  intros (Hplugin & Hdevice & Hstream & Hvolume & Hmute).
  rewrite has_property_labels.
  unfold Plugin_GetPropertyData, Plugin_GetPropertyDataSize, labels_of,
    is_object.
  rewrite !switch_object. cbv zeta.
  destruct address as [sel scope element]. cbn [mSelector mScope].
  destruct (Z.eqb_spec objectID 1) as [->|];
    [cbn [Z.leb Z.compare Pos.compare Pos.compare_cont andb];
     one_object plugin_labels Hplugin|].
  destruct (Z.eqb_spec objectID 2) as [->|];
    [cbn [Z.leb Z.compare Pos.compare Pos.compare_cont andb];
     one_object device_labels Hdevice|].
  destruct (Z.eqb_spec objectID 3) as [->|];
    [cbn [Z.leb Z.compare Pos.compare Pos.compare_cont andb orb];
     one_object stream_labels Hstream|].
  destruct (Z.eqb_spec objectID 4) as [->|];
    [cbn [Z.leb Z.compare Pos.compare Pos.compare_cont andb orb];
     one_object stream_labels Hstream|].
  cbn [orb].
  destruct (Z.eqb_spec objectID 5) as [->|];
    [cbn [Z.leb Z.compare Pos.compare Pos.compare_cont andb];
     one_object volume_labels Hvolume|].
  destruct (Z.eqb_spec objectID 6) as [->|];
    [cbn [Z.leb Z.compare Pos.compare Pos.compare_cont andb];
     one_object mute_labels Hmute|].
  cbn [existsb]. split; [reflexivity|].
  destruct (Z.leb_spec 1 objectID); [|reflexivity].
  destruct (Z.leb_spec objectID 6); [lia | reflexivity].
Qed.

(** [Plugin_GetPropertyData] on the object with the labels [L], at one
    of these labels. *)
Ltac get_property L Hnd :=
  unfold Plugin_GetPropertyData, kObjectID_PlugIn, kObjectID_Device,
    kObjectID_Stream_Output, kObjectID_Stream_Input,
    kObjectID_Volume_Master, kObjectID_Mute_Master;
  rewrite switch_object; cbv zeta;
  cbn [Z.eqb Pos.eqb orb mSelector mScope];
  let HG := fresh "HG" in
  distinct_labels L Hnd HG; eval_switch HG; clear HG.

Ltac in_labels :=
  unfold labels_of, plugin_labels, device_labels, stream_labels,
    volume_labels, mute_labels;
  rewrite ?switch_object; simpl;
  repeat (first [left; reflexivity | right]).

(** X17. What is settable is a property.  Whenever
    [Plugin_IsPropertySettable] answers true for an object and a
    selector, [Plugin_HasProperty] answers true for them;
    [Plugin_IsPropertySettable] reports no error. *)
Theorem settable_is_property objectID address :
  (Plugin_IsPropertySettable objectID address).1 = true ->
  (Plugin_IsPropertySettable objectID address).2 = kAudioHardwareNoError
  /\ Plugin_HasProperty objectID address = true.
Proof.
  intros Hset. split; [reflexivity|].
  rewrite has_property_labels. apply existsb_eqb_In.
  revert Hset. unfold Plugin_IsPropertySettable.
  cbn [fst switch existsb]. rewrite !orb_false_r.
  unfold kObjectID_Device, kObjectID_Volume_Master, kObjectID_Mute_Master.
  destruct (Z.eqb_spec objectID 2) as [->|_].
  { destruct (Z.eqb_spec (mSelector address)
                kAudioDevicePropertyNominalSampleRate) as [->|];
      [intros _; in_labels | done]. }
  destruct (Z.eqb_spec objectID 5) as [->|_].
  { destruct (Z.eqb_spec (mSelector address)
                kAudioLevelControlPropertyScalarValue) as [->|];
      [intros _; in_labels|].
    destruct (Z.eqb_spec (mSelector address)
                kAudioLevelControlPropertyDecibelValue) as [->|];
      [intros _; in_labels | done]. }
  destruct (Z.eqb_spec objectID 6) as [->|_]; [|done].
  destruct (Z.eqb_spec (mSelector address)
              kAudioBooleanControlPropertyValue) as [->|];
    [intros _; in_labels | done].
Qed.

Lemma set_property_data_some g objectID address value g' status :
  Plugin_SetPropertyData g objectID address value = Some (g', status) ->
  status = kAudioHardwareNoError
  /\ host g' = host g
  /\ sampleRate g' = sampleRate g
  /\ isRunning g' = isRunning g
  /\ clientCount g' = clientCount g
  /\ anchorHostTime g' = anchorHostTime g
  /\ timestampCounter g' = timestampCounter g
  /\ ringBuffer g' = ringBuffer g
  /\ (volume g' = volume g
      \/ objectID = kObjectID_Volume_Master
         /\ mSelector address = kAudioLevelControlPropertyScalarValue
         /\ value = Float32 (volume g'))
  /\ (muted g' = muted g
      \/ objectID = kObjectID_Mute_Master
         /\ mSelector address = kAudioBooleanControlPropertyValue
         /\ exists v, value = UInt32 v /\ muted g' = negb (v =? 0))
  /\ (Plugin_HasProperty objectID address = false -> g' = g).
Proof.
  unfold Plugin_SetPropertyData. cbn [switch existsb].
  rewrite !orb_false_r.
  unfold kObjectID_Volume_Master, kObjectID_Mute_Master.
  assert (Hsame : forall g0 st,
            Some (g, kAudioHardwareNoError) = Some (g0, st) ->
            st = kAudioHardwareNoError /\ g0 = g)
    by (intros g0 st [= <- <-]; done).
  assert (Hframe : g' = g -> status = kAudioHardwareNoError ->
            status = kAudioHardwareNoError
            /\ host g' = host g
            /\ sampleRate g' = sampleRate g
            /\ isRunning g' = isRunning g
            /\ clientCount g' = clientCount g
            /\ anchorHostTime g' = anchorHostTime g
            /\ timestampCounter g' = timestampCounter g
            /\ ringBuffer g' = ringBuffer g
            /\ (volume g' = volume g
                \/ objectID = 5
                   /\ mSelector address
                      = kAudioLevelControlPropertyScalarValue
                   /\ value = Float32 (volume g'))
            /\ (muted g' = muted g
                \/ objectID = 6
                   /\ mSelector address
                      = kAudioBooleanControlPropertyValue
                   /\ exists v, value = UInt32 v
                                /\ muted g' = negb (v =? 0))
            /\ (Plugin_HasProperty objectID address = false -> g' = g)).
  { intros -> ->. repeat (split; [reflexivity|]).
    split; [now left|]. split; [now left | done]. }
  destruct (Z.eqb_spec objectID 5) as [->|_].
  { destruct (Z.eqb_spec (mSelector address)
                kAudioLevelControlPropertyScalarValue) as [E|_].
    - destruct value; try done. intros [= <- <-].
      repeat (split; [reflexivity|]).
      split; [right; now repeat split|]. split; [now left|].
      rewrite has_property_labels, E.
      intros Hnot%existsb_eqb_not_In. destruct Hnot. in_labels.
    - intros (-> & ->)%Hsame. now apply Hframe. }
  destruct (Z.eqb_spec objectID 6) as [->|_].
  { destruct (Z.eqb_spec (mSelector address)
                kAudioBooleanControlPropertyValue) as [E|_].
    - destruct value; try done. intros [= <- <-].
      repeat (split; [reflexivity|]).
      split; [now left|]. split; [right; repeat split; eauto|].
      rewrite has_property_labels, E.
      intros Hnot%existsb_eqb_not_In. destruct Hnot. in_labels.
    - intros (-> & ->)%Hsame. now apply Hframe. }
  intros (-> & ->)%Hsame. now apply Hframe.
Qed.

(** X18. What setting a property changes.  [Plugin_SetPropertyData]
    returns for every object and selector, the unknown ones too, as
    long as the data are of the type that it reads: a [Float32] for the
    scalar value of the volume control, a [UInt32] for the value of the
    mute control.  It then reports no error and leaves the host, the
    sample rate, the running flag, the client count, the anchor time,
    the timestamp counter and the ring buffer as they are.  The volume
    changes only for the scalar value of the volume control, to the
    value given; the mute flag changes only for the value of the mute
    control, to whether the value given is not 0.  For a property that
    the object does not have the whole state stays. *)
Theorem set_property_data_frame g objectID address value :
  match Plugin_SetPropertyData g objectID address value with
  | Some (g', status) =>
      status = kAudioHardwareNoError
      /\ host g' = host g
      /\ sampleRate g' = sampleRate g
      /\ isRunning g' = isRunning g
      /\ clientCount g' = clientCount g
      /\ anchorHostTime g' = anchorHostTime g
      /\ timestampCounter g' = timestampCounter g
      /\ ringBuffer g' = ringBuffer g
      /\ (volume g' = volume g
          \/ objectID = kObjectID_Volume_Master
             /\ mSelector address = kAudioLevelControlPropertyScalarValue
             /\ value = Float32 (volume g'))
      /\ (muted g' = muted g
          \/ objectID = kObjectID_Mute_Master
             /\ mSelector address = kAudioBooleanControlPropertyValue
             /\ exists v, value = UInt32 v /\ muted g' = negb (v =? 0))
      /\ (Plugin_HasProperty objectID address = false -> g' = g)
  | None =>
      objectID = kObjectID_Volume_Master
      /\ mSelector address = kAudioLevelControlPropertyScalarValue
      /\ (forall v, value <> Float32 v)
      \/ objectID = kObjectID_Mute_Master
         /\ mSelector address = kAudioBooleanControlPropertyValue
         /\ (forall v, value <> UInt32 v)
  end.
Proof.
  destruct (Plugin_SetPropertyData g objectID address value)
    as [[g' status]|] eqn:E;
    [exact (set_property_data_some g objectID address value g' status E)|].
  revert E. unfold Plugin_SetPropertyData. cbn [switch existsb].
  rewrite !orb_false_r.
  unfold kObjectID_Volume_Master, kObjectID_Mute_Master.
  destruct (Z.eqb_spec objectID 5) as [->|_].
  { destruct (Z.eqb_spec (mSelector address)
                kAudioLevelControlPropertyScalarValue) as [Hsel|_];
      [|done].
    destruct value; try done; intros _; left; now repeat split. }
  destruct (Z.eqb_spec objectID 6) as [->|_]; [|done].
  destruct (Z.eqb_spec (mSelector address)
              kAudioBooleanControlPropertyValue) as [Hsel|_]; [|done].
  destruct value; try done; intros _; right; now repeat split.
Qed.

(** X19. Settable, and ignored.  [Plugin_IsPropertySettable] answers
    true for the nominal sample rate of the device and for the decibel
    value of the volume control (a selector other than the scalar
    value), yet [Plugin_SetPropertyData] for them reports no error and
    leaves the whole state, sample rate and volume included, as it
    is. *)
Theorem settable_but_ignored g scope element value :
  kAudioLevelControlPropertyDecibelValue
  <> kAudioLevelControlPropertyScalarValue ->
  let rate :=
    mkAddress kAudioDevicePropertyNominalSampleRate scope element in
  let decibel :=
    mkAddress kAudioLevelControlPropertyDecibelValue scope element in
  Plugin_IsPropertySettable kObjectID_Device rate
  = (true, kAudioHardwareNoError)
  /\ Plugin_SetPropertyData g kObjectID_Device rate value
     = Some (g, kAudioHardwareNoError)
  /\ Plugin_IsPropertySettable kObjectID_Volume_Master decibel
     = (true, kAudioHardwareNoError)
  /\ Plugin_SetPropertyData g kObjectID_Volume_Master decibel value
     = Some (g, kAudioHardwareNoError).
Proof.
  intros Hne rate decibel.
  unfold Plugin_IsPropertySettable, Plugin_SetPropertyData, rate, decibel.
  cbn [switch existsb mSelector kObjectID_Device kObjectID_Volume_Master
         kObjectID_Mute_Master Z.eqb Pos.eqb orb].
  rewrite !Z.eqb_refl, orb_true_r.
  now destruct (Z.eqb_spec kAudioLevelControlPropertyDecibelValue
                  kAudioLevelControlPropertyScalarValue).
Qed.

(** X20. Volume and mute: what is set is what is read.  When no two
    case labels of one switch are equal, the scalar value given to
    [Plugin_SetPropertyData] for the volume control is the value, of the
    size of a [Float32], that [Plugin_GetPropertyData] returns for it
    next, the mute flag staying; and after the value [x] is set for the
    mute control, [Plugin_GetPropertyData] returns 0 if [x] is 0 and 1
    otherwise, the volume staying. *)
Theorem volume_and_mute_round_trip g scope element v x :
  labels_distinct ->
  let scalar :=
    mkAddress kAudioLevelControlPropertyScalarValue scope element in
  let boolean :=
    mkAddress kAudioBooleanControlPropertyValue scope element in
  (exists g',
     Plugin_SetPropertyData g kObjectID_Volume_Master scalar (Float32 v)
     = Some (g', kAudioHardwareNoError)
     /\ volume g' = v /\ muted g' = muted g
     /\ Plugin_GetPropertyData g' kObjectID_Volume_Master scalar
        = (Some (Float32 v, sizeof_Float32), kAudioHardwareNoError))
  /\ (exists g',
        Plugin_SetPropertyData g kObjectID_Mute_Master boolean (UInt32 x)
        = Some (g', kAudioHardwareNoError)
        /\ muted g' = negb (x =? 0) /\ volume g' = volume g
        /\ Plugin_GetPropertyData g' kObjectID_Mute_Master boolean
           = (Some (UInt32 (if x =? 0 then 0 else 1), sizeof_UInt32),
              kAudioHardwareNoError)).
Proof.
  intros (Hplugin & Hdevice & Hstream & Hvolume & Hmute) scalar boolean.
  split.
  - eexists. split.
    { unfold Plugin_SetPropertyData, scalar.
      cbn [switch existsb mSelector kObjectID_Volume_Master
             kObjectID_Mute_Master Z.eqb Pos.eqb orb].
      rewrite Z.eqb_refl. reflexivity. }
    do 2 (split; [reflexivity|]).
    unfold scalar. get_property volume_labels Hvolume. reflexivity.
  - eexists. split.
    { unfold Plugin_SetPropertyData, boolean.
      cbn [switch existsb mSelector kObjectID_Volume_Master
             kObjectID_Mute_Master Z.eqb Pos.eqb orb].
      rewrite Z.eqb_refl. reflexivity. }
    do 2 (split; [reflexivity|]).
    unfold boolean. get_property mute_labels Hmute.
    cbn [muted]. now destruct (x =? 0).
Qed.

(** X21. Owned objects know their owner.  When no two case labels of
    one switch are equal, every object that the plug-in or the device
    reports among its owned objects reports this plug-in, or this
    device, as its owner. *)
Theorem owned_objects_know_their_owner g objectID scope element o :
  labels_distinct ->
  objectID = kObjectID_PlugIn \/ objectID = kObjectID_Device ->
  In o (owned_objects g objectID scope element) ->
  Plugin_GetPropertyData g o
    (mkAddress kAudioObjectPropertyOwner scope element)
  = (Some (UInt32 objectID, sizeof_AudioObjectID), kAudioHardwareNoError).
Proof.
  intros (Hplugin & Hdevice & Hstream & Hvolume & Hmute) [->| ->];
    unfold owned_objects.
  - get_property plugin_labels Hplugin. cbn [fst In].
    intros [<-|[]]. get_property device_labels Hdevice. reflexivity.
  - get_property device_labels Hdevice. cbn [fst In].
    intros [<-|[<-|[<-|[<-|[]]]]].
    + get_property stream_labels Hstream. reflexivity.
    + get_property stream_labels Hstream. reflexivity.
    + get_property volume_labels Hvolume. reflexivity.
    + get_property mute_labels Hmute. reflexivity.
Qed.

(** X22. The running property counts clients.  After every sequence
    of [Plugin_StartIO] and [Plugin_StopIO] calls in which no client
    stops that has not started, the property that tells the host
    whether the device is running reads 1 if clients are left and 0 if
    none is. *)
Theorem running_property_counts_clients (silence : sample)
  (cs : list io_call) g rb scope element :
  labels_distinct ->
  live g rb -> clients_inv g -> balanced (clientCount g) cs ->
  exists g',
    run_io silence g cs = Some g'
    /\ Plugin_GetPropertyData g' kObjectID_Device
         (mkAddress kAudioDevicePropertyDeviceIsRunning scope element)
       = (Some (UInt32 (if clients_after (clientCount g) cs =? 0
                        then 0 else 1),
                sizeof_UInt32),
          kAudioHardwareNoError).
Proof.
  intros (Hplugin & Hdevice & Hstream & Hvolume & Hmute) Hlive Hinv Hbal.
  destruct (run_io_balanced silence cs g rb Hlive Hinv Hbal)
    as (g' & rb' & Hrun & _ & (_ & Hflag) & Hcount & _).
  exists g'. split; [exact Hrun|].
  get_property device_labels Hdevice.
  rewrite Hflag, Hcount.
  now destruct (clients_after (clientCount g) cs =? 0).
Qed.
End PropertyTables.

Section EntryPoint.
Context {sample float64 : Type}.
Variable silence : sample.
Context {HA : CoreAudio} {HF : Floats sample float64}.
Import Plugin PluginView.

Lemma driver_new_live alloc frames channels :
  1 <= frames < 2 ^ 32 -> 0 <= channels ->
  frames * channels < 2 ^ 32 ->
  alloc (frames * channels * sizeof_float) = true ->
  exists rb,
    Driver.new silence alloc frames channels = Ptr rb
    /\ DriverView.wf rb
    /\ Driver.mFrames rb = frames
    /\ Driver.mChannels rb = channels
    /\ DriverView.available rb = 0.
Proof.
  intros Hf Hc Hs Halloc. eexists. split.
  { unfold Driver.new, calloc. rewrite (u32_small (_ * _)) by nia.
    rewrite Halloc.
    destruct (Z.ltb_spec (frames * channels * sizeof_float) (2 ^ 64))
      as [|Hge]; [reflexivity | unfold sizeof_float in Hge; lia]. }
  split; [|done].
  split; cbn [Driver.mBuffer Driver.mFrames Driver.mChannels
                Driver.mWritePos Driver.mReadPos]; try lia.
  rewrite length_replicate. nia.
Qed.

(** X23. The entry point makes a plug-in ready for use.  When the
    allocations are granted, the first [AudiDeckDriverCreate] for the
    plug-in type makes a state with a live, empty ring buffer of 96000
    frames of two channels, no client and the device not running, the
    volume at [1.0f] and not muted, and returns the driver reference.
    Every later call returns the driver reference and leaves this
    state; a call for another type returns [nullptr] and leaves the
    state it finds. *)
Theorem create_makes_live_plugin alloc :
  alloc (Driver.kDevice_RingBufferSize * Driver.kDevice_ChannelCount
         * sizeof_float) = true ->
  (exists g0 rb0,
     AudiDeckDriverCreate silence alloc true true NULL
     = Some (Ptr g0, true)
     /\ live g0 rb0
     /\ clients_inv g0
     /\ clientCount g0 = 0
     /\ Driver.mFrames rb0 = 96000
     /\ DriverView.queued rb0 = []
     /\ volume g0 = f32_one
     /\ muted g0 = false
     /\ forall alloc' alloc_state,
          AudiDeckDriverCreate silence alloc' alloc_state true (Ptr g0)
          = Some (Ptr g0, true))
  /\ forall alloc' alloc_state gState,
       AudiDeckDriverCreate silence alloc' alloc_state false gState
       = Some (gState, false).
Proof.
  intros Halloc. split; [|reflexivity].
  destruct (driver_new_live alloc Driver.kDevice_RingBufferSize
              Driver.kDevice_ChannelCount)
    as (rb0 & Hnew & Hwf & Hf & Hc & Hav);
    [unfold Driver.kDevice_RingBufferSize; lia
    | unfold Driver.kDevice_ChannelCount; lia
    | unfold Driver.kDevice_RingBufferSize, Driver.kDevice_ChannelCount;
      lia
    | exact Halloc |].
  eexists _, rb0. unfold AudiDeckDriverCreate. cbn [negb].
  rewrite Hnew. split; [reflexivity|].
  split; [split; [reflexivity | split; [exact Hwf | exact Hc]]|].
  split; [split; [cbn [clientCount]; lia | reflexivity]|].
  split; [reflexivity|].
  split; [rewrite Hf; reflexivity|].
  split; [now apply driver_queued_empty|].
  now repeat (split; [reflexivity|]).
Qed.
End EntryPoint.

(** * The further properties at work on a small plug-in *)

Ltac driver_wf_by_computation :=
  split; cbn [Driver.mFrames Driver.mChannels Driver.mBuffer
                Driver.mWritePos Driver.mReadPos DriverInstance.ring0];
  solve [lia | reflexivity].

Ltac driver_valid_by_computation :=
  split; [split|]; vm_compute; first [reflexivity | discriminate].

Ltac live_by_computation :=
  split; [reflexivity | split; [driver_wf_by_computation | reflexivity]].

Ltac labels_distinct_by_computation :=
  repeat split; apply (bool_decide_unpack _); vm_compute; exact I.

Lemma skip_is_read_without_copy_witness :
  wf Instance.b0 /\ 0 <= 3 < 2 ^ 32
  /\ exists b',
       AudioRingBuffer_Skip (Ptr Instance.b0) 3 = Ptr b'
       /\ AudioRingBuffer_GetAvailableFrames (Ptr b') = 0.
Proof.
  assert (Hwf : wf Instance.b0) by wf_by_computation.
  assert (Hfc : 0 <= 3 < 2 ^ 32) by lia.
  split; [exact Hwf|]. split; [exact Hfc|].
  destruct (skip_is_read_without_copy 0 Instance.b0 3 Hwf Hfc)
    as (b' & Hskip & _ & _ & _ & _ & _ & Hav & _).
  exists b'. split; [exact Hskip | exact Hav].
Defined.

Lemma reset_is_create_again_witness :
  wf Instance.b0 /\ (31 <= 31)%nat
  /\ AudioRingBuffer_Reset 0 (Ptr Instance.b0)
     = AudioRingBuffer_Create 0 (fun _ => true) 31 4 2.
Proof.
  assert (Hwf : wf Instance.b0) by wf_by_computation.
  split; [exact Hwf|]. split; [lia|].
  exact (proj1 (reset_is_create_again 0 Instance.b0 (fun _ => true) 31%nat
                  Hwf ltac:(lia) eq_refl eq_refl)).
Defined.

Lemma oversized_request_never_returns_witness :
  2 ^ 31 < 2 ^ 31 + 1
  /\ Cpp.new 0 (fun _ => true) 40 (2 ^ 31 + 1) 2 = None.
Proof.
  split; [lia|].
  exact (proj2 (oversized_request_never_returns 0 (fun _ => true) 40%nat
                  (2 ^ 31 + 1) 2 ltac:(lia))).
Defined.

Lemma cpp_class_is_c_interface_witness :
  Cpp.mBufferMask DriverInstance.object0
  = u32 (Cpp.mBufferSize DriverInstance.object0 - 1)
  /\ Cpp.availableFrames DriverInstance.object0
     = AudioRingBuffer_GetAvailableFrames
         (Ptr (CppView.to_c DriverInstance.object0)).
Proof.
  split; [reflexivity|].
  exact (proj1 (proj2 (proj2 (proj2
           (cpp_class_is_c_interface 0 DriverInstance.object0
              DriverInstance.mix0 2 eq_refl))))).
Defined.

Lemma driver_write_policy_witness :
  DriverView.wf DriverInstance.ring0 /\ 0 <= 3 < 2 ^ 32
  /\ DriverView.valid_array Instance.data0 3 2
  /\ exists d',
       Driver.write DriverInstance.ring0 Instance.data0 3 = Some (d', 2)
       /\ DriverView.available d' = 3.
Proof.
  assert (Hwf : DriverView.wf DriverInstance.ring0)
    by driver_wf_by_computation.
  assert (Hfc : 0 <= 3 < 2 ^ 32) by lia.
  assert (Hdata : DriverView.valid_array Instance.data0 3
                    (Driver.mChannels DriverInstance.ring0))
    by driver_valid_by_computation.
  split; [exact Hwf|]. split; [exact Hfc|]. split; [exact Hdata|].
  destruct (driver_write_policy DriverInstance.ring0 Instance.data0 3
              Hwf Hfc Hdata ltac:(simpl; lia))
    as (d' & Hwrite & _ & _ & _ & _ & _ & Hav & _).
  exists d'. split; [exact Hwrite | exact Hav].
Defined.



Lemma driver_reset_is_new_witness :
  DriverView.wf DriverInstance.ring0
  /\ exists d0,
       Driver.new 0 (fun _ => true) 3 2 = Ptr d0
       /\ Driver.reset 0 DriverInstance.ring0 = Some d0.
Proof.
  assert (Hwf : DriverView.wf DriverInstance.ring0)
    by driver_wf_by_computation.
  split; [exact Hwf|].
  destruct (driver_reset_is_new 0 DriverInstance.ring0 (fun _ => true)
              Hwf eq_refl)
    as (d0 & Hnew & Hreset & _).
  exists d0. split; [exact Hnew | exact Hreset].
Defined.

Section PluginWitnesses.
Import DriverInstance Plugin PluginView.
#[local] Existing Instance header.
#[local] Existing Instance integers.



Lemma loopback_after_start_witness :
  fourcc "read" <> fourcc "rite"
  /\ live state0 ring0 /\ clientCount state0 = 0 /\ 0 <= 2 <= 3
  /\ DriverView.valid_array mix0 2 2
  /\ DriverView.valid_array input0 2 2
  /\ exists g1 g2 g3,
       Plugin_StartIO 0 state0 5 = Some (g1, kAudioHardwareNoError)
       /\ Plugin_DoIO 0 g1 (fourcc "rite") 2 mix0
          = Some (g2, mix0, kAudioHardwareNoError)
       /\ Plugin_DoIO 0 g2 (fourcc "read") 2 input0
          = Some (g3, [6; -6; 8; -8], kAudioHardwareNoError).
Proof.
  assert (Hops : fourcc "read" <> fourcc "rite")
    by (vm_compute; discriminate).
  assert (Hlive : live state0 ring0) by live_by_computation.
  assert (Hk : 0 <= 2 <= Driver.mFrames ring0) by (simpl; lia).
  assert (Hmix : DriverView.valid_array mix0 2 Driver.kDevice_ChannelCount)
    by driver_valid_by_computation.
  assert (Hout : DriverView.valid_array input0 2
                   Driver.kDevice_ChannelCount)
    by driver_valid_by_computation.
  split; [exact Hops|]. split; [exact Hlive|]. split; [reflexivity|].
  split; [exact Hk|]. split; [exact Hmix|]. split; [exact Hout|].
  destruct (loopback_after_start (HA := header) (HF := integers)
              0 state0 ring0 5 mix0 input0 2 Hops
              Hlive eq_refl Hk Hmix Hout)
    as (g1 & g2 & g3 & rb3 & Hstart & Hwrite & Hread & _).
  exists g1, g2, g3.
  split; [exact Hstart|]. split; [exact Hwrite | exact Hread].
Defined.

Lemma running_while_clients_witness :
  live state0 ring0 /\ clients_inv state0
  /\ balanced (clientCount state0) [StartIO 5; StartIO 6; StopIO]
  /\ exists g',
       run_io 0 state0 [StartIO 5; StartIO 6; StopIO] = Some g'
       /\ clients_inv g'
       /\ clientCount g' = 1.
Proof.
  assert (Hlive : live state0 ring0) by live_by_computation.
  assert (Hinv : clients_inv state0)
    by (split; [simpl; lia | reflexivity]).
  assert (Hbal : balanced (clientCount state0)
                   [StartIO 5; StartIO 6; StopIO])
    by (simpl; lia).
  split; [exact Hlive|]. split; [exact Hinv|]. split; [exact Hbal|].
  destruct (running_while_clients 0 [StartIO 5; StartIO 6; StopIO]
              state0 ring0 Hlive Hinv Hbal)
    as (g' & rb' & Hrun & _ & Hinv' & Hcount & _).
  exists g'. split; [exact Hrun|]. split; [exact Hinv' | exact Hcount].
Defined.

Lemma stop_without_start_witness :
  clientCount state0 = 0
  /\ clientCount (Plugin_StopIO state0).1 = 2 ^ 32 - 1
  /\ Plugin_StartIO 0 (Plugin_StopIO state0).1 5
     = Some (state0, kAudioHardwareNoError).
Proof.
  split; [reflexivity|].
  destruct (stop_without_start 0 state0 5 eq_refl)
    as (Hcount & _ & Hstart).
  split; [exact Hcount | exact Hstart].
Defined.

Lemma doio_only_announced_operations_witness :
  (Plugin_WillDoIO (fourcc "mixo")).1.1 = false
  /\ Plugin_DoIO 0 state0 (fourcc "mixo") 2 input0
     = Some (state0, input0, kAudioHardwareNoError).
Proof.
  split; [reflexivity|].
  exact (proj2 (doio_only_announced_operations (HA := header) (HF := integers)
              0 state0 (fourcc "mixo")
                  2 input0 eq_refl)).
Defined.

Lemma data_found_iff_has_property_witness :
  labels_distinct
  /\ Plugin_GetPropertyData state0 kObjectID_Device
       (mkAddress (fourcc "tran") 0 0)
     = (Some (UInt32 (fourcc "virt"), 4), kAudioHardwareNoError)
  /\ Plugin_GetPropertyDataSize kObjectID_Device
       (mkAddress (fourcc "tran") 0 0)
     = (4, kAudioHardwareNoError).
Proof.
  assert (Hlabels : labels_distinct) by labels_distinct_by_computation.
  split; [exact Hlabels|].
  pose proof (data_found_iff_has_property (HA := header) (HF := integers)
              state0 kObjectID_Device
                (mkAddress (fourcc "tran") 0 0) Hlabels) as Hfound.
  change (Plugin_GetPropertyData state0 kObjectID_Device
            (mkAddress (fourcc "tran") 0 0))
    with (Some (UInt32 (fourcc "virt"), 4) : option (PropertyData Z Z * Z),
          kAudioHardwareNoError) in Hfound.
  split; [reflexivity | exact (proj2 (proj2 Hfound))].
Defined.

Lemma settable_is_property_witness :
  (Plugin_IsPropertySettable kObjectID_Mute_Master
     (mkAddress (fourcc "bcvl") 0 0)).1 = true
  /\ Plugin_HasProperty kObjectID_Mute_Master
       (mkAddress (fourcc "bcvl") 0 0) = true.
Proof.
  split; [reflexivity|].
  exact (proj2 (settable_is_property (HA := header) kObjectID_Mute_Master
                  (mkAddress (fourcc "bcvl") 0 0) eq_refl)).
Defined.

Lemma set_property_data_frame_witness :
  Plugin_HasProperty kObjectID_Device (mkAddress (fourcc "lcsv") 0 0)
  = false
  /\ Plugin_SetPropertyData state0 kObjectID_Device
       (mkAddress (fourcc "lcsv") 0 0) (Float32 3)
     = Some (state0, kAudioHardwareNoError).
Proof.
  split; [reflexivity|].
  pose proof (set_property_data_frame (HA := header) state0
                kObjectID_Device (mkAddress (fourcc "lcsv") 0 0)
                (Float32 3)) as Hframe.
  destruct (Plugin_SetPropertyData state0 kObjectID_Device
              (mkAddress (fourcc "lcsv") 0 0) (Float32 3))
    as [[g' status]|].
  - destruct Hframe as (-> & _ & _ & _ & _ & _ & _ & _ & _ & _ & Hsame).
    now rewrite (Hsame eq_refl).
  - destruct Hframe as [(Hobject & _) | (Hobject & _)]; discriminate.
Defined.

Lemma settable_but_ignored_witness :
  fourcc "lcdv" <> fourcc "lcsv"
  /\ Plugin_IsPropertySettable kObjectID_Device
       (mkAddress (fourcc "nsrt") 0 0)
     = (true, kAudioHardwareNoError)
  /\ Plugin_SetPropertyData state0 kObjectID_Device
       (mkAddress (fourcc "nsrt") 0 0) (Float64 44100)
     = Some (state0, kAudioHardwareNoError).
Proof.
  assert (Hne : fourcc "lcdv" <> fourcc "lcsv")
    by (vm_compute; discriminate).
  split; [exact Hne|].
  destruct (settable_but_ignored (HA := header)
              state0 0 0 (Float64 44100) Hne)
    as (Hset & Hignored & _).
  split; [exact Hset | exact Hignored].
Defined.

Lemma volume_and_mute_round_trip_witness :
  labels_distinct
  /\ exists g',
       Plugin_SetPropertyData state0 kObjectID_Volume_Master
         (mkAddress (fourcc "lcsv") 0 0) (Float32 3)
       = Some (g', kAudioHardwareNoError)
       /\ Plugin_GetPropertyData g' kObjectID_Volume_Master
            (mkAddress (fourcc "lcsv") 0 0)
          = (Some (Float32 3, sizeof_Float32), kAudioHardwareNoError).
Proof.
  assert (Hlabels : labels_distinct) by labels_distinct_by_computation.
  split; [exact Hlabels|].
  destruct (volume_and_mute_round_trip (HA := header) (HF := integers)
              state0 0 0 3 1 Hlabels)
    as ((g' & Hset & _ & _ & Hget) & _).
  exists g'. split; [exact Hset | exact Hget].
Defined.

Lemma owned_objects_know_their_owner_witness :
  labels_distinct
  /\ In kObjectID_Volume_Master (owned_objects state0 kObjectID_Device 0 0)
  /\ Plugin_GetPropertyData state0 kObjectID_Volume_Master
       (mkAddress (fourcc "stdv") 0 0)
     = (Some (UInt32 kObjectID_Device, sizeof_AudioObjectID),
        kAudioHardwareNoError).
Proof.
  assert (Hlabels : labels_distinct) by labels_distinct_by_computation.
  assert (Hin : In kObjectID_Volume_Master
                  (owned_objects state0 kObjectID_Device 0 0))
    by (vm_compute; tauto).
  split; [exact Hlabels|]. split; [exact Hin|].
  exact (owned_objects_know_their_owner (HA := header) (HF := integers)
              state0 kObjectID_Device 0 0
           kObjectID_Volume_Master Hlabels (or_intror eq_refl) Hin).
Defined.

Lemma running_property_counts_clients_witness :
  labels_distinct
  /\ live state0 ring0 /\ clients_inv state0
  /\ balanced (clientCount state0) [StartIO 5; StartIO 6; StopIO]
  /\ exists g',
       run_io 0 state0 [StartIO 5; StartIO 6; StopIO] = Some g'
       /\ Plugin_GetPropertyData g' kObjectID_Device
            (mkAddress (fourcc "goin") 0 0)
          = (Some (UInt32 1, sizeof_UInt32), kAudioHardwareNoError).
Proof.
  assert (Hlabels : labels_distinct) by labels_distinct_by_computation.
  assert (Hlive : live state0 ring0) by live_by_computation.
  assert (Hinv : clients_inv state0)
    by (split; [simpl; lia | reflexivity]).
  assert (Hbal : balanced (clientCount state0)
                   [StartIO 5; StartIO 6; StopIO])
    by (simpl; lia).
  split; [exact Hlabels|]. split; [exact Hlive|]. split; [exact Hinv|].
  split; [exact Hbal|].
  destruct (running_property_counts_clients (HA := header) (HF := integers)
              0
              [StartIO 5; StartIO 6; StopIO] state0 ring0 0 0
              Hlabels Hlive Hinv Hbal)
    as (g' & Hrun & Hget).
  exists g'. split; [exact Hrun | exact Hget].
Defined.

Lemma create_makes_live_plugin_witness :
  (fun _ : Z => true)
    (Driver.kDevice_RingBufferSize * Driver.kDevice_ChannelCount
     * sizeof_float) = true
  /\ exists g0,
       AudiDeckDriverCreate 0 (fun _ => true) true true NULL
       = Some (Ptr g0, true)
       /\ clientCount g0 = 0
       /\ AudiDeckDriverCreate 0 (fun _ => false) false true (Ptr g0)
          = Some (Ptr g0, true).
Proof.
  split; [reflexivity|].
  destruct (create_makes_live_plugin (HF := integers) 0 (fun _ => true)
              eq_refl)
    as ((g0 & rb0 & Hcreate & _ & _ & Hcount & _ & _ & _ & _ & Hagain)
        & _).
  exists g0. split; [exact Hcreate|]. split; [exact Hcount|].
  exact (Hagain (fun _ => false) false).
Defined.
End PluginWitnesses.
